(** * Strife: a multi-bank payment gateway with two-phase commit

    A shallow embedding of the three programs of the repository

    - [bank_server.py]  (module [Bank]):    the 2PC participant,
    - [gateway.py]      (module [Gateway]): the 2PC coordinator, its token
                                            check and its idempotency cache,
    - [client.py]       (module [Client]):  the pending-payment queue,

    then the methods around them (the bank's read-only methods, the
    gateway's [Authenticate], [CheckBalance], [GetTransactionHistory] and
    token sweep, the client's view of its queue and its [authenticate]),
    followed by the properties of the design document that were checked
    against them and by further properties of the code.

    Modelling conventions.

    - Python [float] quantities (balances, amounts, [time.time()]) are the
      rationals [Q] they denote; comparisons are exact.  An addition or a
      subtraction is modelled by the exact result, which is what the
      program computes when that result is a float ([Py.is_float]): a
      property that speaks of the value of a sum or a difference assumes so.
      NaN and the infinities are outside the model.
    - A Python [dict] keyed by strings is a [gmap string _]; the one dict
      that the code iterates in order ([self.users]) is an association list.
    - Everything a method reads from its surroundings ([time.time()],
      [uuid.uuid4()], the answer of a remote call) is an explicit input:
      bank methods take an [env], gateway methods are programs over a small
      interface of operations whose answers the caller of the program
      chooses.
    - Logging and the JSON files written after each mutation are not
      modelled; writing them is assumed to succeed. *)

From Stdlib Require Import QArith ZArith String List DecimalString Lqa Lia.
From stdpp Require Import base strings gmap list.
From stdpp Require sorting.
From Stdlib Require Sorted.

Open Scope string_scope.

(** ** Python values *)

Module Py.

(** [str(x)] of a float inside an f-string.  No property below depends on
    the digits; integers print as Python prints them, other rationals as
    a fraction. *)
Definition str_float (x : Q) : string :=
  let n := NilZero.string_of_int (Z.to_int (Qnum x)) in
  match Qden x with
  | xH => n ++ ".0"
  | d => n ++ "/" ++ NilZero.string_of_uint (Pos.to_uint d)
  end.

(** Truth value of a string: the empty string is falsy. *)
Definition truthy (s : string) : bool :=
  match s with EmptyString => false | _ => true end.

(** Truth value of what a function returns when it may fall off its end:
    [None] stands for Python's [None]. *)
Definition truthy_opt (v : option bool) : bool :=
  match v with Some b => b | None => false end.

(** [needle in haystack] on strings. *)
Definition contains (needle haystack : string) : bool :=
  match String.index 0 needle haystack with Some _ => true | None => false end.

(** [x < y] on floats. *)
Definition lt (x y : Q) : bool := if Qlt_le_dec x y then true else false.

(** [max(0, x)]. *)
Definition max0 (x : Q) : Q := if Qlt_le_dec 0 x then x else 0%Q.

(** The finite floats (IEEE 754 binary64) among the rationals: zero, and
    the fractions [± m * 2^e] with [m] odd, of at most 53 bits, [e] at least
    [-1074], and a magnitude below [2^1024].  When the exact result of a
    float addition or subtraction is such a number, it is the result. *)
Fixpoint twos (p : positive) : nat :=
  match p with xO p' => S (twos p') | _ => O end.

Fixpoint odd_part (p : positive) : positive :=
  match p with xO p' => odd_part p' | _ => p end.

Definition is_float (x : Q) : bool :=
  let r := Qred x in
  match Qnum r with
  | Z0 => true
  | Zpos n | Zneg n =>
      let d := Qden r in
      (odd_part d =? 1)%positive
      && (Pos.size_nat (odd_part n) <=? 53)%nat
      && (-1074 <=? Z.of_nat (twos n) - Z.of_nat (twos d))%Z
      && (Z.of_nat (Pos.size_nat n) - Z.of_nat (twos d) <=? 1024)%Z
  end.

(** [dict(pairs)[key]]: in a dict built from a sequence of pairs the last
    binding of a key wins. *)
Fixpoint dict_get (pairs : list (string * string)) (key : string) : option string :=
  match pairs with
  | [] => None
  | (k, v) :: rest =>
      match dict_get rest key with
      | Some v' => Some v'
      | None => if String.eqb k key then Some v else None
      end
  end.

End Py.

(** ** gRPC status codes and the outcome of a call through a stub *)

Module Grpc.

Inductive StatusCode : Type :=
| OK | CANCELLED | UNKNOWN | INVALID_ARGUMENT | DEADLINE_EXCEEDED
| NOT_FOUND | ALREADY_EXISTS | PERMISSION_DENIED | RESOURCE_EXHAUSTED
| FAILED_PRECONDITION | ABORTED | OUT_OF_RANGE | UNIMPLEMENTED
| INTERNAL | UNAVAILABLE | DATA_LOSS | UNAUTHENTICATED.

Definition code_name (c : StatusCode) : string :=
  match c with
  | OK => "OK" | CANCELLED => "CANCELLED" | UNKNOWN => "UNKNOWN"
  | INVALID_ARGUMENT => "INVALID_ARGUMENT"
  | DEADLINE_EXCEEDED => "DEADLINE_EXCEEDED"
  | NOT_FOUND => "NOT_FOUND" | ALREADY_EXISTS => "ALREADY_EXISTS"
  | PERMISSION_DENIED => "PERMISSION_DENIED"
  | RESOURCE_EXHAUSTED => "RESOURCE_EXHAUSTED"
  | FAILED_PRECONDITION => "FAILED_PRECONDITION"
  | ABORTED => "ABORTED" | OUT_OF_RANGE => "OUT_OF_RANGE"
  | UNIMPLEMENTED => "UNIMPLEMENTED" | INTERNAL => "INTERNAL"
  | UNAVAILABLE => "UNAVAILABLE" | DATA_LOSS => "DATA_LOSS"
  | UNAUTHENTICATED => "UNAUTHENTICATED"
  end.

Definition is_deadline_exceeded (c : StatusCode) : bool :=
  match c with DEADLINE_EXCEEDED => true | _ => false end.

Definition is_ok (c : StatusCode) : bool :=
  match c with OK => true | _ => false end.

(** What a servicer method hands back to the server: the message it
    returns and the status it left in [context] ([OK] when it never
    called [set_code]). *)
Record served (A : Type) : Type := Served {
  value : A;
  code : StatusCode;
  details : string
}.
Arguments Served {A} _ _ _.
Arguments value {A} _.
Arguments code {A} _.
Arguments details {A} _.

Definition ok {A} (a : A) : served A := Served a OK "".

(** What the caller of a method observes through a working channel: the
    reply, or a [grpc.RpcError] with its code and details. *)
Inductive remote (A : Type) : Type :=
| Answered (a : A)
| Failed (c : StatusCode) (d : string).
Arguments Answered {A} _.
Arguments Failed {A} _ _.

(** A status other than [OK] reaches the caller as an [RpcError]; the
    returned message is dropped by the transport. *)
Definition deliver {A} (s : served A) : remote A :=
  if is_ok (code s) then Answered (value s) else Failed (code s) (details s).

(** What a call [self.bank_stubs[bank].method(...)] gives in the gateway:
    the reply, a [grpc.RpcError], or an exception that is not an
    [RpcError] (the entry of the table is [None] because the channel could
    not be created, for instance). *)
Inductive result (A : Type) : Type :=
| Reply (a : A)
| RpcError (c : StatusCode) (d : string)
| Raised (what : string).
Arguments Reply {A} _.
Arguments RpcError {A} _ _.
Arguments Raised {A} _.

Definition of_remote {A} (r : remote A) : result A :=
  match r with Answered a => Reply a | Failed c d => RpcError c d end.

End Grpc.

(** ** Messages ([protofiles/payment.proto], as the code uses them) *)

Module Proto.

Record BankBalanceRequest := { bb_account_id : string }.
Record BankBalanceResponse := {
  bb_success : bool; bb_balance : Q; bb_message : string }.

Record BankTransactionRequest := {
  bt_account_id : string; bt_type : string; bt_amount : Q;
  bt_counterparty : string; bt_payment_id : string }.
Record BankTransactionResponse := { bt_success : bool; bt_message : string }.

Record PrepareTransactionRequest := {
  prep_transaction_id : string; prep_account_id : string;
  prep_type : string; prep_amount : Q; prep_counterparty : string }.
Record PrepareTransactionResponse := { ready : bool; prep_message : string }.

Record CommitTransactionRequest := { commit_transaction_id : string }.
Record CommitTransactionResponse := {
  commit_success : bool; commit_message : string }.

Record AbortTransactionRequest := { abort_transaction_id : string }.
Record AbortTransactionResponse := {
  abort_success : bool; abort_message : string }.

Record PaymentRequest := {
  token : string; sender_account : string; receiver_account : string;
  receiver_bank : string; amount : Q; payment_id : string }.
Record PaymentResponse := {
  success : bool; transaction_id : string; status : string;
  message : string }.

End Proto.

(** ** The bank ([bank_server.py], class [BankServicer]) *)

Module Bank.
Import Proto.

Record user_data := {
  password : string; account_id : string; name : string; balance : Q }.

Record ledger_entry := {
  le_transaction_id : string; le_type : string; le_amount : Q;
  le_counterparty : string; le_timestamp : string; le_status : string }.

Record details := {
  d_account_id : string; d_username : string; d_type : string;
  d_amount : Q; d_counterparty : string; d_timestamp : Q }.

Record prepared := {
  p_ready : bool; p_message : string; p_details : details }.

(** The attributes of a [BankServicer].  [users] keeps the order of the
    dict, which the account look-ups iterate. *)
Record state := {
  bank_name : string;
  users : list (string * user_data);
  transactions : gmap string (list ledger_entry);
  processed_transactions : gmap string (bool * string);
  prepared_transactions : gmap string prepared
}.

(** What one call reads from the clock and the random source. *)
Record env := {
  time : Q;            (* time.time() *)
  strftime : string;   (* time.strftime("%Y-%m-%d %H:%M:%S") *)
  uuid4 : string       (* str(uuid.uuid4()) *)
}.

Definition set_users (s : state) (u : list (string * user_data)) : state :=
  {| bank_name := bank_name s; users := u; transactions := transactions s;
     processed_transactions := processed_transactions s;
     prepared_transactions := prepared_transactions s |}.

Definition set_transactions (s : state) (t : gmap string (list ledger_entry)) : state :=
  {| bank_name := bank_name s; users := users s; transactions := t;
     processed_transactions := processed_transactions s;
     prepared_transactions := prepared_transactions s |}.

Definition set_processed (s : state) (p : gmap string (bool * string)) : state :=
  {| bank_name := bank_name s; users := users s; transactions := transactions s;
     processed_transactions := p;
     prepared_transactions := prepared_transactions s |}.

Definition set_prepared (s : state) (p : gmap string prepared) : state :=
  {| bank_name := bank_name s; users := users s; transactions := transactions s;
     processed_transactions := processed_transactions s;
     prepared_transactions := p |}.

(** [for username, user_data in self.users.items():
       if user_data["account_id"] == account_id: ... break] *)
Fixpoint find_account (us : list (string * user_data)) (acc : string)
  : option (string * user_data) :=
  match us with
  | [] => None
  | (username, d) :: rest =>
      if String.eqb (account_id d) acc then Some (username, d)
      else find_account rest acc
  end.

(** [self.users[username]] *)
Fixpoint users_get (us : list (string * user_data)) (username : string)
  : option user_data :=
  match us with
  | [] => None
  | (u, d) :: rest =>
      if String.eqb u username then Some d else users_get rest username
  end.

Definition with_balance (d : user_data) (b : Q) : user_data :=
  {| password := password d; account_id := account_id d;
     name := name d; balance := b |}.

(** [self.users[username]["balance"] = f(self.users[username]["balance"])] *)
Fixpoint users_adjust (us : list (string * user_data)) (username : string)
    (f : Q → Q) : list (string * user_data) :=
  match us with
  | [] => []
  | (u, d) :: rest =>
      if String.eqb u username
      then (u, with_balance d (f (balance d))) :: rest
      else (u, d) :: users_adjust rest username f
  end.

(** The balance of an account, [None] when the bank has no such account. *)
Definition balance_of (s : state) (acc : string) : option Q :=
  match find_account (users s) acc with
  | Some (_, d) => Some (balance d)
  | None => None
  end.

(** [record_transaction(account_id, type, amount, counterparty,
                        status="completed", transaction_id=None)] *)
Definition record_transaction (self : state) (e : env)
    (acc ty : string) (amt : Q) (counterparty : string)
    (tx_id : option string) : state :=
  let old := default [] (transactions self !! acc) in
  let transaction := {|
    le_transaction_id :=
      match tx_id with
      | Some t => if Py.truthy t then t else uuid4 e
      | None => uuid4 e
      end;
    le_type := ty; le_amount := amt; le_counterparty := counterparty;
    le_timestamp := strftime e; le_status := "completed" |} in
  set_transactions self (<[acc := (old ++ [transaction])%list]> (transactions self)).

Definition GetBalance (self : state) (request : BankBalanceRequest)
  : Grpc.served BankBalanceResponse :=
  let acc := bb_account_id request in
  match find_account (users self) acc with
  | Some (_, d) =>
      Grpc.ok {| bb_success := true; bb_balance := balance d;
                 bb_message := "Balance retrieved successfully" |}
  | None =>
      Grpc.Served
        {| bb_success := false; bb_balance := 0;
           bb_message := "Account " ++ acc ++ " not found" |}
        Grpc.NOT_FOUND
        ("Account " ++ acc ++ " not found in bank " ++ bank_name self)
  end.

(** Caches the result under the payment id when there is one. *)
Definition remember (self : state) (pid : string)
    (r : BankTransactionResponse) : state :=
  if Py.truthy pid
  then set_processed self
         (<[pid := (bt_success r, bt_message r)]> (processed_transactions self))
  else self.

Definition ProcessTransaction (self : state) (e : env)
    (request : BankTransactionRequest)
  : state * Grpc.served BankTransactionResponse :=
  let acc := bt_account_id request in
  let amt := bt_amount request in
  let ty := bt_type request in
  let pid := bt_payment_id request in
  let counterparty := bt_counterparty request in
  match (if Py.truthy pid then processed_transactions self !! pid else None) with
  | Some (ok, msg) =>
      (self, Grpc.ok {| bt_success := ok; bt_message := msg |})
  | None =>
      match find_account (users self) acc with
      | Some (username, d) =>
          if String.eqb ty "debit" then
            if Py.lt (balance d) amt then
              let response := {|
                bt_success := false;
                bt_message := "Insufficient funds. Current balance: "
                              ++ Py.str_float (balance d) |} in
              (remember self pid response, Grpc.ok response)
            else
              let s1 := set_users self
                          (users_adjust (users self) username (fun b => b - amt)%Q) in
              let s2 := record_transaction s1 e acc "debit" amt counterparty None in
              let response := {|
                bt_success := true;
                bt_message := "Debit successful. New balance: "
                              ++ Py.str_float (balance d - amt) |} in
              (remember s2 pid response, Grpc.ok response)
          else if String.eqb ty "credit" then
            let s1 := set_users self
                        (users_adjust (users self) username (fun b => b + amt)%Q) in
            let s2 := record_transaction s1 e acc "credit" amt counterparty None in
            let response := {|
              bt_success := true;
              bt_message := "Credit successful. New balance: "
                            ++ Py.str_float (balance d + amt) |} in
            (remember s2 pid response, Grpc.ok response)
          else
            let response := {|
              bt_success := false;
              bt_message := "Invalid transaction type: " ++ ty |} in
            (remember self pid response, Grpc.ok response)
      | None =>
          let response := {|
            bt_success := false;
            bt_message := "Account " ++ acc ++ " not found" |} in
          (remember self pid response,
           Grpc.Served response Grpc.NOT_FOUND
             ("Account " ++ acc ++ " not found in bank " ++ bank_name self))
      end
  end.

(** Phase 1 of 2PC. *)
Definition PrepareTransaction (self : state) (e : env)
    (request : PrepareTransactionRequest)
  : state * PrepareTransactionResponse :=
  let transaction_id := prep_transaction_id request in
  let acc := prep_account_id request in
  let amt := prep_amount request in
  let transaction_type := prep_type request in
  let counterparty := prep_counterparty request in
  match prepared_transactions self !! transaction_id with
  | Some p =>
      (self, {| ready := p_ready p; prep_message := p_message p |})
  | None =>
      match find_account (users self) acc with
      | None =>
          (self, {| ready := false;
                    prep_message := "Account " ++ acc ++ " not found" |})
      | Some (account_username, d) =>
          (* self.users[account_username] is the entry the loop stopped at *)
          if String.eqb transaction_type "debit" && Py.lt (balance d) amt then
            (self, {| ready := false;
                      prep_message :=
                        "Insufficient funds. Current balance: "
                        ++ Py.str_float (balance d) ++ ", required: "
                        ++ Py.str_float amt |})
          else
            let entry := {|
              p_ready := true;
              p_message := "Ready to process transaction";
              p_details := {|
                d_account_id := acc; d_username := account_username;
                d_type := transaction_type; d_amount := amt;
                d_counterparty := counterparty; d_timestamp := time e |} |} in
            (set_prepared self
               (<[transaction_id := entry]> (prepared_transactions self)),
             {| ready := true;
                prep_message := "Ready to process transaction" |})
      end
  end.

(** Phase 2 of 2PC: commit.  The [try] block can only raise the
    [KeyError] of [self.users[username]]; [str] of that exception is the
    quoted key. *)
Definition CommitTransaction (self : state) (e : env)
    (request : CommitTransactionRequest)
  : state * CommitTransactionResponse :=
  let transaction_id := commit_transaction_id request in
  match prepared_transactions self !! transaction_id with
  | None =>
      (self, {| commit_success := false;
                commit_message := "Transaction not prepared" |})
  | Some tx_info =>
      if negb (p_ready tx_info) then
        (self, {| commit_success := false;
                  commit_message := p_message tx_info |})
      else
        let dt := p_details tx_info in
        let acc := d_account_id dt in
        let username := d_username dt in
        let transaction_type := d_type dt in
        let amt := d_amount dt in
        let counterparty := d_counterparty dt in
        let updated : option (list (string * user_data)) :=
          if String.eqb transaction_type "debit" then
            match users_get (users self) username with
            | Some _ => Some (users_adjust (users self) username (fun b => b - amt)%Q)
            | None => None
            end
          else if String.eqb transaction_type "credit" then
            match users_get (users self) username with
            | Some _ => Some (users_adjust (users self) username (fun b => b + amt)%Q)
            | None => None
            end
          else Some (users self) in
        match updated with
        | None =>
            (self, {| commit_success := false;
                      commit_message :=
                        "Error committing transaction: '" ++ username ++ "'" |})
        | Some us =>
            let s1 := set_users self us in
            let s2 := record_transaction s1 e acc transaction_type amt
                        counterparty (Some transaction_id) in
            let s3 := set_prepared s2
                        (delete transaction_id (prepared_transactions s2)) in
            (s3, {| commit_success := true;
                    commit_message := "Transaction committed successfully" |})
        end
  end.

(** Phase 2 of 2PC: abort. *)
Definition AbortTransaction (self : state)
    (request : AbortTransactionRequest)
  : state * AbortTransactionResponse :=
  let transaction_id := abort_transaction_id request in
  match prepared_transactions self !! transaction_id with
  | None =>
      (self, {| abort_success := true;
                abort_message := "Transaction not found, considered aborted" |})
  | Some _ =>
      (set_prepared self (delete transaction_id (prepared_transactions self)),
       {| abort_success := true;
          abort_message := "Transaction aborted successfully" |})
  end.

End Bank.

(** ** The gateway ([gateway.py]) *)

Module Gateway.
Import Proto Grpc.

Definition BANK_SERVERS : list (string * string) :=
  [("Bank1", "localhost:50052"); ("Bank2", "localhost:50053")].

Definition TPC_TIMEOUT_SECONDS : Q := 10.

(** An entry of [active_tokens]. *)
Record token_info := {
  username : string; bank : string; account : string; expires : Q }.

(** The two module-level tables. *)
Record state := {
  active_tokens : gmap string token_info;
  PROCESSED_KEYS : gmap string PaymentResponse
}.

Definition set_PROCESSED_KEYS (s : state) (k : gmap string PaymentResponse) : state :=
  {| active_tokens := active_tokens s; PROCESSED_KEYS := k |}.

(** [bank in self.bank_stubs]: the constructor creates one entry per
    bank of [BANK_SERVERS] (the entry is [None] when the channel could
    not be created). *)
Definition in_bank_stubs (bank : string) : bool :=
  existsb (String.eqb bank) (map fst BANK_SERVERS).

(** *** The interface of the gateway to its surroundings *)

(** A method of a bank stub, with its request and its [timeout]. *)
Inductive call : Type :=
| GetBalance (request : BankBalanceRequest)
| PrepareTransaction (request : PrepareTransactionRequest) (timeout : Q)
| CommitTransaction (request : CommitTransactionRequest) (timeout : Q)
| AbortTransaction (request : AbortTransactionRequest) (timeout : Q).

Definition reply (c : call) : Type :=
  match c with
  | GetBalance _ => BankBalanceResponse
  | PrepareTransaction _ _ => PrepareTransactionResponse
  | CommitTransaction _ _ => CommitTransactionResponse
  | AbortTransaction _ _ => AbortTransactionResponse
  end.

Inductive op : Type :=
| Time                               (* time.time() *)
| Uuid4                              (* str(uuid.uuid4()) *)
| Stub (bank : string) (c : call).   (* self.bank_stubs[bank].c *)

Definition answer (o : op) : Type :=
  match o with
  | Time => Q
  | Uuid4 => string
  | Stub _ c => result (reply c)
  end.

(** A gateway method is a finite tree: it returns, or performs an
    operation and goes on with the answer. *)
Inductive prog (A : Type) : Type :=
| Ret (a : A)
| Vis (o : op) (k : answer o → prog A).
Arguments Ret {A} _.
Arguments Vis {A} _ _.

Fixpoint bind {A B} (p : prog A) (f : A → prog B) : prog B :=
  match p with
  | Ret a => f a
  | Vis o k => Vis o (fun x => bind (k x) f)
  end.

#[export] Instance prog_ret : MRet prog := @Ret.
#[export] Instance prog_bind : MBind prog := fun A B f p => bind p f.

Definition perform (o : op) : prog (answer o) := Vis o Ret.

Definition time : prog Q := perform Time.
Definition uuid4 : prog string := perform Uuid4.

(** [self.bank_stubs[bank].c]: a [KeyError] when the table has no such
    bank, otherwise whatever the call through the stub gives. *)
Definition call_stub (bank : string) (c : call) : prog (result (reply c)) :=
  if in_bank_stubs bank then perform (Stub bank c)
  else Ret (Raised ("'" ++ bank ++ "'")).

(** *** Runs of a program *)

Definition event : Type := { o : op & answer o }.

(** [exec p tr a]: [p] can perform the operations of [tr], receive the
    answers recorded there, and return [a]. *)
Inductive exec {A} : prog A → list event → A → Prop :=
| exec_Ret a : exec (Ret a) [] a
| exec_Vis o k x tr a :
    exec (k x) tr a → exec (Vis o k) (existT o x :: tr) a.

(** Surroundings with a state of their own answer every operation. *)
Definition handler (W : Type) : Type := ∀ o : op, W → W * answer o.

Fixpoint run {W A} (h : handler W) (p : prog A) (w : W)
  : A * list event * W :=
  match p with
  | Ret a => (a, [], w)
  | Vis o k =>
      let (w1, x) := h o w in
      let '(a, tr, w2) := run h (k x) w1 in
      (a, existT o x :: tr, w2)
  end.

(** [always P p acc]: on every run of [p] that continues the trace
    [acc], [P] holds of the whole trace and the returned value. *)
Fixpoint always {A} (P : list event → A → Prop) (p : prog A)
    (acc : list event) : Prop :=
  match p with
  | Ret a => P acc a
  | Vis o k => ∀ x : answer o, always P (k x) (acc ++ [existT o x])
  end.

(** *** Events of interest *)

Definition is_stub (e : event) : bool :=
  match projT1 e with Stub _ _ => true | _ => false end.

Definition is_abort (e : event) : bool :=
  match projT1 e with Stub _ (AbortTransaction _ _) => true | _ => false end.

(** A stub call that can change a bank: everything but [GetBalance]. *)
Definition is_mutating (e : event) : bool :=
  match projT1 e with
  | Stub _ (GetBalance _) => false
  | Stub _ _ => true
  | _ => false
  end.

(** The bank acknowledged a [CommitTransaction] with [success]. *)
Definition commit_acked (e : event) : bool :=
  match e with
  | existT o x =>
      match o return answer o → bool with
      | Stub _ (CommitTransaction _ _) =>
          fun r => match r with Reply resp => commit_success resp | _ => false end
      | _ => fun _ => false
      end x
  end.

(** The transaction id a [Prepare], [Commit] or [Abort] call carries. *)
Definition tx_id_of (e : event) : option string :=
  match projT1 e with
  | Stub _ (PrepareTransaction r _) => Some (prep_transaction_id r)
  | Stub _ (CommitTransaction r _) => Some (commit_transaction_id r)
  | Stub _ (AbortTransaction r _) => Some (abort_transaction_id r)
  | _ => None
  end.

Definition bank_of (e : event) : option string :=
  match projT1 e with Stub b _ => Some b | _ => None end.

(** The call ended in an exception that is not an [RpcError]. *)
Definition raised (e : event) : bool :=
  match e with
  | existT o x =>
      match o return answer o → bool with
      | Stub _ _ => fun r => match r with Raised _ => true | _ => false end
      | _ => fun _ => false
      end x
  end.

(** [self.bank_stubs] is filled once, by the constructor: the entry of a
    bank is a stub or [None] for as long as the gateway lives.  A call
    through an entry that is [None] raises [AttributeError], and then
    every call to that bank does.  On a trace with [stubs_fixed] no bank
    has both answered a call and raised on another.  A stub that exists
    can still raise something other than an [RpcError], a [ValueError]
    once its channel is closed: such a run is not [stubs_fixed]. *)
Definition stubs_fixed (tr : list event) : Prop :=
  ∀ e1 e2, e1 ∈ tr → e2 ∈ tr → is_stub e1 = true →
           bank_of e1 = bank_of e2 → raised e1 = raised e2.

(** The first acknowledged commit of a trace, if any, and what follows
    it. *)
Fixpoint first_commit_ack (tr : list event) : option (event * list event) :=
  match tr with
  | [] => None
  | e :: rest =>
      if commit_acked e then Some (e, rest) else first_commit_ack rest
  end.

(** *** The token check ([AuthInterceptor.intercept_service]) *)

Definition auth_required_methods : list string :=
  [ "/payment.PaymentGateway/CheckBalance";
    "/payment.PaymentGateway/ProcessPayment";
    "/payment.PaymentGateway/GetTransactionHistory" ].

Inductive interception : Type :=
| Continue           (* continuation(handler_call_details) *)
| Unauthenticated.   (* self._unauthenticated_rpc() *)

Definition intercept_service (tokens : gmap string token_info)
    (method : string) (invocation_metadata : list (string * string))
  : prog interception :=
  if String.eqb method "/payment.PaymentGateway/Authenticate" then
    Ret Continue
  else if existsb (String.eqb method) auth_required_methods then
    match Py.dict_get invocation_metadata "token" with
    | None => Ret Unauthenticated
    | Some token =>
        match tokens !! token with
        | None => Ret Unauthenticated
        | Some info =>
            now ← time;
            if Py.lt (expires info) now then Ret Unauthenticated
            else Ret Continue
        end
    end
  else Ret Continue.

(** *** The coordinator ([_process_payment_2pc]) *)

Definition response (ok : bool) (tx_id stat msg : string) : PaymentResponse :=
  {| success := ok; transaction_id := tx_id; status := stat; message := msg |}.

(** [try: self.bank_stubs[bank].AbortTransaction(request, timeout=2)
    except Exception: log]. *)
Definition try_abort (bank tx_id : string) : prog unit :=
  _ ← call_stub bank (AbortTransaction {| abort_transaction_id := tx_id |} 2);
  Ret tt.

(** The outer [except Exception as e] of [_process_payment_2pc]
    (lines 996-1026): both aborts sit in one [try], so an exception in
    the first skips the second. *)
Definition unexpected (sender_bank receiver_bank sender_tx_id receiver_tx_id
    global_transaction_id what : string) : prog PaymentResponse :=
  let failure :=
    response false global_transaction_id "failed"
      ("Payment failed due to unexpected error: " ++ what) in
  r ← call_stub sender_bank
        (AbortTransaction {| abort_transaction_id := sender_tx_id |} 2);
  match r with
  | Reply _ =>
      _ ← call_stub receiver_bank
            (AbortTransaction {| abort_transaction_id := receiver_tx_id |} 2);
      Ret failure
  | _ => Ret failure
  end.

Section two_phase_commit.
Variables (payment_id sender_bank sender_account
           receiver_bank receiver_account : string) (amount : Q).
Variable global_transaction_id : string.

Definition sender_tx_id : string :=
  global_transaction_id ++ "-sender-" ++ payment_id.
Definition receiver_tx_id : string :=
  global_transaction_id ++ "-receiver-" ++ payment_id.

Definition sender_prepare_request : PrepareTransactionRequest :=
  {| prep_transaction_id := sender_tx_id;
     prep_account_id := sender_account;
     prep_type := "debit";
     prep_amount := amount;
     prep_counterparty := receiver_bank ++ "/" ++ receiver_account |}.

Definition receiver_prepare_request : PrepareTransactionRequest :=
  {| prep_transaction_id := receiver_tx_id;
     prep_account_id := receiver_account;
     prep_type := "credit";
     prep_amount := amount;
     prep_counterparty := sender_bank ++ "/" ++ sender_account |}.

Definition failed (msg : string) : PaymentResponse :=
  response false global_transaction_id "failed" msg.
Definition critical (msg : string) : PaymentResponse :=
  response false global_transaction_id "error" msg.
Definition on_exception (what : string) : prog PaymentResponse :=
  unexpected sender_bank receiver_bank sender_tx_id receiver_tx_id
    global_transaction_id what.

(** Lines 941-994: commit the receiver; nothing is aborted here. *)
Definition commit_receiver (start_time deadline : Q) : prog PaymentResponse :=
  now ← time;
  r ← call_stub receiver_bank
        (CommitTransaction {| commit_transaction_id := receiver_tx_id |}
           (Py.max0 (deadline - now)));
  match r with
  | Reply commit_receiver_response =>
      if negb (commit_success commit_receiver_response) then
        Ret (critical
               ("CRITICAL ERROR: Sender debited but receiver credit failed: "
                ++ commit_message commit_receiver_response))
      else
        total_time ← time;
        Ret (response true global_transaction_id "completed"
               "Payment processed successfully")
  | RpcError c _ =>
      if is_deadline_exceeded c then
        Ret (critical "CRITICAL ERROR: Transaction timed out during commit phase (receiver). Sender was debited but receiver may not be credited.")
      else
        Ret (critical
               ("CRITICAL ERROR: Error committing to receiver bank: "
                ++ code_name c
                ++ ". Sender was debited but receiver may not be credited."))
  | Raised what => on_exception what
  end.

(** Lines 829-939: PHASE 2, commit the sender, then check the clock. *)
Definition commit_phase (start_time : Q) : prog PaymentResponse :=
  t ← time;
  let deadline := (t + TPC_TIMEOUT_SECONDS)%Q in
  now ← time;
  r ← call_stub sender_bank
        (CommitTransaction {| commit_transaction_id := sender_tx_id |}
           (Py.max0 (deadline - now)));
  match r with
  | Reply commit_sender_response =>
      if negb (commit_success commit_sender_response) then
        _ ← try_abort receiver_bank receiver_tx_id;
        Ret (failed ("Transaction failed during commit phase: "
                     ++ commit_message commit_sender_response))
      else
        now ← time;
        if Py.lt (deadline - 1) now then
          Ret (critical "CRITICAL ERROR: Transaction timed out after sender committed. System may be in inconsistent state.")
        else commit_receiver start_time deadline
  | RpcError c _ =>
      if is_deadline_exceeded c then
        _ ← try_abort receiver_bank receiver_tx_id;
        _ ← try_abort sender_bank sender_tx_id;
        Ret (failed "Transaction timed out during commit phase (sender)")
      else
        _ ← try_abort receiver_bank receiver_tx_id;
        Ret (failed ("Error committing to sender bank: " ++ code_name c))
  | Raised what => on_exception what
  end.

(** Lines 720-827: prepare the receiver, then check the clock. *)
Definition prepare_receiver (start_time deadline : Q) : prog PaymentResponse :=
  now ← time;
  r ← call_stub receiver_bank
        (PrepareTransaction receiver_prepare_request
           (Py.max0 (deadline - now)));
  match r with
  | Reply receiver_prepare_response =>
      if negb (ready receiver_prepare_response) then
        _ ← try_abort sender_bank sender_tx_id;
        Ret (failed ("Receiver bank cannot process: "
                     ++ prep_message receiver_prepare_response))
      else
        now ← time;
        if Py.lt (deadline - 1) now then
          _ ← try_abort sender_bank sender_tx_id;
          _ ← try_abort receiver_bank receiver_tx_id;
          Ret (failed "Transaction timed out before commit phase")
        else commit_phase start_time
  | RpcError c _ =>
      if is_deadline_exceeded c then
        _ ← try_abort sender_bank sender_tx_id;
        Ret (failed "Transaction timed out during preparation (receiver)")
      else
        _ ← try_abort sender_bank sender_tx_id;
        Ret (failed ("Error communicating with receiver bank: "
                     ++ code_name c))
  | Raised what => on_exception what
  end.

(** Lines 636-718: PHASE 1, prepare the sender, then check the clock. *)
Definition prepare_phase : prog PaymentResponse :=
  start_time ← time;
  t ← time;
  let deadline := (t + TPC_TIMEOUT_SECONDS)%Q in
  now ← time;
  r ← call_stub sender_bank
        (PrepareTransaction sender_prepare_request
           (Py.max0 (deadline - now)));
  match r with
  | Reply sender_prepare_response =>
      if negb (ready sender_prepare_response) then
        Ret (failed ("Sender bank cannot process: "
                     ++ prep_message sender_prepare_response))
      else
        now ← time;
        if Py.lt (deadline - 1) now then
          _ ← try_abort sender_bank sender_tx_id;
          Ret (failed "Transaction timed out during preparation phase")
        else prepare_receiver start_time deadline
  | RpcError c _ =>
      if is_deadline_exceeded c then
        Ret (failed "Transaction timed out during preparation (sender)")
      else
        Ret (failed ("Error communicating with sender bank: "
                     ++ code_name c))
  | Raised what => on_exception what
  end.

(** Lines 604-634: the self-transfer short cut and the bank checks. *)
Definition after_minting : prog PaymentResponse :=
  if String.eqb sender_bank receiver_bank
     && String.eqb sender_account receiver_account then
    Ret (response true global_transaction_id "completed"
           "Self-transfer processed successfully (no balance change)")
  else if negb (in_bank_stubs sender_bank) then
    Ret (response false "" "failed"
           ("Sender bank " ++ sender_bank ++ " not found"))
  else if negb (in_bank_stubs receiver_bank) then
    Ret (response false "" "failed"
           ("Receiver bank " ++ receiver_bank ++ " not found"))
  else prepare_phase.

End two_phase_commit.

Definition _process_payment_2pc (payment_id sender_bank sender_account
    receiver_bank receiver_account : string) (amount : Q)
  : prog PaymentResponse :=
  global_transaction_id ← uuid4;
  after_minting payment_id sender_bank sender_account
    receiver_bank receiver_account amount global_transaction_id.

(** *** The idempotency layer ([ProcessPayment]) *)

(** Lines 589-595: the body builds a list and ends; the call evaluates
    to Python's [None]. *)
Definition _is_retriable_error (response : PaymentResponse) : option bool :=
  let retriable_error :=
    [ "Bank communication error"; "Connection Failed"; "Timeout";
      "Server unavailable" ] in
  None.

(** What a servicer method does: it returns a message, with the status
    it set, or an exception leaves it. *)
Inductive handled (A : Type) : Type :=
| Returned (s : served A)
| Crashed (what : string).
Arguments Returned {A} _.
Arguments Crashed {A} _.

(** [if payment_id: PROCESSED_KEYS[payment_id] = response] *)
Definition cache (self : state) (payment_id : string)
    (r : PaymentResponse) : state :=
  if Py.truthy payment_id
  then set_PROCESSED_KEYS self (<[payment_id := r]> (PROCESSED_KEYS self))
  else self.

(** Lines 500-587: a fresh attempt. *)
Definition attempt (self : state) (request : PaymentRequest)
    (sender_bank sender_account : string)
  : prog (state * handled PaymentResponse) :=
  let payment_id := Proto.payment_id request in
  let receiver_bank := Proto.receiver_bank request in
  let receiver_account := Proto.receiver_account request in
  let amount := Proto.amount request in
  if negb (in_bank_stubs receiver_bank) then
    let r := response false "" "failed"
               ("Receiver bank " ++ receiver_bank ++ " not found") in
    Ret (cache self payment_id r, Returned (ok r))
  else
    b ← call_stub sender_bank (GetBalance {| bb_account_id := sender_account |});
    match b with
    | Reply balance_response =>
        if negb (bb_success balance_response) then
          let r := response false "" "failed"
                     ("Could not verify balance: "
                      ++ bb_message balance_response) in
          Ret (cache self payment_id r, Returned (ok r))
        else if Py.lt (bb_balance balance_response) amount then
          let r := response false "" "failed"
                     ("Authorization failed: Insufficient funds. Available: "
                      ++ Py.str_float (bb_balance balance_response)
                      ++ ", Required: " ++ Py.str_float amount) in
          Ret (cache self payment_id r,
               Returned (Served r PERMISSION_DENIED "Insufficient funds"))
        else
          payment_response ←
            _process_payment_2pc payment_id sender_bank sender_account
              receiver_bank receiver_account amount;
          let self' :=
            if Py.truthy payment_id then
              if success payment_response
                 || negb (Py.truthy_opt (_is_retriable_error payment_response))
              then set_PROCESSED_KEYS self
                     (<[payment_id := payment_response]> (PROCESSED_KEYS self))
              else self
            else self in
          Ret (self', Returned (ok payment_response))
    | RpcError c d =>
        let r := response false "" "failed" ("Payment failed: " ++ d) in
        Ret (cache self payment_id r,
             Returned (Served r c ("Bank communication error: " ++ d)))
    | Raised what => Ret (self, Crashed what)
    end.

(** Lines 459-498, then [attempt]. *)
Definition ProcessPayment (self : state) (request : PaymentRequest)
  : prog (state * handled PaymentResponse) :=
  let token := Proto.token request in
  match active_tokens self !! token with
  | None =>
      Ret (self,
           Returned (Served
             (response false "" "failed" "Authentication failed: Invalid token")
             UNAUTHENTICATED "Invalid authentication token"))
  | Some sender_info =>
      let sender_bank := bank sender_info in
      let sender_account := account sender_info in
      if negb (String.eqb (Proto.sender_account request) "self")
         && negb (String.eqb (Proto.sender_account request) sender_account)
      then
        Ret (self,
             Returned (Served
               (response false "" "failed"
                  "Authorization failed: Not your account")
               PERMISSION_DENIED
               ("You are not authorized to initiate payments from account "
                ++ Proto.sender_account request)))
      else
        let payment_id := Proto.payment_id request in
        match (if Py.truthy payment_id
               then PROCESSED_KEYS self !! payment_id else None) with
        | Some cached_response =>
            if success cached_response
               || negb (Py.truthy_opt (_is_retriable_error cached_response))
            then Ret (self, Returned (ok cached_response))
            else attempt self request sender_bank sender_account
        | None => attempt self request sender_bank sender_account
        end
  end.

(** *** The served method, as a client of the gateway sees it *)

Definition observe {A} (h : handled A) : remote A :=
  match h with
  | Returned s => deliver s
  | Crashed what => Failed UNKNOWN ("Exception calling application: " ++ what)
  end.

(** The interceptor runs first; when it refuses, the method does not
    run. *)
Definition serve_ProcessPayment (self : state)
    (invocation_metadata : list (string * string)) (request : PaymentRequest)
  : prog (state * remote PaymentResponse) :=
  i ← intercept_service (active_tokens self)
        "/payment.PaymentGateway/ProcessPayment" invocation_metadata;
  match i with
  | Unauthenticated =>
      Ret (self, Failed UNAUTHENTICATED
                   "Invalid or missing authentication token")
  | Continue =>
      '(self', h) ← ProcessPayment self request;
      Ret (self', observe h)
  end.

(** *** Successive calls *)

(** [ProcessPayment] served for one request after another.  Each request
    finds the token table that [Authenticate] and the hourly clean-up left
    in the meantime, and the idempotency cache that the requests before it
    left. *)
Fixpoint serve_all {W} (h : handler W) (keys : gmap string PaymentResponse)
    (w : W) (calls : list (gmap string token_info * PaymentRequest))
  : list (handled PaymentResponse) :=
  match calls with
  | [] => []
  | (tokens, request) :: rest =>
      let '((g', out), _, w') :=
        run h (ProcessPayment
                 {| active_tokens := tokens; PROCESSED_KEYS := keys |} request)
          w in
      out :: serve_all h (PROCESSED_KEYS g') w' rest
  end.

(** *** Vocabulary of the properties *)

(** [success] and [status] of a response agree. *)
Definition coherent (r : PaymentResponse) : Prop :=
  (success r = true ↔ status r = "completed")
  ∧ (status r = "failed" ∨ status r = "error" → success r = false).

Definition coherent_outcome (out : handled PaymentResponse) : Prop :=
  match out with
  | Returned s => coherent (value s)
  | Crashed _ => True
  end.

Definition cache_coherent (g : state) : Prop :=
  map_Forall (fun _ r => coherent r) (PROCESSED_KEYS g).

(** The transaction ids of one attempt: every call that carries a
    transaction id carries the sender's id to the sender's bank or the
    receiver's id to the receiver's bank. *)
Definition carries_ids_of (payment_id sender_bank receiver_bank g : string)
    (e : event) : Prop :=
  match tx_id_of e with
  | None => True
  | Some t =>
      (bank_of e = Some sender_bank ∧ t = sender_tx_id payment_id g)
      ∨ (bank_of e = Some receiver_bank ∧ t = receiver_tx_id payment_id g)
  end.

(** The lookup that opens [ProcessPayment]'s idempotency check. *)
Definition cached (self : state) (payment_id : string) : option PaymentResponse :=
  if Py.truthy payment_id then PROCESSED_KEYS self !! payment_id else None.

End Gateway.

(** ** The client ([client.py], class [PaymentClient]) *)

Module Client.
Import Proto Grpc.

(** What a pending-payment file holds. *)
Record transaction := {
  t_receiver_account : string; t_receiver_bank : string;
  t_amount : Q; t_timestamp : Q }.

(** A file of the pending directory: a record written by
    [_add_to_pending_transactions], or something [json.load] rejects. *)
Inductive file : Type :=
| Json (t : transaction)
| Garbled.

(** [pending_dir] maps the file names of [self.pending_dir] to their
    contents. *)
Record state := {
  is_connected : bool;
  token : option string;
  pending_dir : gmap string file
}.

Definition set_pending_dir (s : state) (d : gmap string file) : state :=
  {| is_connected := is_connected s; token := token s; pending_dir := d |}.

(** What the client does to the queue and the gateway, in order. *)
Inductive action : Type :=
| Wrote (file_name : string)
| Sent (payment_id : string) (succeeded : bool)
| Removed (file_name : string).

(** [not self.token] *)
Definition no_token (s : state) : bool :=
  match token s with Some t => negb (Py.truthy t) | None => true end.

Definition token_string (s : state) : string := default "" (token s).

(** [s.endswith(suffix)] *)
Definition endswith (s suffix : string) : bool :=
  let n := String.length s in
  let m := String.length suffix in
  (m <=? n)%nat && String.eqb (substring (n - m) m s) suffix.

(** [s[:-k]] for a string at least [k] long. *)
Definition drop_last (k : nat) (s : string) : string :=
  substring 0 (String.length s - k) s.

Definition file_name_of (idempotency_key : string) : string :=
  idempotency_key ++ ".json".

(** A key that names a file of the directory: [f"{self.pending_dir}/{key}.json"]
    is the file [key.json] of the pending directory when the key has no path
    separator and no NUL, and is short enough for a file name (255 bytes
    with the extension).  With any other key the [open] raises or reaches a
    file elsewhere; such keys are outside the model, and the properties
    of a record written under a key assume [plain]. *)
Fixpoint no_separator (s : string) : bool :=
  match s with
  | EmptyString => true
  | String c rest =>
      negb (Ascii.eqb c (Ascii.ascii_of_nat 47))   (* the separator, [/] *)
      && negb (Ascii.eqb c Ascii.zero)
      && no_separator rest
  end.

Definition plain (idempotency_key : string) : bool :=
  no_separator idempotency_key
  && (String.length idempotency_key + 5 <=? 255)%nat.

Definition str_nat (n : nat) : string :=
  NilZero.string_of_uint (Nat.to_uint n).

(** [os.makedirs(self.pending_dir, exist_ok=True)], then the record is
    written to [f"{self.pending_dir}/{idempotency_key}.json"]: for a
    [plain] key, the file of that name in the directory. *)
Definition _add_to_pending_transactions (self : state)
    (idempotency_key : string) (t : transaction) : state :=
  set_pending_dir self
    (<[file_name_of idempotency_key := Json t]> (pending_dir self)).

(** [if os.path.exists(file_path): os.remove(file_path)] *)
Definition _remove_from_pending_transactions (self : state)
    (idempotency_key : string) : state :=
  set_pending_dir self
    (delete (file_name_of idempotency_key) (pending_dir self)).

Section with_gateway.
(** The gateway behind [self.stub], with whatever state it keeps. *)
Variable G : Type.
Variable stub_ProcessPayment :
  G → list (string * string) → PaymentRequest → G * remote PaymentResponse.

Definition _send_payment (self : state) (g : G)
    (payment_id receiver_account receiver_bank : string) (amount : Q)
  : G * (bool * string) :=
  let request := {|
    Proto.token := token_string self;
    sender_account := "self";
    receiver_account := receiver_account;
    receiver_bank := receiver_bank;
    amount := amount;
    payment_id := payment_id |} in
  let metadata := [("token", token_string self)] in
  match stub_ProcessPayment g metadata request with
  | (g', Answered response) =>
      if success response then (g', (true, message response))
      else (g', (false, message response))
  | (g', Failed c _) =>
      (g', (false, "RPC error during payment: " ++ code_name c))
  end.

(** [make_payment]; [fresh] and [now] are what [uuid.uuid4()] and
    [time.time()] give.  The last component of the result is the
    payment id, absent from the early return. *)
Definition make_payment (self : state) (g : G)
    (receiver_account receiver_bank : string) (amount : Q)
    (use_fixed_id : bool) (fixed_id : option string)
    (fresh : string) (now : Q)
  : state * G * list action * (bool * string * option string) :=
  if negb (is_connected self) || no_token self then
    (self, g, [], (false, "Not connected or not authenticated", None))
  else
    let payment_id :=
      match fixed_id with
      | Some f => if use_fixed_id && Py.truthy f then f else fresh
      | None => fresh
      end in
    let s1 := _add_to_pending_transactions self payment_id
                {| t_receiver_account := receiver_account;
                   t_receiver_bank := receiver_bank;
                   t_amount := amount; t_timestamp := now |} in
    let '(g', (ok, msg)) :=
      _send_payment s1 g payment_id receiver_account receiver_bank amount in
    let log := [Wrote (file_name_of payment_id); Sent payment_id ok] in
    if ok then
      (_remove_from_pending_transactions s1 payment_id, g',
       (log ++ [Removed (file_name_of payment_id)])%list,
       (ok, msg, Some payment_id))
    else if Py.contains "UNAVAILABLE" msg then
      (s1, g', log,
       (false, "Payment server is currently unavailable. Will try later",
        Some payment_id))
    else (s1, g', log, (false, msg, Some payment_id)).

(** The loop variables of [retry_pending_transactions]. *)
Record retry_loop := {
  r_self : state; r_gateway : G; r_log : list action;
  r_success : bool; r_retried_count : nat; r_success_count : nat }.

(** One iteration of the [for file_name in pending_files] loop. *)
Definition retry_one (l : retry_loop) (entry : string * file) : retry_loop :=
  let (file_name, content) := entry in
  if negb (endswith file_name ".json") then l
  else
    let idempotency_key := drop_last 5 file_name in
    match content with
    | Garbled => l
    | Json t =>
        let '(g', (retry_success, _)) :=
          _send_payment (r_self l) (r_gateway l) idempotency_key
            (t_receiver_account t) (t_receiver_bank t) (t_amount t) in
        if retry_success then
          {| r_self := _remove_from_pending_transactions (r_self l) idempotency_key;
             r_gateway := g';
             r_log := (r_log l ++ [Sent idempotency_key true;
                                   Removed (file_name_of idempotency_key)])%list;
             r_success := r_success l;
             r_retried_count := S (r_retried_count l);
             r_success_count := S (r_success_count l) |}
        else
          {| r_self := r_self l;
             r_gateway := g';
             r_log := (r_log l ++ [Sent idempotency_key false])%list;
             r_success := false;
             r_retried_count := S (r_retried_count l);
             r_success_count := r_success_count l |}
    end.

(** [retry_pending_transactions].  The files are visited in the order
    of the directory listing, each with the content it had when the
    loop started: the loop itself only ever removes the file it is
    visiting. *)
Definition retry_pending_transactions (self : state) (g : G)
  : state * G * list action * (bool * string) :=
  if negb (is_connected self) || no_token self then
    (self, g, [], (false, "Not connected or not authenticated"))
  else
    let pending_files := map_to_list (pending_dir self) in
    let l := fold_left retry_one pending_files
               {| r_self := self; r_gateway := g; r_log := [];
                  r_success := true; r_retried_count := 0;
                  r_success_count := 0 |} in
    (r_self l, r_gateway l, r_log l,
     (r_success l,
      "Retried " ++ str_nat (r_retried_count l) ++ " transactions, "
      ++ str_nat (r_success_count l) ++ " succeeded")).

End with_gateway.

(** *** Vocabulary of the properties *)

(** The log removes the file [name]. *)
Definition removed_in (log : list action) (name : string) : bool :=
  existsb (fun a => match a with
                    | Removed n => String.eqb n name
                    | _ => false
                    end) log.

(** Sends and removals go together: a file is removed right after a send
    of its payment id that succeeded, and never otherwise. *)
Inductive paired : list action → Prop :=
| paired_nil : paired []
| paired_success key log :
    paired log →
    paired (Sent key true :: Removed (file_name_of key) :: log)
| paired_failure key log :
    paired log → paired (Sent key false :: log).

End Client.

(** ** Banks, a network and a clock around the gateway *)

Module World.
Import Proto Grpc.

(** What happens to one call through a bank stub. *)
Inductive fate : Type :=
| Delivered                     (* request and reply both arrive *)
| Dropped (c : StatusCode)      (* the request never reaches the bank *)
| ReplyLost (c : StatusCode).   (* the bank runs the method, the reply is lost *)

(** The banks behind the stubs, the banks whose entry in [bank_stubs] is
    [None], and scripts for everything the gateway cannot control:
    successive readings of the clock, successive uuids and the fate of
    successive calls.  A script that runs out repeats its last reading, or
    delivers. *)
Record world := {
  banks : gmap string Bank.state;
  no_stub : list string;
  bank_env : Bank.env;
  clock : list Q;
  uuids : list string;
  net : list fate
}.

Definition next {A} (d : A) (l : list A) : A * list A :=
  match l with
  | [] => (d, [])
  | [x] => (x, [x])
  | x :: rest => (x, rest)
  end.

Definition next_fate (l : list fate) : fate * list fate :=
  match l with
  | [] => (Delivered, [])
  | f :: rest => (f, rest)
  end.

(** The servicer method behind a stub method. *)
Definition serve (s : Bank.state) (e : Bank.env) (c : Gateway.call)
  : Bank.state * served (Gateway.reply c) :=
  match c as c' return Bank.state * served (Gateway.reply c') with
  | Gateway.GetBalance r => (s, Bank.GetBalance s r)
  | Gateway.PrepareTransaction r _ =>
      let (s', x) := Bank.PrepareTransaction s e r in (s', ok x)
  | Gateway.CommitTransaction r _ =>
      let (s', x) := Bank.CommitTransaction s e r in (s', ok x)
  | Gateway.AbortTransaction r _ =>
      let (s', x) := Bank.AbortTransaction s r in (s', ok x)
  end.

Definition call_bank (w : world) (b : string) (c : Gateway.call)
  : world * result (Gateway.reply c) :=
  let (f, rest) := next_fate (net w) in
  let w0 := {| banks := banks w; no_stub := no_stub w; bank_env := bank_env w; clock := clock w;
               uuids := uuids w; net := rest |} in
  if existsb (String.eqb b) (no_stub w) then
    (w, Raised "'NoneType' object has no attribute")
  else
    match f with
    | Dropped code => (w0, RpcError code "")
    | Delivered | ReplyLost _ =>
        match banks w !! b with
        | None => (w0, RpcError UNAVAILABLE "failed to connect to all addresses")
        | Some s =>
            let (s', r) := serve s (bank_env w) c in
            let w1 := {| banks := <[b := s']> (banks w); no_stub := no_stub w;
                         bank_env := bank_env w; clock := clock w;
                         uuids := uuids w; net := rest |} in
            match f with
            | ReplyLost code => (w1, RpcError code "")
            | _ => (w1, of_remote (deliver r))
            end
        end
    end.

Definition handle : Gateway.handler world :=
  fun o =>
    match o as o' return world → world * Gateway.answer o' with
    | Gateway.Time => fun w =>
        let (t, rest) := next 0%Q (clock w) in
        ({| banks := banks w; no_stub := no_stub w; bank_env := bank_env w; clock := rest;
            uuids := uuids w; net := net w |}, t)
    | Gateway.Uuid4 => fun w =>
        let (u, rest) := next "uuid" (uuids w) in
        ({| banks := banks w; no_stub := no_stub w; bank_env := bank_env w; clock := clock w;
            uuids := rest; net := net w |}, u)
    | Gateway.Stub b c => fun w => call_bank w b c
    end.

(** The gateway as the client reaches it through [self.stub]. *)
Definition stub_ProcessPayment (gw : Gateway.state * world)
    (invocation_metadata : list (string * string)) (request : PaymentRequest)
  : (Gateway.state * world) * remote PaymentResponse :=
  let '((g', r), _, w') :=
    Gateway.run handle
      (Gateway.serve_ProcessPayment (fst gw) invocation_metadata request)
      (snd gw) in
  ((g', w'), r).

(** *** The sample data of [_load_user_credentials] and
    [_load_transactions] *)

Definition sample_user (i : Z) : string * Bank.user_data :=
  let n := NilZero.string_of_int (Z.to_int i) in
  ("user" ++ n,
   {| Bank.password := "pass" ++ n;
      Bank.account_id := "ACC00" ++ n;
      Bank.name := "User " ++ n;
      Bank.balance := (1000 * inject_Z i)%Q |}).

Definition sample_env : Bank.env :=
  {| Bank.time := 1000; Bank.strftime := "2024-01-01 00:00:00";
     Bank.uuid4 := "bank-uuid" |}.

Definition initial_deposit (u : string * Bank.user_data)
  : string * list Bank.ledger_entry :=
  (Bank.account_id (snd u),
   [ {| Bank.le_transaction_id := Bank.uuid4 sample_env;
        Bank.le_type := "credit";
        Bank.le_amount := Bank.balance (snd u);
        Bank.le_counterparty := "Bank";
        Bank.le_timestamp := Bank.strftime sample_env;
        Bank.le_status := "completed" |} ]).

Definition sample_bank (name : string) : Bank.state :=
  {| Bank.bank_name := name;
     Bank.users := map sample_user [1; 2; 3; 4; 5]%Z;
     Bank.transactions :=
       list_to_map (map initial_deposit (map sample_user [1; 2; 3; 4; 5]%Z));
     Bank.processed_transactions := ∅;
     Bank.prepared_transactions := ∅ |}.

Definition sample_world : world :=
  {| banks := <["Bank1" := sample_bank "Bank1"]>
                (<["Bank2" := sample_bank "Bank2"]> ∅);
     no_stub := [];
     bank_env := sample_env;
     clock := [1000%Q];
     uuids := ["g"];
     net := [] |}.

Definition with_net (w : world) (n : list fate) : world :=
  {| banks := banks w; no_stub := no_stub w; bank_env := bank_env w; clock := clock w;
     uuids := uuids w; net := n |}.

Definition with_uuids (w : world) (u : list string) : world :=
  {| banks := banks w; no_stub := no_stub w; bank_env := bank_env w; clock := clock w;
     uuids := u; net := net w |}.

Definition balance_at (w : world) (bank acc : string) : option Q :=
  match banks w !! bank with
  | Some s => Bank.balance_of s acc
  | None => None
  end.

End World.

(** ** Concrete inputs used by the examples below *)

Module Scenario.
Import Proto Grpc.

Definition env0 : Bank.env := World.sample_env.
Definition bank1 : Bank.state := World.sample_bank "Bank1".

(** Two prepares that share the transaction id [t] but not the account:
    the first names an account the bank does not have. *)
Definition prepare_unknown : PrepareTransactionRequest :=
  {| prep_transaction_id := "t"; prep_account_id := "ACC999";
     prep_type := "credit"; prep_amount := 10;
     prep_counterparty := "Bank2/ACC002" |}.
Definition prepare_known : PrepareTransactionRequest :=
  {| prep_transaction_id := "t"; prep_account_id := "ACC001";
     prep_type := "credit"; prep_amount := 10;
     prep_counterparty := "Bank2/ACC002" |}.

(** A debit of 5000 against the 1000 of [ACC001], under the id [t], and a
    credit of 5000 to the same account, under the id [t0]. *)
Definition debit_5000 : PrepareTransactionRequest :=
  {| prep_transaction_id := "t"; prep_account_id := "ACC001";
     prep_type := "debit"; prep_amount := 5000;
     prep_counterparty := "Bank2/ACC002" |}.
Definition credit_5000 : PrepareTransactionRequest :=
  {| prep_transaction_id := "t0"; prep_account_id := "ACC001";
     prep_type := "credit"; prep_amount := 5000;
     prep_counterparty := "Bank2/ACC003" |}.

(** The credit [t0] prepared and committed. *)
Definition credited (s : Bank.state) : Bank.state :=
  fst (Bank.CommitTransaction
         (fst (Bank.PrepareTransaction s World.sample_env credit_5000))
         World.sample_env {| commit_transaction_id := "t0" |}).

(** Two debits of 800 against the 1000 of [ACC001]. *)
Definition debit_800 (tx : string) : PrepareTransactionRequest :=
  {| prep_transaction_id := tx; prep_account_id := "ACC001";
     prep_type := "debit"; prep_amount := 800;
     prep_counterparty := "Bank2/ACC002" |}.

Definition commit (tx : string) : CommitTransactionRequest :=
  {| commit_transaction_id := tx |}.

Definition bank1_two_prepared : Bank.state :=
  fst (Bank.PrepareTransaction
         (fst (Bank.PrepareTransaction bank1 env0 (debit_800 "t1")))
         env0 (debit_800 "t2")).

Definition bank1_first_committed : Bank.state :=
  fst (Bank.CommitTransaction bank1_two_prepared env0 (commit "t1")).

(** The gateway at time 1000 with two sessions: [user1] of [Bank1] holds a
    token that is good until 2000, [user2] of [Bank2] one that ran out at
    500 and has not been swept yet. *)
Definition token_user1 : Gateway.token_info :=
  {| Gateway.username := "user1"; Gateway.bank := "Bank1";
     Gateway.account := "ACC001"; Gateway.expires := 2000 |}.
Definition token_user2_expired : Gateway.token_info :=
  {| Gateway.username := "user2"; Gateway.bank := "Bank2";
     Gateway.account := "ACC002"; Gateway.expires := 500 |}.

Definition gateway0 : Gateway.state :=
  {| Gateway.active_tokens :=
       <["tok-1" := token_user1]> (<["tok-2" := token_user2_expired]> ∅);
     Gateway.PROCESSED_KEYS := ∅ |}.

Definition payment (tok receiver_account receiver_bank : string) (amount : Q)
    (payment_id : string) : PaymentRequest :=
  {| token := tok; sender_account := "self";
     receiver_account := receiver_account; receiver_bank := receiver_bank;
     amount := amount; payment_id := payment_id |}.

(** [user1] pays 150 to [ACC002] at [Bank2]. *)
Definition pay_150 : PaymentRequest := payment "tok-1" "ACC002" "Bank2" 150 "p-1".
(** [user1] pays 100, payment id [p-4]. *)
Definition pay_100 : PaymentRequest := payment "tok-1" "ACC002" "Bank2" 100 "p-4".
(** [user1] pays 50 to its own account. *)
Definition pay_self_50 : PaymentRequest := payment "tok-1" "ACC001" "Bank1" 50 "p-5".
(** [user1] pays 5000 to its own account, more than it has. *)
Definition pay_self_5000 : PaymentRequest :=
  payment "tok-1" "ACC001" "Bank1" 5000 "p-6".
(** [user1] pays to a bank the gateway does not know. *)
Definition pay_unknown_bank : PaymentRequest :=
  payment "tok-1" "ACC999" "BankZ" 1 "p-3".
(** A request sent under the good token of [user1] in the metadata, with
    the expired token of [user2] in its body: 300 from [ACC002] at [Bank2]
    to [ACC001] at [Bank1]. *)
Definition pay_with_expired_body_token : PaymentRequest :=
  payment "tok-2" "ACC001" "Bank1" 300 "p-7".

Definition metadata (tok : string) : list (string * string) := [("token", tok)].

(** Networks.  The first call of a payment is the [GetBalance] of
    [ProcessPayment]. *)
Definition sender_prepare_times_out : list World.fate :=
  [World.Delivered; World.Dropped DEADLINE_EXCEEDED].
Definition sender_bank_unreachable : list World.fate :=
  [World.Dropped UNAVAILABLE].

(** The coordinator alone: the reply to the sender's prepare is lost. *)
Definition sender_prepare_reply_lost : list World.fate :=
  [World.ReplyLost DEADLINE_EXCEEDED].
(** The coordinator alone: both prepares and the sender's commit arrive,
    the receiver's commit times out. *)
Definition receiver_commit_times_out : list World.fate :=
  [World.Delivered; World.Delivered; World.Delivered;
   World.Dropped DEADLINE_EXCEEDED].

(** Two attempts of the payment [p-1], one after the other, in a world
    that hands out the uuids [g1] and [g2] and loses the reply to the
    first prepare. *)
Definition world_two_attempts : World.world :=
  World.with_uuids
    (World.with_net World.sample_world sender_prepare_reply_lost)
    ["g1"; "g2"].

Definition attempt_150 : Gateway.prog PaymentResponse :=
  Gateway._process_payment_2pc "p-1" "Bank1" "ACC001" "Bank2" "ACC002" 150.

(** The run of [attempt_150] whose receiver commit times out. *)
Definition critical_run : PaymentResponse * list Gateway.event :=
  fst (Gateway.run World.handle attempt_150
         (World.with_net World.sample_world receiver_commit_times_out)).


Definition first_attempt
  : PaymentResponse * list Gateway.event * World.world :=
  Gateway.run World.handle attempt_150 world_two_attempts.

Definition second_attempt
  : PaymentResponse * list Gateway.event * World.world :=
  Gateway.run World.handle attempt_150 (snd first_attempt).

(** A client that is connected, holds the token of [user1] and has
    nothing pending. *)
Definition client0 : Client.state :=
  {| Client.is_connected := true; Client.token := Some "tok-1";
     Client.pending_dir := ∅ |}.

(** The client pays 1 to [ACC999] at the unknown [BankZ] under the fixed
    payment id [p-3], then retries what is pending. *)
Definition after_payment_to_unknown_bank :=
  Client.make_payment _ World.stub_ProcessPayment client0
    (gateway0, World.sample_world) "ACC999" "BankZ" 1 true (Some "p-3")
    "fresh-uuid" 1000.

Definition after_retry :=
  let '(c1, gw1, _, _) := after_payment_to_unknown_bank in
  Client.retry_pending_transactions _ World.stub_ProcessPayment c1 gw1.

(** The transaction ids of the calls of a trace, in order. *)
Definition tx_ids (tr : list Gateway.event) : list string :=
  omap Gateway.tx_id_of tr.

End Scenario.

(** ** The bank's read-only methods ([VerifyCredentials],
    [GetTransactionHistory]) *)

Module BankQueries.
Import Proto Bank.

Record CredentialVerificationRequest := {
  cv_username : string; cv_password : string }.
Record CredentialVerificationResponse := {
  valid : bool; cv_account_id : string; cv_message : string }.

Record BankHistoryRequest := { bh_account_id : string; bh_limit : Z }.
(** A [Transaction] message has the fields of a ledger entry. *)
Record BankHistoryResponse := {
  bh_success : bool; bh_transactions : list ledger_entry;
  bh_message : string }.

(** [username in self.users and
     self.users[username]["password"] == password] *)
Definition VerifyCredentials (self : state)
    (request : CredentialVerificationRequest)
  : CredentialVerificationResponse :=
  let username := cv_username request in
  let password := cv_password request in
  match users_get (users self) username with
  | Some d =>
      if String.eqb (Bank.password d) password then
        {| valid := true; cv_account_id := account_id d;
           cv_message := "Credentials verified successfully" |}
      else
        {| valid := false; cv_account_id := "";
           cv_message := "Invalid username or password" |}
  | None =>
      {| valid := false; cv_account_id := "";
         cv_message := "Invalid username or password" |}
  end.

(** [l[:limit]]: a negative bound counts from the end. *)
Definition slice_to (limit : Z) {A} (l : list A) : list A :=
  if (0 <=? limit)%Z then take (Z.to_nat limit) l
  else take (length l - Z.to_nat (- limit)) l.

(** [sorted(l, key=lambda t: t["timestamp"], reverse=True)].  The sort is
    stable, also when reversed: entries with equal timestamps keep the
    order they have in [l].  An entry goes in front of the first entry
    that is not newer than it. *)
Fixpoint insert_newest_first (x : ledger_entry) (l : list ledger_entry)
  : list ledger_entry :=
  match l with
  | [] => [x]
  | y :: rest =>
      if String.leb (le_timestamp y) (le_timestamp x) then x :: y :: rest
      else y :: insert_newest_first x rest
  end.

Definition sorted_newest_first (l : list ledger_entry) : list ledger_entry :=
  foldr insert_newest_first [] l.

Definition GetTransactionHistory (self : state) (request : BankHistoryRequest)
  : Grpc.served BankHistoryResponse :=
  let acc := bh_account_id request in
  let limit := bh_limit request in
  match find_account (users self) acc with
  | None =>
      Grpc.Served
        {| bh_success := false; bh_transactions := [];
           bh_message := "Account " ++ acc ++ " not found" |}
        Grpc.NOT_FOUND
        ("Account " ++ acc ++ " not found in bank " ++ bank_name self)
  | Some _ =>
      match transactions self !! acc with
      | None =>
          Grpc.ok {| bh_success := true; bh_transactions := [];
                     bh_message := "No transactions found for this account" |}
      | Some account_transactions =>
          let recent_transactions :=
            slice_to limit (sorted_newest_first account_transactions) in
          Grpc.ok {| bh_success := true;
                     bh_transactions := recent_transactions;
                     bh_message :=
                       "Retrieved "
                       ++ Client.str_nat (length recent_transactions)
                       ++ " transactions" |}
      end
  end.

(** *** Vocabulary of the properties *)

(** [self.users] is a dict: no user name occurs twice. *)
Definition users_ok (self : state) : Prop := NoDup (map fst (users self)).

(** The ledger of an account, empty when the account has none. *)
Definition ledger (self : state) (acc : string) : list ledger_entry :=
  default [] (transactions self !! acc).

(** [a] is not older than [b]. *)
Definition not_older (a b : ledger_entry) : Prop :=
  String.le (le_timestamp b) (le_timestamp a).

(** What a commit does to the balance of its account. *)
Definition settled (ty : string) (amt b : Q) : Q :=
  if String.eqb ty "debit" then (b - amt)%Q
  else if String.eqb ty "credit" then (b + amt)%Q
  else b.

(** The move is exact: the balance, the amount and the balance after the
    move are floats, so that [balance -= amount] and [balance += amount]
    compute [settled] without rounding. *)
Definition exact_move (ty : string) (amt b : Q) : bool :=
  Py.is_float b && Py.is_float amt && Py.is_float (settled ty amt b).

(** Who the accounts are: everything about the users but the balances. *)
Definition identities (self : state)
  : list (string * string * string * string) :=
  map (fun ud => (fst ud, account_id (snd ud), password (snd ud),
                  name (snd ud))) (users self).

(** The entry that a prepare which votes ready writes for user [u]. *)
Definition ready_entry (r : PrepareTransactionRequest) (u : string)
    (e : env) : prepared :=
  {| p_ready := true; p_message := "Ready to process transaction";
     p_details := {|
       d_account_id := prep_account_id r; d_username := u;
       d_type := prep_type r; d_amount := prep_amount r;
       d_counterparty := prep_counterparty r; d_timestamp := time e |} |}.

(** The ledger entry a transaction writes. *)
Definition entry (tx_id ty : string) (amt : Q) (counterparty : string)
    (e : env) : ledger_entry :=
  {| le_transaction_id := tx_id; le_type := ty; le_amount := amt;
     le_counterparty := counterparty; le_timestamp := strftime e;
     le_status := "completed" |}.

End BankQueries.

(** ** The gateway's other methods ([cleanup_expired_tokens],
    [Authenticate], [CheckBalance], [GetTransactionHistory]) *)

Module GatewayQueries.
Import Proto Grpc BankQueries Gateway.

Record AuthRequest := {
  auth_username : string; auth_password : string; auth_bank_name : string }.
Record AuthResponse := {
  auth_success : bool; auth_token : string; auth_message : string }.

Record BalanceRequest := { bal_account_id : string }.
Record BalanceResponse := {
  bal_success : bool; bal_balance : Q; bal_message : string }.

Record HistoryRequest := { hist_account_id : string; hist_limit : Z }.
Record HistoryResponse := {
  hist_success : bool; hist_transactions : list Bank.ledger_entry;
  hist_message : string }.

Definition set_active_tokens (s : state) (t : gmap string token_info)
  : state :=
  {| active_tokens := t; PROCESSED_KEYS := PROCESSED_KEYS s |}.

(** *** The hourly sweep ([cleanup_expired_tokens]) *)

(** Lines 52-65; the timer that schedules the next sweep is not part of
    the model. *)
Definition cleanup_expired_tokens (self : state) : Gateway.prog state :=
  current_time ← Gateway.time;
  Gateway.Ret (set_active_tokens self
         (filter (fun kv => Py.lt current_time (expires (snd kv)) = true)
            (active_tokens self))).

(** What a program that only reads the clock returns when the clock
    reads [now]; [None] for a program that does anything else. *)
Fixpoint at_time {A} (now : Q) (p : Gateway.prog A) : option A :=
  match p with
  | Gateway.Ret a => Some a
  | Gateway.Vis o k =>
      match o return (Gateway.answer o → Gateway.prog A) → option A with
      | Time => fun k => at_time now (k now)
      | _ => fun _ => None
      end k
  end.

(** The state a sweep at [now] leaves. *)
Definition swept (self : state) (now : Q) : state :=
  default self (at_time now (cleanup_expired_tokens self)).

(** *** Operations *)

(** The operations of [ProcessPayment], and the two stub methods that
    only [Authenticate] and [GetTransactionHistory] call. *)
Inductive op : Type :=
| Base (o : Gateway.op)
| StubVerifyCredentials (bank : string)
    (request : CredentialVerificationRequest)
| StubGetTransactionHistory (bank : string) (request : BankHistoryRequest).

Definition answer (o : op) : Type :=
  match o with
  | Base o => Gateway.answer o
  | StubVerifyCredentials _ _ => result CredentialVerificationResponse
  | StubGetTransactionHistory _ _ => result BankHistoryResponse
  end.

Inductive prog (A : Type) : Type :=
| Ret (a : A)
| Vis (o : op) (k : answer o → prog A).
Arguments Ret {A} _.
Arguments Vis {A} _ _.

Fixpoint bind {A B} (p : prog A) (f : A → prog B) : prog B :=
  match p with
  | Ret a => f a
  | Vis o k => Vis o (fun x => bind (k x) f)
  end.

#[export] Instance prog_ret : MRet prog := @Ret.
#[export] Instance prog_bind : MBind prog := fun A B f p => bind p f.

Definition perform (o : op) : prog (answer o) := Vis o Ret.

(** A program of the payment path is a program here. *)
Fixpoint lift {A} (p : Gateway.prog A) : prog A :=
  match p with
  | Gateway.Ret a => Ret a
  | Gateway.Vis o k => Vis (Base o) (fun x => lift (k x))
  end.

Definition event : Type := { o : op & answer o }.

Definition handler (W : Type) : Type := ∀ o : op, W → W * answer o.

Fixpoint run {W A} (h : handler W) (p : prog A) (w : W)
  : A * list event * W :=
  match p with
  | Ret a => (a, [], w)
  | Vis o k =>
      let (w1, x) := h o w in
      let '(a, tr, w2) := run h (k x) w1 in
      (a, existT o x :: tr, w2)
  end.

(** [always P p acc]: on every run of [p] that continues the trace
    [acc], [P] holds of the whole trace and the returned value. *)
Fixpoint always {A} (P : list event → A → Prop) (p : prog A)
    (acc : list event) : Prop :=
  match p with
  | Ret a => P acc a
  | Vis o k => ∀ x : answer o, always P (k x) (acc ++ [existT o x])
  end.

(** The calls through bank stubs in a trace: the bank and, for the two
    read-only methods that name an account, the account asked about. *)
Inductive asked : Type :=
| AskedCredentials (bank user : string)
| AskedBalance (bank acc : string)
| AskedHistory (bank acc : string) (limit : Z)
| AskedOther (bank : string).

Definition stub_call (e : event) : option asked :=
  match projT1 e with
  | Base (Gateway.Stub b (Gateway.GetBalance r)) =>
      Some (AskedBalance b (bb_account_id r))
  | Base (Gateway.Stub b _) => Some (AskedOther b)
  | Base _ => None
  | StubVerifyCredentials b r => Some (AskedCredentials b (cv_username r))
  | StubGetTransactionHistory b r =>
      Some (AskedHistory b (bh_account_id r) (bh_limit r))
  end.

Definition stub_calls (tr : list event) : list asked :=
  omap stub_call tr.

(** The clock reading an event records, if it is one. *)
Definition reading (e : event) : option Q :=
  match e with
  | existT o x =>
      match o return answer o → option Q with
      | Base o' =>
          match o' return Gateway.answer o' → option Q with
          | Time => fun t => Some t
          | _ => fun _ => None
          end
      | _ => fun _ => None
      end x
  end.

Definition readings (tr : list event) : list Q := omap reading tr.

(** *** [Authenticate] *)

Section servicer.
(** [self.bank_stubs[bank] is None]: the channel to the bank could not be
    created when the servicer was. *)
Variable stub_is_none : string → bool.

Definition Authenticate (self : state) (request : AuthRequest)
  : prog (state * handled AuthResponse) :=
  let username := auth_username request in
  let password := auth_password request in
  let bank_name := auth_bank_name request in
  if negb (in_bank_stubs bank_name) || stub_is_none bank_name then
    let error_msg :=
      "Bank " ++ bank_name ++ " not found or connection failed" in
    Ret (self,
         Returned (Served
           {| auth_success := false; auth_token := "";
              auth_message := error_msg |}
           INVALID_ARGUMENT error_msg))
  else
    r ← perform (StubVerifyCredentials bank_name
                   {| cv_username := username; cv_password := password |});
    match r with
    | Reply verification_response =>
        if valid verification_response then
          u ← lift Gateway.uuid4;
          now ← lift Gateway.time;
          let token := username ++ "-" ++ u in
          let expiry := (now + 3600)%Q in
          Ret (set_active_tokens self
                 (<[token := {| username := username; bank := bank_name;
                                account := cv_account_id verification_response;
                                expires := expiry |}]>
                    (active_tokens self)),
               Returned (ok {| auth_success := true; auth_token := token;
                               auth_message := "Authentication successful" |}))
        else
          Ret (self,
               Returned (Served
                 {| auth_success := false; auth_token := "";
                    auth_message := cv_message verification_response |}
                 UNAUTHENTICATED (cv_message verification_response)))
    | RpcError c d =>
        Ret (self,
             Returned (Served
               {| auth_success := false; auth_token := "";
                  auth_message := "Authentication failed: " ++ d |}
               c ("Bank communication error: " ++ d)))
    | Raised what => Ret (self, Crashed what)
    end.

End servicer.

(** The one call [Authenticate] makes. *)
Definition verification (request : AuthRequest) : op :=
  StubVerifyCredentials (auth_bank_name request)
    {| cv_username := auth_username request;
       cv_password := auth_password request |}.

(** The state after a token was minted from the bank's answer [v], the
    uuid [u] and the clock reading [now]. *)
Definition minted (self : state) (request : AuthRequest)
    (v : CredentialVerificationResponse) (u : string) (now : Q) : state :=
  set_active_tokens self
    (<[auth_username request ++ "-" ++ u :=
         {| username := auth_username request;
            bank := auth_bank_name request;
            account := cv_account_id v;
            expires := (now + 3600)%Q |}]> (active_tokens self)).

(** *** [CheckBalance] and [GetTransactionHistory] *)

(** [active_tokens[metadata.get('token')]]: a [KeyError] when the
    metadata has no token or the table does not have it. *)
Definition user_info_of (self : state)
    (invocation_metadata : list (string * string))
  : string + token_info :=
  match Py.dict_get invocation_metadata "token" with
  | None => inl "None"
  | Some token =>
      match active_tokens self !! token with
      | None => inl ("'" ++ token ++ "'")
      | Some user_info => inr user_info
      end
  end.

Definition CheckBalance (self : state)
    (invocation_metadata : list (string * string)) (request : BalanceRequest)
  : Gateway.prog (handled BalanceResponse) :=
  match user_info_of self invocation_metadata with
  | inl what => mret (Crashed what)
  | inr user_info =>
      let bank_name := bank user_info in
      let account_id := account user_info in
      if Py.truthy (bal_account_id request)
         && negb (String.eqb (bal_account_id request) account_id)
      then
        mret (Returned (Served
          {| bal_success := false; bal_balance := 0;
             bal_message := "Authorization failed: Not your account" |}
          PERMISSION_DENIED
          ("You are not authorized to view balance for account "
           ++ bal_account_id request)))
      else
        r ← Gateway.call_stub bank_name
              (Gateway.GetBalance {| bb_account_id := account_id |});
        match r with
        | Reply bank_response =>
            mret (Returned (ok
              {| bal_success := bb_success bank_response;
                 bal_balance := bb_balance bank_response;
                 bal_message := bb_message bank_response |}))
        | RpcError c d =>
            mret (Returned (Served
              {| bal_success := false; bal_balance := 0;
                 bal_message := "Failed to get balance: " ++ d |}
              c ("Bank communication error: " ++ d)))
        | Raised what => mret (Crashed what)
        end
  end.

Definition GetTransactionHistory (self : state)
    (invocation_metadata : list (string * string)) (request : HistoryRequest)
  : prog (handled HistoryResponse) :=
  match user_info_of self invocation_metadata with
  | inl what => Ret (Crashed what)
  | inr user_info =>
      let bank_name := bank user_info in
      let account_id := account user_info in
      if negb (String.eqb (hist_account_id request) account_id) then
        Ret (Returned (Served
          {| hist_success := false; hist_transactions := [];
             hist_message := "Authorization failed: Not your account" |}
          PERMISSION_DENIED
          ("You are not authorized to view transactions for account "
           ++ hist_account_id request)))
      else
        let limit :=
          if (0 <? hist_limit request)%Z then hist_limit request else 10%Z in
        r ← (if in_bank_stubs bank_name
             then perform (StubGetTransactionHistory bank_name
                             {| bh_account_id := account_id;
                                bh_limit := limit |})
             else Ret (Raised ("'" ++ bank_name ++ "'")));
        match r with
        | Reply bank_response =>
            Ret (Returned (ok
              {| hist_success := bh_success bank_response;
                 hist_transactions := bh_transactions bank_response;
                 hist_message := bh_message bank_response |}))
        | RpcError c d =>
            Ret (Returned (Served
              {| hist_success := false; hist_transactions := [];
                 hist_message :=
                   "Failed to retrieve transaction history: " ++ d |}
              c ("Bank communication error: " ++ d)))
        | Raised what => Ret (Crashed what)
        end
  end.

(** *** The methods behind the interceptor *)

Definition guarded {A} (self : state) (method : string)
    (invocation_metadata : list (string * string))
    (body : prog (handled A)) : prog (remote A) :=
  i ← lift (intercept_service (active_tokens self) method
              invocation_metadata);
  match i with
  | Unauthenticated =>
      Ret (Failed UNAUTHENTICATED "Invalid or missing authentication token")
  | Continue => h ← body; Ret (observe h)
  end.

Definition serve_CheckBalance (self : state)
    (invocation_metadata : list (string * string)) (request : BalanceRequest)
  : prog (remote BalanceResponse) :=
  guarded self "/payment.PaymentGateway/CheckBalance" invocation_metadata
    (lift (CheckBalance self invocation_metadata request)).

Definition serve_GetTransactionHistory (self : state)
    (invocation_metadata : list (string * string)) (request : HistoryRequest)
  : prog (remote HistoryResponse) :=
  guarded self "/payment.PaymentGateway/GetTransactionHistory"
    invocation_metadata
    (GetTransactionHistory self invocation_metadata request).

Definition serve_Authenticate (stub_is_none : string → bool) (self : state)
    (invocation_metadata : list (string * string)) (request : AuthRequest)
  : prog (state * remote AuthResponse) :=
  i ← lift (intercept_service (active_tokens self)
              "/payment.PaymentGateway/Authenticate" invocation_metadata);
  match i with
  | Unauthenticated =>
      Ret (self,
           Failed UNAUTHENTICATED "Invalid or missing authentication token")
  | Continue =>
      '(self', h) ← Authenticate stub_is_none self request;
      Ret (self', observe h)
  end.

(** *** The banks behind the stubs *)

(** A read-only method of a bank, called through the stub: the network
    decides as for every call, the bank does not change. *)
Definition ask {A} (w : World.world) (b : string)
    (method : Bank.state → served A) : World.world * result A :=
  let (f, rest) := World.next_fate (World.net w) in
  let w0 := World.with_net w rest in
  if existsb (String.eqb b) (World.no_stub w) then
    (w, Raised "'NoneType' object has no attribute")
  else
    match f with
    | World.Dropped code => (w0, RpcError code "")
    | World.Delivered | World.ReplyLost _ =>
        match World.banks w !! b with
        | None =>
            (w0, RpcError UNAVAILABLE "failed to connect to all addresses")
        | Some s =>
            match f with
            | World.ReplyLost code => (w0, RpcError code "")
            | _ => (w0, of_remote (deliver (method s)))
            end
        end
    end.

Definition handle : handler World.world :=
  fun o =>
    match o as o' return World.world → World.world * answer o' with
    | Base o => World.handle o
    | StubVerifyCredentials b r => fun w =>
        ask w b (fun s => ok (BankQueries.VerifyCredentials s r))
    | StubGetTransactionHistory b r => fun w =>
        ask w b (fun s => BankQueries.GetTransactionHistory s r)
    end.

(** [self.bank_stubs[bank] is None] in a world. *)
Definition stub_is_none_in (w : World.world) (b : string) : bool :=
  existsb (String.eqb b) (World.no_stub w).

(** [performs p tr a]: [p] can perform the operations of [tr], receive
    the answers recorded there, and return [a]. *)
Inductive performs {A} : prog A → list event → A → Prop :=
| performs_Ret a : performs (Ret a) [] a
| performs_Vis o k x tr a :
    performs (k x) tr a → performs (Vis o k) (existT o x :: tr) a.

(** *** The life of a gateway process *)

(** One change of [active_tokens] and [PROCESSED_KEYS]: a sweep at some
    clock reading, or a [ProcessPayment] or an [Authenticate] whose
    operations were answered in some way.  The interceptor, [CheckBalance]
    and [GetTransactionHistory] assign to neither.  Both tables live in
    the memory of the process: a restart is not a step. *)
Inductive step : state → state → Prop :=
| step_sweep s now : step s (swept s now)
| step_ProcessPayment s request tr s' out :
    Gateway.exec (Gateway.ProcessPayment s request) tr (s', out) →
    step s s'
| step_Authenticate stub_is_none s request tr s' out :
    performs (Authenticate stub_is_none s request) tr (s', out) →
    step s s'.

(** The states the process reaches from [s]. *)
Definition reaches : state → state → Prop := rtc step.

(** The [AbortTransaction] calls of a trace, in order: the bank and the
    transaction id of each. *)
Definition aborts (tr : list Gateway.event)
  : list (option string * option string) :=
  map (fun e => (Gateway.bank_of e, Gateway.tx_id_of e))
    (filter (fun e => Gateway.is_abort e = true) tr).

End GatewayQueries.

(** ** What the calls of a run do to the banks *)

Module Settlement.
Import Proto Grpc Gateway.

(** [served_by e bs tr bs']: the replies of the trace [tr] are those of
    banks that start as [bs], and [bs'] is what these calls leave.  A call
    that ended in an error says nothing about what follows. *)
Fixpoint served_by (e : Bank.env) (bs : gmap string Bank.state)
    (tr : list event) (bs' : gmap string Bank.state) : Prop :=
  match tr with
  | [] => bs' = bs
  | existT o x :: rest =>
      match o return answer o → Prop with
      | Stub b c => fun x =>
          match x with
          | Reply v =>
              ∃ s, bs !! b = Some s
                   ∧ v = value (snd (World.serve s e c))
                   ∧ served_by e (<[b := fst (World.serve s e c)]> bs)
                       rest bs'
          | _ => True
          end
      | _ => fun _ => served_by e bs rest bs'
      end x
  end.

(** The balance of an account of a bank among [bs]. *)
Definition balance_in (bs : gmap string Bank.state) (bank acc : string)
  : option Q :=
  match bs !! bank with
  | Some s => Bank.balance_of s acc
  | None => None
  end.

(** The reply of this call is lost on its way back. *)
Definition reply_lost (f : World.fate) : bool :=
  match f with World.ReplyLost _ => true | _ => false end.

(** [served_without_loss e bs tr bs']: as [served_by], for a network that
    loses no reply: a call that ended in an error has not reached its
    bank. *)
Fixpoint served_without_loss (e : Bank.env) (bs : gmap string Bank.state)
    (tr : list event) (bs' : gmap string Bank.state) : Prop :=
  match tr with
  | [] => bs' = bs
  | existT o x :: rest =>
      match o return answer o → Prop with
      | Stub b c => fun x =>
          match x with
          | Reply v =>
              ∃ s, bs !! b = Some s
                   ∧ v = value (snd (World.serve s e c))
                   ∧ served_without_loss e
                       (<[b := fst (World.serve s e c)]> bs) rest bs'
          | _ => served_without_loss e bs rest bs'
          end
      | _ => fun _ => served_without_loss e bs rest bs'
      end x
  end.

(** A reply that moves no money: any reply but the acknowledgement of a
    commit. *)
Definition quiet (c : call) : reply c → Prop :=
  match c return reply c → Prop with
  | CommitTransaction _ _ => fun v => commit_success v = false
  | _ => fun _ => True
  end.

End Settlement.

(** ** The client's view of its queue ([has_pending_transactions],
    [get_pending_transactions]) *)

Module ClientQueries.
Import Proto Grpc Client.

(** [any(f.endswith('.json') for f in os.listdir(self.pending_dir))]; the
    directory exists, the constructor creates it. *)
Definition has_pending_transactions (self : state) : bool :=
  existsb (fun f => endswith f ".json")
    (map fst (map_to_list (pending_dir self))).

(** What [get_pending_transactions] makes of one file: nothing, or the
    record with its [payment_id]. *)
Definition listed (entry : string * file) : option (string * transaction) :=
  let (file_name, content) := entry in
  if negb (endswith file_name ".json") then None
  else
    let idempotency_key := drop_last 5 file_name in
    match content with
    | Json t => Some (idempotency_key, t)
    | Garbled => None
    end.

Definition get_pending_transactions (self : state)
  : list (string * transaction) :=
  omap listed (map_to_list (pending_dir self)).

(** *** Vocabulary of the properties *)

(** The request [_send_payment] builds for a record of the queue. *)
Definition request_of (self : state) (payment_id : string) (t : transaction)
  : PaymentRequest :=
  {| Proto.token := token_string self;
     sender_account := "self";
     receiver_account := t_receiver_account t;
     receiver_bank := t_receiver_bank t;
     amount := t_amount t;
     payment_id := payment_id |}.

(** The calls a gateway received, oldest first. *)
Definition calls : Type := list (list (string * string) * PaymentRequest).

(** A gateway that answers each request by [answer] and keeps the calls
    it received. *)
Definition recording (answer : PaymentRequest → remote PaymentResponse)
    (received : calls)
    (invocation_metadata : list (string * string)) (request : PaymentRequest)
  : calls * remote PaymentResponse :=
  ((received ++ [(invocation_metadata, request)])%list, answer request).

(** The answer reports success. *)
Definition succeeded (r : remote PaymentResponse) : bool :=
  match r with
  | Answered response => success response
  | Failed _ _ => false
  end.

(** The call [_send_payment] makes for a record of the queue: the
    metadata and the request. *)
Definition call_of (self : state) (kt : string * transaction)
  : list (string * string) * PaymentRequest :=
  ([("token", token_string self)], request_of self (fst kt) (snd kt)).

(** The request for a record is answered with success. *)
Definition answered_ok (answer : PaymentRequest → remote PaymentResponse)
    (self : state) (kt : string * transaction) : bool :=
  succeeded (answer (request_of self (fst kt) (snd kt))).

(** The directory after the records of [recs] were retried: the file of
    each record whose request succeeded is gone. *)
Definition settled_dir (answer : PaymentRequest → remote PaymentResponse)
    (self : state) (dir : gmap string file)
    (recs : list (string * transaction)) : gmap string file :=
  fold_left (fun m kt => if answered_ok answer self kt
                         then delete (file_name_of (fst kt)) m else m)
    recs dir.

(** *** A gateway under observation *)

(** One exchange with the gateway: the metadata and the request of a
    call, and the answer it got. *)
Definition exchange : Type :=
  (list (string * string) * PaymentRequest) * remote PaymentResponse.

(** Any gateway [stub], observed: its answers and its state are its own;
    the exchanges are kept beside its state, oldest first. *)
Definition observed {G : Type}
    (stub : G → list (string * string) → PaymentRequest
            → G * remote PaymentResponse)
    (g : G * list exchange)
    (invocation_metadata : list (string * string)) (request : PaymentRequest)
  : (G * list exchange) * remote PaymentResponse :=
  let (g', r) := stub (fst g) invocation_metadata request in
  ((g', (snd g ++ [((invocation_metadata, request), r)])%list), r).

(** The observed gateway after it was asked the calls of [cs], one after
    the other. *)
Definition asked {G : Type}
    (stub : G → list (string * string) → PaymentRequest
            → G * remote PaymentResponse)
    (g : G * list exchange)
    (cs : list (list (string * string) * PaymentRequest))
  : G * list exchange :=
  fold_left (fun go c => fst (observed stub go (fst c) (snd c))) cs g.

(** The loop variables of a retry against the gateway itself, from those
    of a retry against the observed gateway. *)
Definition unobserved {G : Type} (l : retry_loop (G * list exchange))
  : retry_loop G :=
  {| r_self := r_self _ l; r_gateway := fst (r_gateway _ l);
     r_log := r_log _ l; r_success := r_success _ l;
     r_retried_count := r_retried_count _ l;
     r_success_count := r_success_count _ l |}.

(** What the client does on an exchange: it has sent the payment, and it
    removes the record of the payment when the answer reports success. *)
Definition actions_of (x : exchange) : list action :=
  let key := payment_id (snd (fst x)) in
  if succeeded (snd x) then [Sent key true; Removed (file_name_of key)]
  else [Sent key false].

(** The directory without the records of the payments that an exchange
    of [xs] answered with success. *)
Definition cleared (dir : gmap string file) (xs : list exchange)
  : gmap string file :=
  fold_left (fun m x => if succeeded (snd x)
                        then delete (file_name_of (payment_id (snd (fst x)))) m
                        else m) xs dir.

(** The payment id [make_payment] uses: the fixed one when asked for and
    not empty, else the fresh uuid. *)
Definition chosen_id (use_fixed_id : bool) (fixed_id : option string)
    (fresh : string) : string :=
  match fixed_id with
  | Some f => if use_fixed_id && Py.truthy f then f else fresh
  | None => fresh
  end.

End ClientQueries.

(** ** The client's [authenticate] *)

Module ClientSession.
Import Proto Grpc Client GatewayQueries.

Definition set_token (s : state) (t : option string) : state :=
  {| is_connected := is_connected s; token := t;
     pending_dir := pending_dir s |}.

Section with_gateway.
(** The gateway behind [self.stub]. *)
Variable G : Type.
Variable stub_Authenticate : G → AuthRequest → G * remote AuthResponse.
Variable stub_ProcessPayment :
  G → list (string * string) → PaymentRequest → G * remote PaymentResponse.

(** [authenticate]: on success the token is kept and the pending payments
    are retried; what the retry returns is dropped. *)
Definition authenticate (self : state) (g : G)
    (username password bank_name : string)
  : state * G * list action * (bool * string) :=
  if negb (is_connected self) then
    (self, g, [], (false, "Not connected to the server"))
  else
    let request := {| auth_username := username; auth_password := password;
                      auth_bank_name := bank_name |} in
    match stub_Authenticate g request with
    | (g', Answered response) =>
        if auth_success response then
          let s1 := set_token self (Some (auth_token response)) in
          let '(s2, g2, log, _) :=
            retry_pending_transactions G stub_ProcessPayment s1 g' in
          (s2, g2, log, (true, "Authentication successful"))
        else (self, g', [], (false, auth_message response))
    | (g', Failed c d) =>
        (self, g', [],
         (false,
          "RPC error during authentication: " ++ code_name c ++ " - " ++ d))
    end.

End with_gateway.

(** What a gateway was asked, oldest first. *)
Inductive received : Type :=
| AskedToAuthenticate (request : AuthRequest)
| AskedToPay (invocation_metadata : list (string * string))
    (request : PaymentRequest).

Definition journal : Type := list received.

(** A gateway that answers [Authenticate] by [auth] and [ProcessPayment]
    by [answer], and keeps a journal of the requests it received. *)
Definition journal_Authenticate (auth : AuthRequest → remote AuthResponse)
    (j : journal) (request : AuthRequest) : journal * remote AuthResponse :=
  ((j ++ [AskedToAuthenticate request])%list, auth request).

Definition journal_ProcessPayment
    (answer : PaymentRequest → remote PaymentResponse)
    (j : journal) (invocation_metadata : list (string * string))
    (request : PaymentRequest) : journal * remote PaymentResponse :=
  ((j ++ [AskedToPay invocation_metadata request])%list, answer request).

Definition asked_to_pay (c : list (string * string) * PaymentRequest)
  : received :=
  AskedToPay (fst c) (snd c).

End ClientSession.

(** ** More concrete inputs *)

Module Scenario2.
Import Proto Grpc.

(** A direct debit of 300 from [ACC001], payment id [d-1]. *)
Definition direct_debit : BankTransactionRequest :=
  {| bt_account_id := "ACC001"; bt_type := "debit"; bt_amount := 300;
     bt_counterparty := "Bank2/ACC002"; bt_payment_id := "d-1" |}.

(** A direct debit of 5000 from [ACC001], which holds 1000. *)
Definition direct_overdraft : BankTransactionRequest :=
  {| bt_account_id := "ACC001"; bt_type := "debit"; bt_amount := 5000;
     bt_counterparty := "Bank2/ACC002"; bt_payment_id := "d-2" |}.

(** A prepared debit of 300 from [ACC001] under the id [t-9]. *)
Definition prepare_debit : PrepareTransactionRequest :=
  {| prep_transaction_id := "t-9"; prep_account_id := "ACC001";
     prep_type := "debit"; prep_amount := 300;
     prep_counterparty := "Bank2/ACC002" |}.

Definition commit_t9 : CommitTransactionRequest :=
  {| commit_transaction_id := "t-9" |}.
Definition abort_t9 : AbortTransactionRequest :=
  {| abort_transaction_id := "t-9" |}.

(** The sample banks, all calls delivered, and a clock that reads 1000
    and then 2000. *)
Definition world_session : World.world :=
  {| World.banks := World.banks World.sample_world;
     World.no_stub := [];
     World.bank_env := World.sample_env;
     World.clock := [1000%Q; 2000%Q];
     World.uuids := ["g"];
     World.net := [] |}.

Definition user1 : Bank.user_data := snd (World.sample_user 1).

(** The payment id [p-4] again, with another receiver and amount. *)
Definition replay_p4 : PaymentRequest :=
  Scenario.payment "tok-1" "ACC003" "Bank1" 999 "p-4".

(** [client0] with one payment pending: 25 to [ACC003] at [Bank2] under
    the payment id [p-7]. *)
Definition client_pending : Client.state :=
  Client._add_to_pending_transactions Scenario.client0 "p-7"
    {| Client.t_receiver_account := "ACC003";
       Client.t_receiver_bank := "Bank2";
       Client.t_amount := 25; Client.t_timestamp := 1000 |}.

(** A gateway that cannot be reached. *)
Definition unavailable (request : PaymentRequest)
  : remote PaymentResponse :=
  Failed UNAVAILABLE "failed to connect to all addresses".

(** A gateway that grants every authentication with the token
    [user1-g]. *)
Definition grants (request : GatewayQueries.AuthRequest)
  : remote GatewayQueries.AuthResponse :=
  Answered {| GatewayQueries.auth_success := true;
              GatewayQueries.auth_token := "user1-g";
              GatewayQueries.auth_message := "Authentication successful" |}.



End Scenario2.

(** * Properties of the bank *)

Module BankProps.
Import Proto Grpc Bank.

(** A prepare whose id is already in the table answers from the table and
    changes nothing. *)
Lemma PrepareTransaction_hit (s : state) (e : env)
    (r : PrepareTransactionRequest) (p : prepared) :
  prepared_transactions s !! prep_transaction_id r = Some p →
  PrepareTransaction s e r
  = (s, {| ready := p_ready p; prep_message := p_message p |}).
Proof. intros H. unfold PrepareTransaction. by rewrite H. Qed.

(** A prepare touches nothing but the table of prepared transactions, and
    there only the entry of its own id. *)
Lemma PrepareTransaction_frame (s : state) (e : env)
    (r : PrepareTransactionRequest) :
  let s' := fst (PrepareTransaction s e r) in
  users s' = users s ∧ transactions s' = transactions s
  ∧ processed_transactions s' = processed_transactions s
  ∧ (prepared_transactions s' = prepared_transactions s
     ∨ prepared_transactions s'
       = <[prep_transaction_id r :=
             default (Build_prepared true "" (Build_details "" "" "" 0 "" 0))
               (prepared_transactions s' !! prep_transaction_id r)]>
           (prepared_transactions s)).
Proof.
  unfold PrepareTransaction.
  destruct (prepared_transactions s !! prep_transaction_id r) eqn:Hin; simpl.
  { repeat split; auto. }
  destruct (find_account (users s) (prep_account_id r)) as [[u d]|]; simpl.
  2: { repeat split; auto. }
  destruct (String.eqb (prep_type r) "debit" && Py.lt (balance d) (prep_amount r));
    simpl.
  { repeat split; auto. }
  repeat split; auto. right. by rewrite lookup_insert_eq.
Qed.

(** The vote of a prepare that finds no entry for its id: it is [ready]
    exactly when the prepare leaves an entry behind. *)
Lemma PrepareTransaction_records_ready (s : state) (e : env)
    (r : PrepareTransactionRequest) :
  prepared_transactions s !! prep_transaction_id r = None →
  let (s', v) := PrepareTransaction s e r in
  if ready v
  then ∃ p, prepared_transactions s' !! prep_transaction_id r = Some p
            ∧ p_ready p = true ∧ p_message p = prep_message v
  else s' = s.
Proof.
  intros Hnone. unfold PrepareTransaction. rewrite Hnone.
  destruct (find_account (users s) (prep_account_id r)) as [[u d]|]; simpl; auto.
  destruct (String.eqb (prep_type r) "debit" && Py.lt (balance d) (prep_amount r));
    simpl; auto.
  eexists. rewrite lookup_insert_eq. split; [reflexivity|]. by simpl.
Qed.

(** A vote that is not [ready] leaves no entry in the table: the method
    returns before it stores anything. *)
Example PrepareTransaction_not_ready_leaves_no_entry :
  let (s', v) := PrepareTransaction Scenario.bank1 Scenario.env0
                   Scenario.prepare_unknown in
  ready v = false ∧ prepared_transactions s' !! "t" = None.
Proof. vm_compute. split; reflexivity. Qed.

(** C5, as stated, fails, because a vote that is not ready is not
    recorded.  First, the same request twice: a debit of 5000 under the id
    [t] against the 1000 of [ACC001] is voted not-ready and leaves no
    entry; a credit of 5000 is committed to the account; the same prepare,
    sent again, is now voted ready.  Second, two prepares back to back
    under the id [t], the first for an account the bank does not have, the
    second for [ACC001]: not-ready, then ready. *)
Lemma prepare_same_id_votes_differ :
  (let (s1, v1) := PrepareTransaction Scenario.bank1 Scenario.env0
                     Scenario.debit_5000 in
   let (s2, v2) := PrepareTransaction (Scenario.credited s1) Scenario.env0
                     Scenario.debit_5000 in
   ready v1 = false
   ∧ prepared_transactions s1 !! "t" = None
   ∧ ready v2 = true
   ∧ v2 ≠ v1)
  ∧ prep_transaction_id Scenario.prepare_unknown
    = prep_transaction_id Scenario.prepare_known
  ∧ (let (s1, v1) := PrepareTransaction Scenario.bank1 Scenario.env0
                       Scenario.prepare_unknown in
     let (s2, v2) := PrepareTransaction s1 Scenario.env0
                       Scenario.prepare_known in
     ready v1 = false ∧ ready v2 = true ∧ v2 ≠ v1).
Proof. vm_compute. repeat split; congruence. Qed.

(** C5, amended: of two prepares with the same transaction id, one right
    after the other, the second returns the vote and message of the first
    verbatim, and changes nothing, whenever the first vote was ready (it
    was recorded) and also whenever the second request is the first one
    again; a vote that is not ready is not recorded, the bank is left as
    it was; in every case the two calls together add at most one entry to
    the table. *)
Theorem PrepareTransaction_idempotent (s : state) (e1 e2 : env)
    (r1 r2 : PrepareTransactionRequest) :
  prep_transaction_id r1 = prep_transaction_id r2 →
  let (s1, v1) := PrepareTransaction s e1 r1 in
  let (s2, v2) := PrepareTransaction s1 e2 r2 in
  (ready v1 = true → v2 = v1 ∧ s2 = s1)
  ∧ (r2 = r1 → v2 = v1 ∧ s2 = s1)
  ∧ (ready v1 = false → s1 = s)
  ∧ (size (prepared_transactions s2) ≤ S (size (prepared_transactions s)))%nat.
Proof.
  intros Hid.
  destruct (prepared_transactions s !! prep_transaction_id r1) as [p|] eqn:Hin.
  - (* the id was in the table all along *)
    rewrite (PrepareTransaction_hit s e1 r1 p Hin).
    rewrite Hid in Hin. rewrite (PrepareTransaction_hit s e2 r2 p Hin).
    repeat split; auto.
  - pose proof (PrepareTransaction_records_ready s e1 r1 Hin) as Hrec.
    pose proof (PrepareTransaction_frame s e1 r1) as Hfr1.
    destruct (PrepareTransaction s e1 r1) as [s1 v1] eqn:E1.
    simpl in Hfr1. destruct Hfr1 as (_ & _ & _ & Hsz1).
    destruct (ready v1) eqn:Hv1.
    + (* ready: the entry is there for the second call *)
      destruct Hrec as (p & Hp & Hr & Hm).
      rewrite Hid in Hp. rewrite (PrepareTransaction_hit s1 e2 r2 p Hp).
      assert (Hv : {| ready := p_ready p; prep_message := p_message p |} = v1).
      { destruct v1; simpl in *. congruence. }
      rewrite Hv. repeat split; auto; try discriminate.
      destruct Hsz1 as [-> | Hins]; [lia|].
      rewrite Hins, map_size_insert.
      destruct (prepared_transactions s !! prep_transaction_id r1);
        unfold id; lia.
    + (* not ready: nothing was recorded *)
      subst s1.
      pose proof (PrepareTransaction_frame s e2 r2) as Hfr2.
      destruct (PrepareTransaction s e2 r2) as [s2 v2] eqn:E2.
      simpl in Hfr2. destruct Hfr2 as (_ & _ & _ & Hsz2).
      split; [discriminate|]. split; [|split; [reflexivity|]].
      * intros ->.
        assert (Hsame : PrepareTransaction s e2 r1 = PrepareTransaction s e1 r1).
        { unfold PrepareTransaction in E1 |- *. rewrite Hin in E1 |- *.
          destruct (find_account (users s) (prep_account_id r1)) as [[u d]|];
            [|reflexivity].
          destruct (String.eqb (prep_type r1) "debit"
                    && Py.lt (balance d) (prep_amount r1)); [reflexivity|].
          simpl in E1. injection E1 as _ <-. discriminate. }
        rewrite Hsame, E1 in E2. by injection E2 as <- <-.
      * destruct Hsz2 as [-> | Hins]; [lia|].
        rewrite Hins, map_size_insert.
        destruct (prepared_transactions s !! prep_transaction_id r2);
          unfold id; lia.
Qed.

Lemma PrepareTransaction_idempotent_witness :
  let (s1, v1) := PrepareTransaction Scenario.bank1 Scenario.env0
                    Scenario.prepare_known in
  let (s2, v2) := PrepareTransaction s1 Scenario.env0 Scenario.prepare_known in
  (ready v1 = true → v2 = v1 ∧ s2 = s1)
  ∧ (Scenario.prepare_known = Scenario.prepare_known → v2 = v1 ∧ s2 = s1)
  ∧ (ready v1 = false → s1 = Scenario.bank1)
  ∧ (size (prepared_transactions s2)
     ≤ S (size (prepared_transactions Scenario.bank1)))%nat.
Proof.
  apply (PrepareTransaction_idempotent Scenario.bank1 Scenario.env0
           Scenario.env0 Scenario.prepare_known Scenario.prepare_known).
  reflexivity.
Defined.

(** C9: an abort always answers success and touches neither the accounts
    nor the ledger nor the processed-transaction cache; it removes the
    entry of its id from the table of prepared transactions, and when the
    id was not there the bank is left exactly as it was. *)
Theorem AbortTransaction_safe (self : state) (request : AbortTransactionRequest) :
  let (s', r) := AbortTransaction self request in
  abort_success r = true
  ∧ users s' = users self
  ∧ transactions s' = transactions self
  ∧ processed_transactions s' = processed_transactions self
  ∧ prepared_transactions s'
    = delete (abort_transaction_id request) (prepared_transactions self)
  ∧ match prepared_transactions self !! abort_transaction_id request with
    | None => s' = self
    | Some _ => prepared_transactions s' !! abort_transaction_id request = None
    end.
Proof.
  unfold AbortTransaction.
  destruct (prepared_transactions self !! abort_transaction_id request) eqn:Hin;
    simpl.
  - repeat split; auto. apply lookup_delete_eq.
  - repeat split; auto. symmetry. by apply delete_id.
Qed.

(** No balance moves under an abort. *)
Lemma AbortTransaction_keeps_balances (self : state)
    (request : AbortTransactionRequest) (acc : string) :
  balance_of (fst (AbortTransaction self request)) acc = balance_of self acc.
Proof.
  unfold AbortTransaction.
  by destruct (prepared_transactions self !! abort_transaction_id request).
Qed.

(** C2 fails on the code.  Two debits of 800 are prepared against the
    1000 of [ACC001] and both vote ready; the first commit leaves 200; the
    second commit, whose amount exceeds that balance, answers success and
    leaves -600. *)
Theorem CommitTransaction_overdraws :
  balance_of Scenario.bank1 "ACC001" = Some 1000%Q
  ∧ balance_of Scenario.bank1_first_committed "ACC001" = Some 200%Q
  ∧ (let (s', r) := CommitTransaction Scenario.bank1_first_committed
                      Scenario.env0 (Scenario.commit "t2") in
     commit_success r = true
     ∧ balance_of s' "ACC001" = Some (-600)%Q
     ∧ (-600 < 0)%Q).
Proof. vm_compute. repeat split; reflexivity. Qed.

(** The sibling path: the direct debit of [ProcessTransaction] checks the
    balance before it subtracts, refuses the same debit and leaves the
    balance alone. *)
Example ProcessTransaction_refuses_overdraft :
  let (s', r) := ProcessTransaction Scenario.bank1_first_committed
                   Scenario.env0
                   {| bt_account_id := "ACC001"; bt_type := "debit";
                      bt_amount := 800; bt_counterparty := "Bank2/ACC002";
                      bt_payment_id := "p" |} in
  bt_success (value r) = false
  ∧ balance_of s' "ACC001" = Some 200%Q.
Proof. vm_compute. split; reflexivity. Qed.

End BankProps.

(** * Properties of the gateway *)

Module GatewayProps.
Import Proto Grpc Gateway.

(** ** Runs *)

Lemma always_exec {A} (P : list event → A → Prop) (p : prog A) acc tr a :
  always P p acc → exec p tr a → P (acc ++ tr)%list a.
Proof.
  intros Hal Hex. revert acc Hal.
  induction Hex as [a | o k x tr a Hex IH]; intros acc Hal; simpl in *.
  - by rewrite app_nil_r.
  - specialize (IH (acc ++ [existT o x])%list (Hal x)).
    by rewrite <- app_assoc in IH.
Qed.

Lemma run_exec {W A} (h : handler W) (p : prog A) w a tr w' :
  run h p w = (a, tr, w') → exec p tr a.
Proof.
  revert w a tr w'. induction p as [a0 | o k IH]; intros w a tr w'; simpl.
  - intros [= <- <- <-]. constructor.
  - destruct (h o w) as [w1 x].
    destruct (run h (k x) w1) as [[a1 tr1] w2] eqn:E.
    intros [= <- <- <-]. constructor. eauto.
Qed.

Lemma run_exec_fst {W A} (h : handler W) (p : prog A) w :
  exec p (snd (fst (run h p w))) (fst (fst (run h p w))).
Proof.
  destruct (run h p w) as [[a tr] w'] eqn:E. simpl. eapply run_exec, E.
Qed.

Lemma always_run {W A} (P : list event → A → Prop) (h : handler W)
    (p : prog A) w :
  always P p [] → P (snd (fst (run h p w))) (fst (fst (run h p w))).
Proof.
  intros Hal. destruct (run h p w) as [[a tr] w'] eqn:E. simpl.
  apply (always_exec P p [] tr a Hal). eapply run_exec, E.
Qed.

Lemma always_mono {A} (P Q : list event → A → Prop) (p : prog A) acc :
  (∀ tr a, P tr a → Q tr a) → always P p acc → always Q p acc.
Proof.
  intros HPQ. revert acc.
  induction p as [a | o k IH]; intros acc; simpl; [apply HPQ|].
  intros Hal x. apply IH, Hal.
Qed.

(** A run only ever extends the trace it continues. *)
Lemma always_extends {A} (p : prog A) acc :
  always (fun tr _ => ∃ rest, tr = (acc ++ rest)%list) p acc.
Proof.
  revert acc. induction p as [a | o k IH]; intros acc; simpl.
  - exists []. by rewrite app_nil_r.
  - intros x. eapply always_mono; [|apply IH].
    intros tr _ [rest ->]. exists (existT o x :: rest).
    by rewrite <- app_assoc.
Qed.

Lemma no_raise_stubs_fixed (tr : list event) :
  Forall (fun e => raised e = false) tr → stubs_fixed tr.
Proof.
  intros Hall e1 e2 H1 H2 _ _. rewrite Forall_forall in Hall.
  by rewrite (Hall e1 H1), (Hall e2 H2).
Qed.

(** ** Strings *)

Lemma length_append (a b : string) :
  String.length (a ++ b) = (String.length a + String.length b)%nat.
Proof.
  induction a as [|c a IH]; [reflexivity|].
  change (S (String.length (a ++ b)) = S (String.length a + String.length b)).
  by rewrite IH.
Qed.

Lemma append_cancel_r (a b s : string) : a ++ s = b ++ s → a = b.
Proof.
  revert b. induction a as [|c a IH]; intros [|c' b] H.
  - reflexivity.
  - apply (f_equal String.length) in H.
    rewrite !length_append in H. simpl in H. exfalso. lia.
  - apply (f_equal String.length) in H.
    rewrite !length_append in H. simpl in H. exfalso. lia.
  - change (String c (a ++ s) = String c' (b ++ s)) in H.
    injection H as -> H. f_equal. by apply IH.
Qed.

(** ** Walking through the paths of a method *)

#[local] Arguments in_bank_stubs : simpl never.
#[local] Arguments Py.lt : simpl never.
#[local] Arguments Py.max0 : simpl never.
#[local] Arguments Py.truthy : simpl never.
#[local] Arguments Py.str_float : simpl never.
#[local] Arguments String.append : simpl never.

Ltac unfold_gateway :=
  unfold serve_ProcessPayment, intercept_service, ProcessPayment, attempt,
    _process_payment_2pc, after_minting, prepare_phase, prepare_receiver,
    commit_phase, commit_receiver, on_exception, unexpected, try_abort,
    call_stub, time, uuid4, perform.

Ltac explore_step :=
  match goal with
  | H : in_bank_stubs ?b = _ |- context [in_bank_stubs ?b] => rewrite H
  | |- context [String.eqb ?x ?x] => rewrite (String.eqb_refl x)
  | H : Py.truthy ?b = _ |- context [Py.truthy ?b] => rewrite H
  | |- context [if in_bank_stubs ?b then _ else _] =>
      destruct (in_bank_stubs b) eqn:?
  | |- always _ (if negb ?c then _ else _) _ => destruct c eqn:?
  | |- always _ (if ?c then _ else _) _ => destruct c eqn:?
  | |- always _ (match (if ?c then _ else _) with _ => _ end) _ =>
      destruct c eqn:?
  | |- always _ (match ?r with _ => _ end) _ => destruct r eqn:?
  | |- always _ (prog_bind _ _ _ (if ?c then _ else _)) _ => destruct c eqn:?
  | |- always _ (bind (if ?c then _ else _) _) _ => destruct c eqn:?
  | |- ∀ x : result PrepareTransactionResponse, _ => intros [[? ?]|? ?|?]
  | |- ∀ x : result CommitTransactionResponse, _ => intros [[? ?]|? ?|?]
  | |- ∀ x : result AbortTransactionResponse, _ => intros [[? ?]|? ?|?]
  | |- ∀ x : result BankBalanceResponse, _ => intros [[? ? ?]|? ?|?]
  | |- ∀ x : answer _, _ => intro
  | |- ∀ x : Q, _ => intro
  | |- ∀ x : string, _ => intro
  end.

Ltac explore :=
  repeat first [ progress unfold_gateway | progress simpl | explore_step ].

Ltac find_elem :=
  repeat first [ apply list_elem_of_here | apply list_elem_of_further ].

Ltac find_Exists :=
  repeat first [ apply Exists_cons_hd; reflexivity | apply Exists_cons_tl ].

(** Closes a path on which one bank answered one call and raised on
    another, against [stubs_fixed]. *)
Ltac stub_flipped :=
  match goal with
  | Hfix : stubs_fixed ?tr |- _ =>
      match tr with
      | context [ existT (Stub ?b ?c1) (Reply ?r) ] =>
          match tr with
          | context [ existT (Stub b ?c2) (Raised ?w) ] =>
              exfalso;
              assert (raised (existT (Stub b c1) (Reply r : answer (Stub b c1)))
                      = raised (existT (Stub b c2)
                                  (Raised w : answer (Stub b c2))))
                as Hflip
                by (apply Hfix;
                    [find_elem | find_elem | reflexivity | reflexivity]);
              discriminate Hflip
          end
      end
  end.

(** ** The critical state *)

Lemma critical_state_paths (pid sb sa rb ra : string) (amt : Q) :
  always
    (fun tr resp =>
       stubs_fixed tr →
       ∀ e post, first_commit_ack tr = Some (e, post) →
         bank_of e = Some sb
         ∧ (∃ g, tx_id_of e = Some (sender_tx_id pid g))
         ∧ Forall (fun e' => is_abort e' = false) post
         ∧ (status resp = "error" ∧ success resp = false
            ∨ status resp = "completed" ∧ success resp = true
              ∧ Exists (fun e' => commit_acked e' = true) post))
    (_process_payment_2pc pid sb sa rb ra amt) [].
Proof.
  explore.
  all: intros Hfix e post Hack; simpl in Hack; try discriminate.
  all: injection Hack as <- <-.
  all: try solve
    [ split; [reflexivity|]; split; [eexists; reflexivity|];
      split; [ repeat constructor | left; split; reflexivity ] ].
  all: try solve
    [ split; [reflexivity|]; split; [eexists; reflexivity|];
      split; [ repeat constructor
             | right; split; [reflexivity | split; [reflexivity | find_Exists]] ] ].
  all: stub_flipped.
Qed.

(** The handlers of lines 926-982 keep the critical state.  On a run in
    which no bank's stub raises on one call and answers another
    ([stubs_fixed]), once a [CommitTransaction] has been acknowledged with
    success (the first such acknowledgement is the sender bank's, for the
    sender's transaction id), no [AbortTransaction] is issued afterwards,
    and the response is [completed] when the receiver's commit was
    acknowledged too and carries status [error] with [success = false] in
    every other case (the clock check after the sender's commit, a
    receiver commit that answers non-success, a receiver commit that ends
    in an [RpcError]).  Without [stubs_fixed] this fails: see
    [critical_state_exceptions] below. *)
Theorem no_abort_after_sender_commit (pid sb sa rb ra : string) (amt : Q)
    (tr : list event) (resp : PaymentResponse) (e : event) (post : list event) :
  exec (_process_payment_2pc pid sb sa rb ra amt) tr resp →
  stubs_fixed tr →
  first_commit_ack tr = Some (e, post) →
  bank_of e = Some sb
  ∧ (∃ g, tx_id_of e = Some (sender_tx_id pid g))
  ∧ Forall (fun e' => is_abort e' = false) post
  ∧ (status resp = "error" ∧ success resp = false
     ∨ status resp = "completed" ∧ success resp = true
       ∧ Exists (fun e' => commit_acked e' = true) post).
Proof.
  intros Hex Hfix Hack.
  exact (always_exec _ _ [] tr resp (critical_state_paths pid sb sa rb ra amt)
           Hex Hfix e post Hack).
Qed.

Lemma no_abort_after_sender_commit_witness :
  ∃ e post,
    first_commit_ack (snd Scenario.critical_run) = Some (e, post)
    ∧ bank_of e = Some "Bank1"
    ∧ (∃ g, tx_id_of e = Some (sender_tx_id "p-1" g))
    ∧ Forall (fun e' => is_abort e' = false) post
    ∧ (status (fst Scenario.critical_run) = "error"
       ∧ success (fst Scenario.critical_run) = false
       ∨ status (fst Scenario.critical_run) = "completed"
         ∧ success (fst Scenario.critical_run) = true
         ∧ Exists (fun e' => commit_acked e' = true) post).
Proof.
  eexists _, _. split; [vm_compute; reflexivity|].
  apply (no_abort_after_sender_commit "p-1" "Bank1" "ACC001" "Bank2" "ACC002"
           150 (snd Scenario.critical_run) (fst Scenario.critical_run)).
  - apply (run_exec_fst World.handle Scenario.attempt_150
             (World.with_net World.sample_world
                Scenario.receiver_commit_times_out)).
  - apply no_raise_stubs_fixed. vm_compute. repeat constructor.
  - vm_compute. reflexivity.
Defined.

Example critical_run_is_an_error :
  status (fst Scenario.critical_run) = "error"
  ∧ success (fst Scenario.critical_run) = false.
Proof. vm_compute. split; reflexivity. Qed.

(** The banks of [World] keep [stubs_fixed]: a call raises exactly when
    the bank is among those without a stub, and that list never changes. *)
Lemma call_bank_raised (w : World.world) (b : string) (c : call) :
  World.no_stub (fst (World.call_bank w b c)) = World.no_stub w
  ∧ raised (existT (Stub b c) (snd (World.call_bank w b c)))
    = existsb (String.eqb b) (World.no_stub w).
Proof.
  unfold World.call_bank. destruct (World.next_fate _) as [f rest].
  destruct (existsb _ _) eqn:Hno; [by split|].
  destruct f; simpl; try (by split);
    destruct (World.banks w !! b); simpl; try (by split);
    destruct (World.serve _ _ _) as [s' r]; simpl; try (by split).
  by destruct (deliver r).
Qed.

Lemma world_trace_raises {A} (p : prog A) (w : World.world) :
  World.no_stub (snd (run World.handle p w)) = World.no_stub w
  ∧ Forall (fun e => ∀ b, bank_of e = Some b →
                      raised e = existsb (String.eqb b) (World.no_stub w))
      (snd (fst (run World.handle p w))).
Proof.
  revert w. induction p as [a | o k IH]; intros w; simpl.
  - split; [reflexivity | constructor].
  - destruct (World.handle o w) as [w1 x] eqn:E1.
    specialize (IH x w1).
    destruct (run World.handle (k x) w1) as [[a tr] w2]. simpl in *.
    destruct IH as [Hno Htr].
    assert (Hstep : World.no_stub w1 = World.no_stub w
                    ∧ ∀ b, bank_of (existT o x) = Some b →
                        raised (existT o x)
                        = existsb (String.eqb b) (World.no_stub w)).
    { destruct o as [| |b c]; simpl in E1.
      - destruct (World.next _ _). injection E1 as <- _.
        split; [reflexivity | discriminate].
      - destruct (World.next _ _). injection E1 as <- _.
        split; [reflexivity | discriminate].
      - destruct (call_bank_raised w b c) as [H1 H2]. rewrite E1 in H1, H2.
        split; [exact H1|]. by intros b' [= <-]. }
    destruct Hstep as [Hno1 Hhd]. rewrite Hno1 in Hno, Htr.
    split; [exact Hno|]. by constructor.
Qed.

Lemma world_runs_have_fixed_stubs {A} (p : prog A) (w : World.world) :
  stubs_fixed (snd (fst (run World.handle p w))).
Proof.
  destruct (world_trace_raises p w) as [_ Htr].
  rewrite Forall_forall in Htr.
  intros e1 e2 H1 H2 Hstub Hbank.
  destruct e1 as [[| |b c] x]; try discriminate Hstub.
  rewrite (Htr _ H1 b eq_refl).
  symmetry. apply (Htr _ H2 b). by rewrite <- Hbank.
Qed.

(** So around such banks the critical state needs no side condition. *)
Corollary critical_state_in_world (pid sb sa rb ra : string) (amt : Q)
    (w : World.world) :
  let '(resp, tr, _) :=
    run World.handle (_process_payment_2pc pid sb sa rb ra amt) w in
  ∀ e post, first_commit_ack tr = Some (e, post) →
    bank_of e = Some sb
    ∧ (∃ g, tx_id_of e = Some (sender_tx_id pid g))
    ∧ Forall (fun e' => is_abort e' = false) post
    ∧ (status resp = "error" ∧ success resp = false
       ∨ status resp = "completed" ∧ success resp = true
         ∧ Exists (fun e' => commit_acked e' = true) post).
Proof.
  pose proof (always_run _ World.handle _ w
                (critical_state_paths pid sb sa rb ra amt)) as Hpaths.
  pose proof (world_runs_have_fixed_stubs
                (_process_payment_2pc pid sb sa rb ra amt) w) as Hfix.
  destruct (run World.handle _ w) as [[resp tr] w']. simpl in *.
  intros e post. by apply Hpaths.
Qed.

(** The catch-all of lines 996-1026 does not keep it.  On every run, what
    follows the first acknowledged commit depends on one thing only: when
    a call after it ends in an exception that is not an [RpcError], the
    coordinator sends an [AbortTransaction] for the sender's transaction
    to the sender's bank and answers [failed]; when none does, it sends
    no abort and answers [error] or [completed]. *)
Lemma critical_state_exceptions (pid sb sa rb ra : string) (amt : Q) :
  always
    (fun tr resp =>
       ∀ e post, first_commit_ack tr = Some (e, post) →
         if existsb raised post then
           (∃ g, head (GatewayQueries.aborts post)
                 = Some (Some sb, Some (sender_tx_id pid g)))
           ∧ status resp = "failed" ∧ success resp = false
         else
           GatewayQueries.aborts post = []
           ∧ (status resp = "error" ∧ success resp = false
              ∨ status resp = "completed" ∧ success resp = true))
    (_process_payment_2pc pid sb sa rb ra amt) [].
Proof.
  explore.
  all: intros e post Hack; simpl in Hack; try discriminate.
  all: injection Hack as <- <-.
  all: simpl.
  all: try solve [ split; [reflexivity | auto ] ].
  all: try solve [ split; [eexists; reflexivity | auto ] ].
Qed.


(** ** [success] and [status] agree (C10) *)

Lemma coherent_failed (tx msg : string) : coherent (response false tx "failed" msg).
Proof. split; [split; discriminate | reflexivity]. Qed.

Lemma coherent_error (tx msg : string) : coherent (response false tx "error" msg).
Proof. split; [split; discriminate | reflexivity]. Qed.

Lemma coherent_completed (tx msg : string) :
  coherent (response true tx "completed" msg).
Proof. split; [split; reflexivity | intros [?|?]; discriminate]. Qed.

Create HintDb strife.
#[local] Hint Resolve coherent_failed coherent_error coherent_completed : strife.

Lemma cache_coherent_insert (g : state) (k : string) (r : PaymentResponse) :
  cache_coherent g → coherent r →
  cache_coherent (set_PROCESSED_KEYS g (<[k := r]> (PROCESSED_KEYS g))).
Proof. intros Hg Hr. unfold cache_coherent. simpl. by apply map_Forall_insert_2. Qed.

Lemma cache_coherent_cache (g : state) (k : string) (r : PaymentResponse) :
  cache_coherent g → coherent r → cache_coherent (cache g k r).
Proof.
  intros Hg Hr. unfold cache. destruct (Py.truthy k); [|assumption].
  by apply cache_coherent_insert.
Qed.

#[local] Hint Resolve cache_coherent_insert cache_coherent_cache : strife.

(** Every response of the coordinator is one of the three shapes. *)
Lemma coordinator_coherent (pid sb sa rb ra : string) (amt : Q) :
  always (fun _ resp => coherent resp)
    (_process_payment_2pc pid sb sa rb ra amt) [].
Proof. explore; unfold failed, critical; auto with strife. Qed.

(** One call keeps the cache coherent and returns a coherent response. *)
Lemma ProcessPayment_coherent (self : state) (request : PaymentRequest) :
  cache_coherent self →
  always (fun _ out => cache_coherent (fst out) ∧ coherent_outcome (snd out))
    (ProcessPayment self request) [].
Proof.
  intros Hself. explore.
  all: unfold failed, critical, coherent_outcome; simpl.
  all: try (split; auto 6 with strife; fail).
  all: split; [assumption|].
  all: match goal with
       | H : PROCESSED_KEYS _ !! _ = Some _ |- _ => exact (Hself _ _ H)
       end.
Qed.

(** C10: whatever the banks, the network and the clock do, and whatever
    token table each request finds, every [PaymentResponse] that
    [ProcessPayment] returns, from a fresh attempt on any path of the
    coordinator or from the idempotency cache, has [success = true]
    exactly when its status is [completed], and [success = false] when
    its status is [failed] or [error]. *)
Theorem responses_are_coherent {W} (h : handler W) (w : W)
    (calls : list (gmap string token_info * PaymentRequest)) :
  Forall coherent_outcome (serve_all h ∅ w calls).
Proof.
  assert (Hgen : ∀ keys w,
            map_Forall (fun _ r => coherent r) keys →
            Forall coherent_outcome (serve_all h keys w calls)).
  { induction calls as [|[tokens request] rest IH]; intros keys w0 Hkeys; simpl.
    - constructor.
    - pose proof (always_run _ h _ w0
                    (ProcessPayment_coherent
                       {| active_tokens := tokens; PROCESSED_KEYS := keys |}
                       request Hkeys)) as Hstep.
      destruct (run h _ w0) as [[[g' out] tr] w'].
      simpl in Hstep. destruct Hstep as [Hg' Hout].
      constructor; [assumption | apply IH, Hg']. }
  apply Hgen, map_Forall_empty.
Qed.

(** ** The idempotency cache (C1) *)

(** The classifier never calls an outcome retriable. *)
Lemma nothing_is_retriable (r : PaymentResponse) :
  Py.truthy_opt (_is_retriable_error r) = false.
Proof. reflexivity. Qed.

(** So a fresh attempt caches whatever it returns, transient or not. *)
Lemma every_outcome_is_cached (self : state) (request : PaymentRequest)
    (sb sa : string) :
  Py.truthy (payment_id request) = true →
  always
    (fun _ out =>
       match snd out with
       | Returned s =>
           PROCESSED_KEYS (fst out) !! payment_id request = Some (value s)
       | Crashed _ => True
       end)
    (attempt self request sb sa) [].
Proof.
  intros Hpid. explore.
  all: unfold cache; rewrite ?Hpid; simpl; try apply lookup_insert_eq; auto.
Qed.

(** C1 fails on the code.  [user1] pays 100 under the payment id [p-4]
    and the sender bank's prepare runs into its deadline: the outcome is
    transient, yet it is written to the cache under [p-4].  The client
    retries with the same payment id over a network that now delivers
    everything: the gateway answers from the cache, no bank is called and
    no balance moves. *)
Theorem transient_outcome_is_cached :
  let timed_out :=
    response false "g" "failed"
      "Transaction timed out during preparation (sender)" in
  let '((g1, r1), tr1, w1) :=
    run World.handle
      (serve_ProcessPayment Scenario.gateway0 (Scenario.metadata "tok-1")
         Scenario.pay_100)
      (World.with_net World.sample_world Scenario.sender_prepare_times_out) in
  let '((g2, r2), tr2, w2) :=
    run World.handle
      (serve_ProcessPayment g1 (Scenario.metadata "tok-1") Scenario.pay_100)
      w1 in
  r1 = Answered timed_out
  ∧ PROCESSED_KEYS g1 !! "p-4" = Some timed_out
  ∧ World.net w1 = []
  ∧ r2 = Answered timed_out
  ∧ List.filter is_stub tr2 = []
  ∧ World.balance_at w2 "Bank1" "ACC001" = Some 1000%Q
  ∧ World.balance_at w2 "Bank2" "ACC002" = Some 2000%Q.
Proof. vm_compute. repeat split; reflexivity. Qed.

(** The same with a sender bank that cannot be reached at all: this
    outcome is cached by a branch that does not even ask the classifier. *)
Example unreachable_bank_is_cached :
  let '((g1, r1), tr1, w1) :=
    run World.handle
      (serve_ProcessPayment Scenario.gateway0 (Scenario.metadata "tok-1")
         Scenario.pay_100)
      (World.with_net World.sample_world Scenario.sender_bank_unreachable) in
  let '((g2, r2), tr2, w2) :=
    run World.handle
      (serve_ProcessPayment g1 (Scenario.metadata "tok-1") Scenario.pay_100)
      w1 in
  r1 = Failed UNAVAILABLE "Bank communication error: "
  ∧ PROCESSED_KEYS g1 !! "p-4"
    = Some (response false "" "failed" "Payment failed: ")
  ∧ r2 = Answered (response false "" "failed" "Payment failed: ")
  ∧ List.filter is_stub tr2 = [].
Proof. vm_compute. repeat split; reflexivity. Qed.

(** ** Expired tokens (C6) *)

(** The interceptor does reject a token of the metadata that has run out,
    for each of the three methods it guards. *)
Lemma interceptor_rejects_expired (tokens : gmap string token_info)
    (method : string) (metadata : list (string * string))
    (tok : string) (info : token_info) :
  method ∈ auth_required_methods →
  Py.dict_get metadata "token" = Some tok →
  tokens !! tok = Some info →
  always
    (fun tr i =>
       ∃ now, tr = [existT Time now]
              ∧ (Py.lt (expires info) now = true → i = Unauthenticated))
    (intercept_service tokens method metadata) [].
Proof.
  intros Hm Hmeta Htok. unfold intercept_service.
  assert (Hne : String.eqb method "/payment.PaymentGateway/Authenticate" = false).
  { unfold auth_required_methods in Hm.
    rewrite !elem_of_cons, elem_of_nil in Hm.
    destruct Hm as [-> | [-> | [-> | []]]]; reflexivity. }
  assert (Hin : existsb (String.eqb method) auth_required_methods = true).
  { unfold auth_required_methods in Hm |- *.
    rewrite !elem_of_cons, elem_of_nil in Hm.
    destruct Hm as [-> | [-> | [-> | []]]]; reflexivity. }
  rewrite Hne, Hin, Hmeta, Htok. simpl. intros now.
  destruct (Py.lt (expires info) now) eqn:Hexp; simpl; exists now.
  - split; [reflexivity | intros _; reflexivity].
  - split; [reflexivity | intros Hexp'; congruence].
Qed.

(** With such a token in the metadata [ProcessPayment] is not run: the
    call ends unauthenticated, no bank is called and the gateway's tables
    are as they were. *)
Lemma expired_metadata_token_is_rejected (self : state)
    (metadata : list (string * string)) (request : PaymentRequest)
    (tok : string) (info : token_info) :
  Py.dict_get metadata "token" = Some tok →
  active_tokens self !! tok = Some info →
  always
    (fun tr out =>
       ∃ now rest, tr = existT Time now :: rest
         ∧ (Py.lt (expires info) now = true →
            rest = []
            ∧ out = (self, Failed UNAUTHENTICATED
                             "Invalid or missing authentication token")))
    (serve_ProcessPayment self metadata request) [].
Proof.
  intros Hmeta Htok. unfold serve_ProcessPayment, intercept_service.
  simpl. rewrite Hmeta, Htok. simpl. intros now.
  destruct (Py.lt (expires info) now) eqn:Hexp; simpl.
  - eexists _, _. split; [reflexivity|]. intros _. split; reflexivity.
  - eapply always_mono; [|apply always_extends].
    intros tr out [rest ->]. exists now, rest. split; [reflexivity|].
    intros Hexp'. rewrite Hexp in Hexp'. discriminate.
Qed.

(** C6 fails on the code for the token of the request body.  At time
    1000 the table still holds the token of [user2], which ran out at 500.
    A request that carries the good token of [user1] in its metadata and
    the expired token in its body passes the interceptor, is served, and
    moves 300 out of the account the expired token stands for. *)
Theorem expired_body_token_is_accepted :
  active_tokens Scenario.gateway0 !! "tok-2"
  = Some Scenario.token_user2_expired
  ∧ World.clock World.sample_world = [1000%Q]
  ∧ Py.lt (expires Scenario.token_user2_expired) 1000 = true
  ∧ (let '((g1, r1), tr1, w1) :=
       run World.handle
         (serve_ProcessPayment Scenario.gateway0 (Scenario.metadata "tok-1")
            Scenario.pay_with_expired_body_token)
         World.sample_world in
     r1 = Answered
            (response true "g" "completed" "Payment processed successfully")
     ∧ World.balance_at w1 "Bank2" "ACC002" = Some 1700%Q
     ∧ World.balance_at w1 "Bank1" "ACC001" = Some 1300%Q).
Proof. vm_compute. repeat split; reflexivity. Qed.

(** The same expired token in the metadata is turned away. *)
Example expired_metadata_token_example :
  let '((g1, r1), tr1, w1) :=
    run World.handle
      (serve_ProcessPayment Scenario.gateway0 (Scenario.metadata "tok-2")
         Scenario.pay_with_expired_body_token)
      World.sample_world in
  r1 = Failed UNAUTHENTICATED "Invalid or missing authentication token"
  ∧ List.filter is_stub tr1 = []
  ∧ World.balance_at w1 "Bank2" "ACC002" = Some 2000%Q.
Proof. vm_compute. repeat split; reflexivity. Qed.

(** ** Transaction ids (C4) *)

Lemma sender_tx_id_inj (pid g1 g2 : string) :
  sender_tx_id pid g1 = sender_tx_id pid g2 ↔ g1 = g2.
Proof.
  split; [|by intros ->]. unfold sender_tx_id. apply append_cancel_r.
Qed.

Lemma receiver_tx_id_inj (pid g1 g2 : string) :
  receiver_tx_id pid g1 = receiver_tx_id pid g2 ↔ g1 = g2.
Proof.
  split; [|by intros ->]. unfold receiver_tx_id. apply append_cancel_r.
Qed.

Ltac carried :=
  repeat first
    [ apply List.Forall_nil
    | apply List.Forall_cons;
      [ first [ exact I
              | left; split; reflexivity
              | right; split; reflexivity ] | ] ].

(** An attempt mints its global id first and uses the two ids derived
    from it in every call that carries a transaction id. *)
Lemma attempt_uses_its_global_id (pid sb sa rb ra : string) (amt : Q) :
  always
    (fun tr _ =>
       ∃ g rest, tr = existT Uuid4 g :: rest
                 ∧ Forall (carries_ids_of pid sb rb g) rest)
    (_process_payment_2pc pid sb sa rb ra amt) [].
Proof. explore; (eexists _, _; split; [reflexivity | carried]). Qed.

(** C4, as stated, fails: two attempts of the payment [p-1].  The first
    mints [g1] and prepares [g1-sender-p-1] at the sender bank; the reply
    is lost and the attempt fails.  The second mints [g2] and prepares and
    commits [g2-sender-p-1] and [g2-receiver-p-1]: other ids, other
    entries.  The entry of the first attempt is still in the sender bank's
    table when the second attempt is over. *)
Lemma retry_derives_other_transaction_ids :
  Scenario.tx_ids (snd (fst Scenario.first_attempt)) = ["g1-sender-p-1"]
  ∧ status (fst (fst Scenario.first_attempt)) = "failed"
  ∧ Scenario.tx_ids (snd (fst Scenario.second_attempt))
    = ["g2-sender-p-1"; "g2-receiver-p-1";
       "g2-sender-p-1"; "g2-receiver-p-1"]
  ∧ status (fst (fst Scenario.second_attempt)) = "completed"
  ∧ "g1-sender-p-1" ≠ "g2-sender-p-1"
  ∧ (Bank.prepared_transactions
       <$> World.banks (snd Scenario.second_attempt) !! "Bank1")
    ≫= (fun t => Bank.d_amount <$> (Bank.p_details <$> t !! "g1-sender-p-1"))
    = Some 150%Q.
Proof. vm_compute. repeat split; try reflexivity. discriminate. Qed.

(** C4, amended: an attempt derives its two transaction ids from the
    global id it mints, [{global}-sender-{payment-id}] for the sender's
    bank and [{global}-receiver-{payment-id}] for the receiver's, and uses
    no other id in its calls; two attempts of the same payment id derive
    the same ids exactly when they minted the same global id. *)
Theorem transaction_ids_follow_the_global_id (pid sb sa rb ra : string)
    (amt : Q) (tr1 tr2 : list event) (resp1 resp2 : PaymentResponse) :
  exec (_process_payment_2pc pid sb sa rb ra amt) tr1 resp1 →
  exec (_process_payment_2pc pid sb sa rb ra amt) tr2 resp2 →
  ∃ g1 g2 rest1 rest2,
    tr1 = existT Uuid4 g1 :: rest1
    ∧ tr2 = existT Uuid4 g2 :: rest2
    ∧ Forall (carries_ids_of pid sb rb g1) rest1
    ∧ Forall (carries_ids_of pid sb rb g2) rest2
    ∧ (sender_tx_id pid g1 = sender_tx_id pid g2 ↔ g1 = g2)
    ∧ (receiver_tx_id pid g1 = receiver_tx_id pid g2 ↔ g1 = g2).
Proof.
  intros H1 H2.
  destruct (always_exec _ _ [] tr1 resp1
              (attempt_uses_its_global_id pid sb sa rb ra amt) H1)
    as (g1 & rest1 & E1 & Hids1).
  destruct (always_exec _ _ [] tr2 resp2
              (attempt_uses_its_global_id pid sb sa rb ra amt) H2)
    as (g2 & rest2 & E2 & Hids2).
  simpl in E1, E2. subst tr1 tr2.
  exists g1, g2, rest1, rest2.
  repeat split; auto; try apply sender_tx_id_inj; try apply receiver_tx_id_inj.
Qed.

Lemma transaction_ids_follow_the_global_id_witness :
  ∃ g1 g2 rest1 rest2,
    snd (fst Scenario.first_attempt) = existT Uuid4 g1 :: rest1
    ∧ snd (fst Scenario.second_attempt) = existT Uuid4 g2 :: rest2
    ∧ Forall (carries_ids_of "p-1" "Bank1" "Bank2" g1) rest1
    ∧ Forall (carries_ids_of "p-1" "Bank1" "Bank2" g2) rest2
    ∧ (sender_tx_id "p-1" g1 = sender_tx_id "p-1" g2 ↔ g1 = g2)
    ∧ (receiver_tx_id "p-1" g1 = receiver_tx_id "p-1" g2 ↔ g1 = g2).
Proof.
  apply (transaction_ids_follow_the_global_id "p-1" "Bank1" "ACC001" "Bank2"
           "ACC002" 150 _ _ (fst (fst Scenario.first_attempt))
           (fst (fst Scenario.second_attempt))).
  - apply (run_exec_fst World.handle Scenario.attempt_150
             Scenario.world_two_attempts).
  - apply (run_exec_fst World.handle Scenario.attempt_150
             (snd Scenario.first_attempt)).
Defined.

(** ** Self-transfers (C7) *)

(** The coordinator's short cut: no call at all. *)
Lemma self_transfer_short_cut (pid b a : string) (amt : Q)
    (tr : list event) (resp : PaymentResponse) :
  exec (_process_payment_2pc pid b a b a amt) tr resp →
  ∃ g, tr = [existT Uuid4 g]
       ∧ resp = response true g "completed"
                  "Self-transfer processed successfully (no balance change)".
Proof.
  intros Hex.
  assert (Hal : always
            (fun tr resp =>
               ∃ g, tr = [existT Uuid4 g]
                    ∧ resp = response true g "completed"
                        "Self-transfer processed successfully (no balance change)")
            (_process_payment_2pc pid b a b a amt) []).
  { unfold _process_payment_2pc, after_minting, uuid4, perform. simpl.
    intros g. rewrite !String.eqb_refl. simpl. by exists g. }
  exact (always_exec _ _ [] tr resp Hal Hex).
Qed.

(** A [GetBalance] leaves every bank as it was. *)
Lemma GetBalance_keeps_banks (w : World.world) (b : string)
    (r : BankBalanceRequest) :
  World.banks (fst (World.call_bank w b (GetBalance r))) = World.banks w.
Proof.
  unfold World.call_bank. destruct (World.next_fate _) as [f rest].
  destruct (existsb _ _); [reflexivity|].
  destruct f; simpl; try reflexivity;
    destruct (World.banks w !! b) eqn:E; simpl; try reflexivity;
    by rewrite insert_id.
Qed.

(** A run that makes no call other than [GetBalance] leaves every bank as
    it was: accounts, ledger and tables. *)
Lemma run_reads_only {A} (p : prog A) (w : World.world) :
  Forall (fun e => is_mutating e = false) (snd (fst (run World.handle p w))) →
  World.banks (snd (run World.handle p w)) = World.banks w.
Proof.
  revert w. induction p as [a | o k IH]; intros w; simpl; [reflexivity|].
  destruct (World.handle o w) as [w1 x] eqn:E1.
  specialize (IH x w1).
  destruct (run World.handle (k x) w1) as [[a tr] w2] eqn:E2. simpl in *.
  intros Hall. inversion Hall as [|? ? Hhd Htl]; subst.
  rewrite (IH Htl).
  destruct o as [| |b c]; simpl in E1.
  - destruct (World.next _ _). by injection E1 as <- _.
  - destruct (World.next _ _). by injection E1 as <- _.
  - destruct c; try discriminate Hhd.
    pose proof (GetBalance_keeps_banks w b request) as Hk.
    by rewrite E1 in Hk.
Qed.

Lemma self_transfer_paths (self : state) (request : PaymentRequest)
    (info : token_info) :
  active_tokens self !! token request = Some info →
  sender_account request = "self" ∨ sender_account request = account info →
  receiver_bank request = bank info →
  receiver_account request = account info →
  in_bank_stubs (bank info) = true →
  cached self (payment_id request) = None →
  always
    (fun tr out =>
       Forall (fun e => is_mutating e = false) tr
       ∧ ∃ x : result BankBalanceResponse,
           List.filter is_stub tr
           = [existT (Stub (bank info)
                        (GetBalance {| bb_account_id := account info |})) x]
           ∧ match x with
             | Reply b =>
                 if bb_success b && negb (Py.lt (bb_balance b) (amount request))
                 then ∃ g, snd out
                           = Returned (ok (response true g "completed"
                               "Self-transfer processed successfully (no balance change)"))
                 else ∃ s, snd out = Returned s ∧ status (value s) = "failed"
             | RpcError _ _ =>
                 ∃ s, snd out = Returned s ∧ status (value s) = "failed"
             | Raised what => snd out = Crashed what
             end)
    (ProcessPayment self request) [].
Proof.
  intros Htok Hauth Hrb Hra Hstub Hcached.
  destruct request as [tok sa ra rb amt pid]; simpl in *. subst ra rb.
  assert (Hself : negb (sa =? "self") && negb (sa =? account info) = false).
  { destruct Hauth as [-> | ->]; [reflexivity|].
    rewrite String.eqb_refl. apply andb_false_r. }
  unfold cached in Hcached.
  unfold ProcessPayment. simpl. rewrite Htok, Hself, Hcached.
  explore.
  all: split; [repeat constructor|].
  all: eexists; split; [reflexivity|]; simpl.
  all: repeat match goal with
              | H : Py.lt _ _ = _ |- _ => rewrite H
              end; simpl; eauto.
Qed.

(** C7, as stated, fails: [user1], who has 1000, pays 50 to its own
    account.  The payment completes, but only after a [GetBalance] call to
    [Bank1]; and the same payment of 5000 is refused for lack of funds. *)
Lemma self_transfer_calls_the_bank :
  (let '((g1, r1), tr1, w1) :=
     run World.handle
       (serve_ProcessPayment Scenario.gateway0 (Scenario.metadata "tok-1")
          Scenario.pay_self_50)
       World.sample_world in
   status <$> (match r1 with Answered r => Some r | Failed _ _ => None end)
   = Some "completed"
   ∧ List.filter is_stub tr1
     = [existT (Stub "Bank1" (GetBalance {| bb_account_id := "ACC001" |}))
          (Reply {| bb_success := true; bb_balance := 1000;
                    bb_message := "Balance retrieved successfully" |})]
   ∧ List.filter is_stub tr1 ≠ [])
  ∧ (let '((g1, r1), tr1, w1) :=
       run World.handle
         (ProcessPayment Scenario.gateway0 Scenario.pay_self_5000)
         World.sample_world in
     ∃ s, r1 = Returned s
          ∧ success (value s) = false ∧ status (value s) = "failed").
Proof.
  vm_compute. split.
  - repeat split; try reflexivity. discriminate.
  - eexists. repeat split; reflexivity.
Qed.

(** C7, amended: for a payment whose receiver is the sender's own account
    at the sender's own bank, presented with a token the table has and a
    payment id the cache does not have, [ProcessPayment] makes exactly one
    call on a bank's stub, the [GetBalance] for the sender's account at the
    sender's bank, and no [Prepare], [Commit] or [Abort]; every bank,
    accounts and ledger alike, is afterwards as it was before.  The
    outcome follows that one call: the response [success = true],
    [completed] when it answers with success and a balance that covers the
    amount; a response with status [failed] when it answers otherwise or
    ends in an [RpcError]; and when it ends in another exception (the
    table's entry for the bank is [None]), no response at all: the
    exception leaves [ProcessPayment]. *)
Theorem self_transfer_completes_after_the_balance_check (self : state)
    (request : PaymentRequest) (info : token_info) (w : World.world) :
  active_tokens self !! token request = Some info →
  sender_account request = "self" ∨ sender_account request = account info →
  receiver_bank request = bank info →
  receiver_account request = account info →
  in_bank_stubs (bank info) = true →
  cached self (payment_id request) = None →
  let '((self', out), tr, w') :=
    run World.handle (ProcessPayment self request) w in
  Forall (fun e => is_mutating e = false) tr
  ∧ (∃ x : result BankBalanceResponse,
       List.filter is_stub tr
       = [existT (Stub (bank info)
                    (GetBalance {| bb_account_id := account info |})) x]
       ∧ match x with
         | Reply b =>
             if bb_success b && negb (Py.lt (bb_balance b) (amount request))
             then ∃ g, out
                       = Returned (ok (response true g "completed"
                           "Self-transfer processed successfully (no balance change)"))
             else ∃ s, out = Returned s ∧ status (value s) = "failed"
         | RpcError _ _ => ∃ s, out = Returned s ∧ status (value s) = "failed"
         | Raised what => out = Crashed what
         end)
  ∧ World.banks w' = World.banks w.
Proof.
  intros Htok Hauth Hrb Hra Hstub Hcached.
  pose proof (always_run _ World.handle _ w
                (self_transfer_paths self request info
                   Htok Hauth Hrb Hra Hstub Hcached)) as Hpaths.
  pose proof (run_reads_only (ProcessPayment self request) w) as Hbanks.
  destruct (run World.handle (ProcessPayment self request) w)
    as [[[self' out] tr] w'].
  simpl in Hpaths, Hbanks. destruct Hpaths as [Hread Hcall].
  split; [assumption|]. split; [assumption|]. by apply Hbanks.
Qed.

Lemma self_transfer_completes_after_the_balance_check_witness :
  let '((self', out), tr, w') :=
    run World.handle
      (ProcessPayment Scenario.gateway0 Scenario.pay_self_50)
      World.sample_world in
  Forall (fun e => is_mutating e = false) tr
  ∧ (∃ x : result BankBalanceResponse,
       List.filter is_stub tr
       = [existT (Stub "Bank1" (GetBalance {| bb_account_id := "ACC001" |})) x]
       ∧ match x with
         | Reply b =>
             if bb_success b && negb (Py.lt (bb_balance b) 50)
             then ∃ g, out
                       = Returned (ok (response true g "completed"
                           "Self-transfer processed successfully (no balance change)"))
             else ∃ s, out = Returned s ∧ status (value s) = "failed"
         | RpcError _ _ => ∃ s, out = Returned s ∧ status (value s) = "failed"
         | Raised what => out = Crashed what
         end)
  ∧ World.banks w' = World.banks World.sample_world.
Proof.
  apply (self_transfer_completes_after_the_balance_check Scenario.gateway0
           Scenario.pay_self_50 Scenario.token_user1 World.sample_world).
  - vm_compute. reflexivity.
  - left. reflexivity.
  - reflexivity.
  - reflexivity.
  - vm_compute. reflexivity.
  - vm_compute. reflexivity.
Defined.

End GatewayProps.

(** * Properties of the client *)

Module ClientProps.
Import Proto Grpc Client ClientQueries.

(** ** File names *)

Lemma substring_all (s : string) : substring 0 (String.length s) s = s.
Proof.
  induction s as [|c s IH]; [reflexivity|].
  change (String c (substring 0 (String.length s) s) = String c s).
  by rewrite IH.
Qed.

Lemma substring_split (s : string) (k : nat) :
  (k ≤ String.length s)%nat →
  substring 0 k s ++ substring k (String.length s - k) s = s.
Proof.
  revert k. induction s as [|c s IH]; intros [|k] Hk; simpl in Hk.
  - reflexivity.
  - lia.
  - change (substring 0 (String.length (String c s)) (String c s) = String c s).
    apply substring_all.
  - change (String c (substring 0 k s ++ substring k (String.length s - k) s)
            = String c s).
    rewrite IH; [reflexivity | lia].
Qed.

(** The name of a [.json] file is the payment id it stands for, followed
    by the extension. *)
Lemma file_name_of_drop_last (name : string) :
  endswith name ".json" = true → file_name_of (drop_last 5 name) = name.
Proof.
  unfold endswith, drop_last, file_name_of. simpl String.length.
  intros [Hlen Hsuf]%andb_true_iff.
  apply Nat.leb_le in Hlen. apply String.eqb_eq in Hsuf.
  pose proof (substring_split name (String.length name - 5)) as Hsplit.
  replace (String.length name - (String.length name - 5))%nat with 5%nat
    in Hsplit by lia.
  rewrite Hsuf in Hsplit. apply Hsplit. lia.
Qed.

Lemma substring_append_l (a b : string) :
  substring 0 (String.length a) (a ++ b) = a.
Proof.
  induction a as [|c a IH].
  - destruct b; reflexivity.
  - change (String c (substring 0 (String.length a) (a ++ b)) = String c a).
    by rewrite IH.
Qed.

Lemma substring_append_r (a b : string) :
  substring (String.length a) (String.length b) (a ++ b) = b.
Proof.
  induction a as [|c a IH]; [apply substring_all | exact IH].
Qed.

(** A record written for a payment id is found again under that id. *)
Lemma drop_last_file_name_of (key : string) :
  endswith (file_name_of key) ".json" = true
  ∧ drop_last 5 (file_name_of key) = key.
Proof.
  unfold endswith, drop_last, file_name_of.
  rewrite GatewayProps.length_append. simpl String.length.
  replace (String.length key + 5 - 5)%nat with (String.length key) by lia.
  split.
  - apply andb_true_iff. split; [apply Nat.leb_le; lia|].
    apply String.eqb_eq.
    exact (substring_append_r key ".json").
  - apply substring_append_l.
Qed.

(** ** The listing of the queue *)

Lemma file_name_of_inj (k k' : string) :
  file_name_of k = file_name_of k' → k = k'.
Proof. apply GatewayProps.append_cancel_r. Qed.

Lemma listed_spec (entry : string * file) (k : string) (t : transaction) :
  listed entry = Some (k, t) ↔ entry = (file_name_of k, Json t).
Proof.
  destruct entry as [f c]. unfold listed. split.
  - destruct (endswith f ".json") eqn:Hjson; simpl; [|discriminate].
    destruct c as [t'|]; [|discriminate].
    intros [= <- <-]. by rewrite (file_name_of_drop_last f Hjson).
  - intros [= -> ->].
    destruct (drop_last_file_name_of k) as [-> ->]. reflexivity.
Qed.

Lemma get_pending_transactions_spec (s : state) (k : string)
    (t : transaction) :
  (k, t) ∈ get_pending_transactions s
  ↔ pending_dir s !! file_name_of k = Some (Json t).
Proof.
  unfold get_pending_transactions. rewrite list_elem_of_omap. split.
  - intros ([f c] & Hin & Hl). apply listed_spec in Hl as [= -> ->].
    by apply elem_of_map_to_list in Hin.
  - intros H. exists (file_name_of k, Json t). split.
    + by apply elem_of_map_to_list.
    + by apply listed_spec.
Qed.

(** ** The pending queue (C8) *)

Lemma removed_in_app (log1 log2 : list action) (name : string) :
  removed_in (log1 ++ log2) name
  = removed_in log1 name || removed_in log2 name.
Proof. apply existsb_app. Qed.

Lemma paired_app (log1 log2 : list action) :
  paired log1 → paired log2 → paired (log1 ++ log2).
Proof. induction 1; simpl; auto using paired. Qed.

Section with_gateway.
Context (G : Type).
Context (stub : G → list (string * string) → PaymentRequest
                → G * remote PaymentResponse).

(** One turn of the retry loop: what it adds to the log is paired, and the
    directory loses exactly the files that the addition removes. *)
Lemma retry_one_spec (l : retry_loop G) (entry : string * file) :
  ∃ new,
    r_log G (retry_one G stub l entry) = (r_log G l ++ new)%list
    ∧ paired new
    ∧ ∀ name,
        pending_dir (r_self G (retry_one G stub l entry)) !! name
        = if removed_in new name then None
          else pending_dir (r_self G l) !! name.
Proof.
  destruct entry as [file_name content]. unfold retry_one.
  destruct (endswith file_name ".json") eqn:Hjson; simpl.
  2: { exists []. rewrite app_nil_r. auto using paired. }
  destruct content as [t|].
  2: { exists []. rewrite app_nil_r. auto using paired. }
  destruct (_send_payment G stub _ _ _ _ _ _) as [g' [ok msg]].
  destruct ok; simpl.
  - eexists. split; [reflexivity|]. split; [auto using paired|].
    intros name. simpl. rewrite orb_false_r.
    destruct (String.eqb_spec (file_name_of (drop_last 5 file_name)) name)
      as [<- | Hne].
    + apply lookup_delete_eq.
    + by apply lookup_delete_ne.
  - eexists. split; [reflexivity|]. split; [auto using paired|].
    intros name. reflexivity.
Qed.

Lemma retry_loop_spec (entries : list (string * file)) (l : retry_loop G) :
  ∃ new,
    r_log G (fold_left (retry_one G stub) entries l) = (r_log G l ++ new)%list
    ∧ paired new
    ∧ ∀ name,
        pending_dir (r_self G (fold_left (retry_one G stub) entries l)) !! name
        = if removed_in new name then None
          else pending_dir (r_self G l) !! name.
Proof.
  revert l. induction entries as [|entry rest IH]; intros l; simpl.
  - exists []. rewrite app_nil_r. auto using paired.
  - destruct (retry_one_spec l entry) as (new1 & Hlog1 & Hp1 & Hdir1).
    destruct (IH (retry_one G stub l entry)) as (new2 & Hlog2 & Hp2 & Hdir2).
    exists (new1 ++ new2)%list. split; [|split].
    + by rewrite Hlog2, Hlog1, app_assoc.
    + by apply paired_app.
    + intros name. rewrite Hdir2, Hdir1, removed_in_app.
      destruct (removed_in new1 name), (removed_in new2 name); reflexivity.
Qed.

Lemma send_observed (self : state) (g : G) (xs : list exchange)
    (k ra rb : string) (amt : Q) :
  let request := {| Proto.token := token_string self;
                    sender_account := "self"; receiver_account := ra;
                    receiver_bank := rb; amount := amt; payment_id := k |} in
  let md := [("token", token_string self)] in
  let r := snd (stub g md request) in
  fst (_send_payment _ (observed stub) self (g, xs) k ra rb amt)
  = (fst (stub g md request), (xs ++ [((md, request), r)])%list)
  ∧ fst (snd (_send_payment _ (observed stub) self (g, xs) k ra rb amt))
    = succeeded r.
Proof.
  unfold _send_payment, observed. simpl.
  destruct (stub g _ _) as [g' [resp|c d0]]; simpl; [|done].
  by destruct (success resp).
Qed.

Lemma retry_one_observed (self : state) (l : retry_loop (G * list exchange))
    (entry : string * file) :
  token (r_self _ l) = token self →
  let l' := retry_one _ (observed stub) l entry in
  ∃ new,
    token (r_self _ l') = token self
    ∧ r_gateway _ l'
      = asked stub (r_gateway _ l)
          (map (call_of self) (option_list (listed entry)))
    ∧ snd (r_gateway _ l') = (snd (r_gateway _ l) ++ new)%list
    ∧ map fst new = map (call_of self) (option_list (listed entry))
    ∧ r_success _ l'
      = r_success _ l && forallb (fun x => succeeded (snd x)) new
    ∧ r_log _ l' = (r_log _ l ++ flat_map actions_of new)%list
    ∧ pending_dir (r_self _ l') = cleared (pending_dir (r_self _ l)) new.
Proof.
  intros Htok. destruct entry as [f c]. unfold retry_one, listed.
  unfold asked.
  destruct (endswith f ".json"); simpl.
  2: { exists []. by rewrite !app_nil_r, andb_true_r. }
  destruct c as [t|]; simpl.
  2: { exists []. by rewrite !app_nil_r, andb_true_r. }
  destruct (r_gateway _ l) as [g xs] eqn:Hgw.
  pose proof (send_observed (r_self _ l) g xs (drop_last 5 f)
                (t_receiver_account t) (t_receiver_bank t) (t_amount t))
    as [Hg Hok].
  destruct (_send_payment _ (observed stub) _ _ _ _ _ _)
    as [g' [ok msg]].
  simpl in Hg, Hok. subst g' ok.
  eexists [_]. unfold call_of, request_of, token_string, actions_of, cleared.
  simpl. rewrite <- Htok.
  destruct (succeeded _) eqn:Hs; simpl.
  all: split; [done|]; split; [unfold observed; simpl; by destruct (stub g _ _)|].
  all: split; [reflexivity|]; simpl; rewrite Hs; simpl.
  - by rewrite andb_true_r.
  - by rewrite andb_false_r.
Qed.

Lemma retry_loop_observed (self : state) (entries : list (string * file))
    (l : retry_loop (G * list exchange)) :
  token (r_self _ l) = token self →
  let l' := fold_left (retry_one _ (observed stub)) entries l in
  ∃ new,
    token (r_self _ l') = token self
    ∧ r_gateway _ l'
      = asked stub (r_gateway _ l) (map (call_of self) (omap listed entries))
    ∧ snd (r_gateway _ l') = (snd (r_gateway _ l) ++ new)%list
    ∧ map fst new = map (call_of self) (omap listed entries)
    ∧ r_success _ l'
      = r_success _ l && forallb (fun x => succeeded (snd x)) new
    ∧ r_log _ l' = (r_log _ l ++ flat_map actions_of new)%list
    ∧ pending_dir (r_self _ l') = cleared (pending_dir (r_self _ l)) new.
Proof.
  revert l. induction entries as [|entry rest IH]; intros l Htok; simpl.
  - exists []. by rewrite !app_nil_r, andb_true_r.
  - destruct (retry_one_observed self l entry Htok)
      as (new1 & Htok1 & Ha1 & Hg1 & Hc1 & Hs1 & Hl1 & Hd1).
    destruct (IH _ Htok1) as (new2 & Htok2 & Ha & Hg & Hc & Hs & Hl & Hd).
    exists (new1 ++ new2)%list. split_and!.
    + exact Htok2.
    + rewrite Ha, Ha1. unfold asked.
      destruct (listed entry); reflexivity.
    + by rewrite Hg, Hg1, app_assoc.
    + rewrite map_app.
      destruct (listed entry); exact (f_equal2 app Hc1 Hc).
    + by rewrite Hs, Hs1, forallb_app, andb_assoc.
    + by rewrite Hl, Hl1, flat_map_app, app_assoc.
    + rewrite Hd, Hd1. unfold cleared. by rewrite fold_left_app.
Qed.

Lemma cleared_lookup (xs : list exchange) (dir : gmap string file)
    (name : string) :
  cleared dir xs !! name
  = if existsb (fun x => succeeded (snd x)
                         && String.eqb
                              (file_name_of (payment_id (snd (fst x)))) name) xs
    then None else dir !! name.
Proof.
  revert dir. induction xs as [|x rest IH]; intros dir; simpl; [done|].
  unfold cleared in *. simpl. rewrite IH.
  match goal with
  | |- context [existsb ?f rest] => destruct (existsb f rest)
  end; [by rewrite orb_true_r|]. rewrite orb_false_r.
  destruct (succeeded (snd x)); simpl; [|done].
  destruct (String.eqb_spec (file_name_of (payment_id (snd (fst x)))) name)
    as [<-|Hne].
  - apply lookup_delete_eq.
  - by apply lookup_delete_ne.
Qed.

(** C8, amended: a client that is connected and holds a token, against
    any gateway.  [make_payment], for a payment id that is a plain file
    name, writes the pending record and then sends one request, the
    record's; it reports success exactly when the gateway's answer does,
    and then the record is deleted; after any other answer, an RPC error
    included, the record is in place.  [retry_pending_transactions] sends
    one request for each record listed, in listing order, and nothing
    else: what the gateway was asked and answered is what asking it these
    requests one after the other gives; the retry reports
    success exactly when every answer does; it deletes a record right
    after the answer to its request, when that answer reports success,
    and the records listed afterwards are exactly those whose request was
    answered otherwise, the gateway's cached failures among them. *)
Theorem record_is_removed_exactly_on_success (self : state) (g : G)
    (receiver_account receiver_bank : string) (amount : Q)
    (use_fixed_id : bool) (fixed_id : option string)
    (fresh : string) (now : Q) :
  is_connected self = true →
  no_token self = false →
  plain (chosen_id use_fixed_id fixed_id fresh) = true →
  (let p := chosen_id use_fixed_id fixed_id fresh in
   let t := {| t_receiver_account := receiver_account;
               t_receiver_bank := receiver_bank;
               t_amount := amount; t_timestamp := now |} in
   let written := <[file_name_of p := Json t]> (pending_dir self) in
   let '(s', (g', xs), log, (ok, _, pid)) :=
     make_payment _ (observed stub) self (g, []) receiver_account
       receiver_bank amount use_fixed_id fixed_id fresh now in
   ∃ r, stub g (fst (call_of self (p, t))) (snd (call_of self (p, t)))
        = (g', r)
        ∧ xs = [(call_of self (p, t), r)]
        ∧ pid = Some p
        ∧ ok = succeeded r
        ∧ log = Wrote (file_name_of p) :: actions_of (call_of self (p, t), r)
        ∧ pending_dir s'
          = if succeeded r then delete (file_name_of p) written else written)
  ∧ (let '(s', (g', xs), log, (ok, _)) :=
       retry_pending_transactions _ (observed stub) self (g, []) in
     (g', xs)
     = asked stub (g, [])
         (map (call_of self) (get_pending_transactions self))
     ∧ map fst xs = map (call_of self) (get_pending_transactions self)
     ∧ ok = forallb (fun x => succeeded (snd x)) xs
     ∧ log = flat_map actions_of xs
     ∧ ∀ k t, (k, t) ∈ get_pending_transactions s'
              ↔ (k, t) ∈ get_pending_transactions self
                ∧ ∀ r, (call_of self (k, t), r) ∈ xs → succeeded r = false).
Proof.
  intros Hconn Htok _. split.
  - unfold make_payment. rewrite Hconn, Htok. simpl.
    fold (chosen_id use_fixed_id fixed_id fresh).
    set (p := chosen_id use_fixed_id fixed_id fresh).
    pose proof (send_observed
                  (_add_to_pending_transactions self p
                     {| t_receiver_account := receiver_account;
                        t_receiver_bank := receiver_bank;
                        t_amount := amount; t_timestamp := now |})
                  g [] p receiver_account receiver_bank amount)
      as [Hg Hok].
    destruct (_send_payment _ (observed stub) _ _ _ _ _ _)
      as [[g' xs] [ok msg]].
    simpl in Hg, Hok. injection Hg as -> ->. subst ok.
    unfold call_of, request_of, actions_of, token_string. simpl.
    destruct (stub g _ _) as [g' r] eqn:Hst. simpl.
    destruct (succeeded r) eqn:Hs.
    + exists r. simpl. rewrite Hs. by split_and!.
    + destruct (Py.contains "UNAVAILABLE" msg); exists r; simpl; rewrite Hs;
        by split_and!.
  - unfold retry_pending_transactions. rewrite Hconn, Htok. simpl.
    destruct (retry_loop_observed self (map_to_list (pending_dir self))
                {| r_self := self; r_gateway := (g, []); r_log := [];
                   r_success := true; r_retried_count := 0;
                   r_success_count := 0 |} eq_refl)
      as (new & _ & Ha & Hg & Hc & Hs & Hl & Hd).
    simpl in Ha, Hg, Hs, Hl, Hd.
    change (omap listed (map_to_list (pending_dir self)))
      with (get_pending_transactions self) in Hc, Ha.
    destruct (r_gateway _ _) as [g' xs]. simpl in Hg. subst xs.
    split; [exact Ha|].
    split; [exact Hc|]. split; [exact Hs|]. split; [exact Hl|].
    intros k t. rewrite !get_pending_transactions_spec.
    match goal with
    | |- ?X !! _ = _ ↔ _ =>
        replace X with (cleared (pending_dir self) new)
          by (symmetry; exact Hd)
    end.
    rewrite cleared_lookup.
    destruct (existsb _ _) eqn:Hex.
    + split; [discriminate|]. intros [Hin Hno]. exfalso.
      apply existsb_exists in Hex as ([c r] & Hin' & Hcond).
      apply andb_prop in Hcond as [Hok' Hname]. simpl in Hok', Hname.
      apply String.eqb_eq, file_name_of_inj in Hname.
      assert (c ∈ map (call_of self) (get_pending_transactions self)) as Hcin.
      { rewrite <- Hc. apply list_elem_of_fmap. exists (c, r). split; [done|].
        by apply list_elem_of_In. }
      apply list_elem_of_fmap in Hcin as ([k' t'] & -> & Hlisted).
      simpl in Hname. subst k'.
      apply get_pending_transactions_spec in Hlisted.
      rewrite Hin in Hlisted. injection Hlisted as <-.
      apply list_elem_of_In in Hin'. specialize (Hno r Hin'). congruence.
    + split; [|by intros [? _]]. intros Hin. split; [done|].
      intros r Hr. destruct (succeeded r) eqn:Hok; [|done]. exfalso.
      assert (existsb (fun x => succeeded (snd x)
                         && String.eqb
                              (file_name_of (payment_id (snd (fst x))))
                              (file_name_of k)) new = true) as Hyes;
        [|congruence].
      apply existsb_exists. exists (call_of self (k, t), r). split.
      * by apply list_elem_of_In.
      * simpl. by rewrite Hok, String.eqb_refl.
Qed.


(** *** Observation changes nothing *)

Lemma send_unobserved (self : state) (g : G) (xs : list exchange)
    (k ra rb : string) (amt : Q) :
  _send_payment G stub self g k ra rb amt
  = (fst (fst (_send_payment _ (observed stub) self (g, xs) k ra rb amt)),
     snd (_send_payment _ (observed stub) self (g, xs) k ra rb amt)).
Proof.
  unfold _send_payment, observed. simpl.
  destruct (stub g _ _) as [g' [resp|c d0]]; simpl; [|done].
  by destruct (success resp).
Qed.

Lemma retry_one_unobserved (l : retry_loop (G * list exchange))
    (entry : string * file) :
  retry_one G stub (unobserved l) entry
  = unobserved (retry_one _ (observed stub) l entry).
Proof.
  destruct l as [s [g xs] log ok n m].
  destruct entry as [f c]. unfold retry_one, unobserved. simpl.
  destruct (endswith f ".json"); simpl; [|done].
  destruct c as [t|]; [|done].
  rewrite (send_unobserved s g xs).
  destruct (_send_payment _ (observed stub) _ _ _ _ _ _)
    as [[g' xs'] [ok' msg]]. simpl.
  by destruct ok'.
Qed.

Lemma retry_loop_unobserved (entries : list (string * file))
    (l : retry_loop (G * list exchange)) :
  fold_left (retry_one G stub) entries (unobserved l)
  = unobserved (fold_left (retry_one _ (observed stub)) entries l).
Proof.
  revert l. induction entries as [|entry rest IH]; intros l; simpl; [done|].
  by rewrite retry_one_unobserved, IH.
Qed.

(** The client cannot tell an observed gateway from the gateway itself:
    the run against [stub] is the run against [observed stub] with the
    exchanges dropped. *)
Lemma observation_is_silent (self : state) (g : G) (xs : list exchange)
    (receiver_account receiver_bank : string) (amount : Q)
    (use_fixed_id : bool) (fixed_id : option string)
    (fresh : string) (now : Q) :
  make_payment G stub self g receiver_account receiver_bank amount
    use_fixed_id fixed_id fresh now
  = (let '(s', (g', _), log, out) :=
       make_payment _ (observed stub) self (g, xs) receiver_account
         receiver_bank amount use_fixed_id fixed_id fresh now in
     (s', g', log, out))
  ∧ retry_pending_transactions G stub self g
    = (let '(s', (g', _), log, out) :=
         retry_pending_transactions _ (observed stub) self (g, xs) in
       (s', g', log, out)).
Proof.
  split.
  - unfold make_payment.
    destruct (negb (is_connected self) || no_token self); [done|].
    rewrite (send_unobserved _ g xs).
    destruct (_send_payment _ (observed stub) _ _ _ _ _ _)
      as [[g' xs'] [ok msg]]. simpl.
    destruct ok; [done|]. by destruct (Py.contains "UNAVAILABLE" msg).
  - unfold retry_pending_transactions.
    destruct (negb (is_connected self) || no_token self); [done|].
    pose proof (retry_loop_unobserved (map_to_list (pending_dir self))
                  {| r_self := self; r_gateway := (g, xs); r_log := [];
                     r_success := true; r_retried_count := 0;
                     r_success_count := 0 |}) as H.
    unfold unobserved in H at 1. simpl in H. rewrite H.
    destruct (fold_left (retry_one _ (observed stub)) _ _)
      as [s' [g' xs'] log ok n m]. reflexivity.
Qed.

End with_gateway.

Lemma record_is_removed_exactly_on_success_witness :
  (let p := chosen_id false None "p-1" in
   let t := {| t_receiver_account := "ACC002";
               t_receiver_bank := "Bank2";
               t_amount := 150; t_timestamp := 1000 |} in
   let written :=
     <[file_name_of p := Json t]> (pending_dir Scenario2.client_pending) in
   let '(s', (g', xs), log, (ok, _, pid)) :=
     make_payment _ (observed World.stub_ProcessPayment)
       Scenario2.client_pending
       ((Scenario.gateway0, World.sample_world), []) "ACC002" "Bank2" 150
       false None "p-1" 1000 in
   ∃ r, World.stub_ProcessPayment (Scenario.gateway0, World.sample_world)
          (fst (call_of Scenario2.client_pending (p, t)))
          (snd (call_of Scenario2.client_pending (p, t)))
        = (g', r)
        ∧ xs = [(call_of Scenario2.client_pending (p, t), r)]
        ∧ pid = Some p
        ∧ ok = succeeded r
        ∧ log = Wrote (file_name_of p)
                :: actions_of (call_of Scenario2.client_pending (p, t), r)
        ∧ pending_dir s'
          = if succeeded r then delete (file_name_of p) written else written)
  ∧ (let '(s', (g', xs), log, (ok, _)) :=
       retry_pending_transactions _ (observed World.stub_ProcessPayment)
         Scenario2.client_pending
         ((Scenario.gateway0, World.sample_world), []) in
     (g', xs)
     = asked World.stub_ProcessPayment
         ((Scenario.gateway0, World.sample_world), [])
         (map (call_of Scenario2.client_pending)
            (get_pending_transactions Scenario2.client_pending))
     ∧ map fst xs = map (call_of Scenario2.client_pending)
                      (get_pending_transactions Scenario2.client_pending)
     ∧ ok = forallb (fun x => succeeded (snd x)) xs
     ∧ log = flat_map actions_of xs
     ∧ ∀ k t, (k, t) ∈ get_pending_transactions s'
              ↔ (k, t) ∈ get_pending_transactions Scenario2.client_pending
                ∧ ∀ r, (call_of Scenario2.client_pending (k, t), r) ∈ xs
                       → succeeded r = false).
Proof.
  apply (record_is_removed_exactly_on_success _ World.stub_ProcessPayment
           Scenario2.client_pending (Scenario.gateway0, World.sample_world)
           "ACC002" "Bank2" 150 false None "p-1" 1000); reflexivity.
Defined.

(** C8, as stated, fails in its last part.  The client pays to a bank the
    gateway does not know, under the payment id [p-3]: the gateway caches
    the failure, the record stays.  The retry of [p-3] is answered with
    that cached failure, and the client does not delete the record. *)
Lemma cached_failure_leaves_the_record :
  let '(c1, gw1, log1, res1) := Scenario.after_payment_to_unknown_bank in
  let '(c2, gw2, log2, res2) := Scenario.after_retry in
  res1 = (false, "Receiver bank BankZ not found", Some "p-3")
  ∧ Gateway.PROCESSED_KEYS (fst gw1) !! "p-3"
    = Some (Gateway.response false "" "failed" "Receiver bank BankZ not found")
  ∧ log1 = [Wrote "p-3.json"; Sent "p-3" false]
  ∧ log2 = [Sent "p-3" false]
  ∧ res2 = (false, "Retried 1 transactions, 0 succeeded")
  ∧ pending_dir c2 !! "p-3.json"
    = Some (Json {| t_receiver_account := "ACC999";
                    t_receiver_bank := "BankZ";
                    t_amount := 1; t_timestamp := 1000 |}).
Proof. vm_compute. repeat split; reflexivity. Qed.

End ClientProps.

(** * Further properties of the bank *)

Module BankExtra.
Import Proto Grpc Bank BankQueries.

(** ** The table of users *)

(** ** Floats *)

(** One half, 850 and [2^53] are floats; one tenth and [2^53 + 1] are
    not.  The float nearest to one tenth is one, and subtracting it from
    1000 has to round: that move is not exact. *)
Example is_float_samples :
  Py.is_float (1 # 2) = true
  ∧ Py.is_float 850 = true
  ∧ Py.is_float 9007199254740992 = true
  ∧ Py.is_float (1 # 10) = false
  ∧ Py.is_float 9007199254740993 = false
  ∧ Py.is_float (3602879701896397 # 36028797018963968) = true
  ∧ exact_move "debit" (3602879701896397 # 36028797018963968) 1000 = false
  ∧ exact_move "debit" 150 1000 = true.
Proof. by vm_compute. Qed.

Lemma lt_false (x y : Q) : Py.lt x y = false → (y <= x)%Q.
Proof. unfold Py.lt. by destruct (Qlt_le_dec x y). Qed.

Lemma lt_true (x y : Q) : Py.lt x y = true → (x < y)%Q.
Proof. unfold Py.lt. by destruct (Qlt_le_dec x y). Qed.

Lemma find_account_elem (us : list (string * user_data)) (acc u : string)
    (d : user_data) :
  find_account us acc = Some (u, d) → (u, d) ∈ us ∧ account_id d = acc.
Proof.
  induction us as [|[u0 d0] rest IH]; simpl; [discriminate|].
  destruct (String.eqb_spec (account_id d0) acc) as [Hacc|Hacc].
  - intros [= <- <-]. split; [left | exact Hacc].
  - intros H. destruct (IH H) as [Hin Hd]. split; [by right | exact Hd].
Qed.

Lemma users_get_elem (us : list (string * user_data)) (u : string)
    (d : user_data) :
  users_get us u = Some d → (u, d) ∈ us.
Proof.
  induction us as [|[u0 d0] rest IH]; simpl; [discriminate|].
  destruct (String.eqb_spec u0 u) as [->|Hne].
  - intros [= ->]. left.
  - intros H. right. by apply IH.
Qed.

Lemma elem_find_account (us : list (string * user_data)) (u : string)
    (d : user_data) :
  (u, d) ∈ us → is_Some (find_account us (account_id d)).
Proof.
  induction us as [|[u0 d0] rest IH]; [by intros ?%elem_of_nil|].
  intros Hin. simpl.
  destruct (String.eqb_spec (account_id d0) (account_id d)); [by eexists|].
  apply elem_of_cons in Hin as [[= -> ->] | Hin]; [done | by apply IH].
Qed.

Lemma find_account_users_get (us : list (string * user_data)) (acc u : string)
    (d : user_data) :
  NoDup (map fst us) → find_account us acc = Some (u, d) →
  users_get us u = Some d.
Proof.
  induction us as [|[u0 d0] rest IH]; simpl; [discriminate|].
  intros Hnd. apply NoDup_cons in Hnd as [Hnotin Hnd].
  destruct (String.eqb_spec (account_id d0) acc) as [Hacc|Hacc].
  - intros [= <- <-]. by rewrite String.eqb_refl.
  - intros H. destruct (String.eqb_spec u0 u) as [->|Hne]; [|by apply IH].
    exfalso. apply Hnotin. apply find_account_elem in H as [Hin _].
    apply list_elem_of_fmap. by exists (u, d).
Qed.

Lemma users_adjust_keys (us : list (string * user_data)) (u : string)
    (f : Q → Q) :
  map (fun ud => (fst ud, account_id (snd ud), password (snd ud),
                  name (snd ud)))
      (users_adjust us u f)
  = map (fun ud => (fst ud, account_id (snd ud), password (snd ud),
                    name (snd ud))) us.
Proof.
  induction us as [|[u0 d0] rest IH]; simpl; [reflexivity|].
  destruct (String.eqb u0 u); simpl; [reflexivity | by rewrite IH].
Qed.

(** After [self.users[u]["balance"] = f(...)], the account of [u] shows the
    new balance ... *)
Lemma find_account_adjust (us : list (string * user_data)) (acc u : string)
    (d : user_data) (f : Q → Q) :
  NoDup (map fst us) → find_account us acc = Some (u, d) →
  find_account (users_adjust us u f) acc
  = Some (u, with_balance d (f (balance d))).
Proof.
  induction us as [|[u0 d0] rest IH]; simpl; [discriminate|].
  intros Hnd. apply NoDup_cons in Hnd as [Hnotin Hnd].
  destruct (String.eqb_spec (account_id d0) acc) as [Hacc|Hacc].
  - intros [= <- <-]. rewrite String.eqb_refl. simpl.
    destruct (String.eqb_spec (account_id d0) acc); [reflexivity | done].
  - intros H. destruct (String.eqb_spec u0 u) as [->|Hne].
    + exfalso. apply Hnotin. apply find_account_elem in H as [Hin _].
      apply list_elem_of_fmap. by exists (u, d).
    + simpl. destruct (String.eqb_spec (account_id d0) acc); [done|].
      by apply IH.
Qed.

(** ... and every other account shows what it showed. *)
Lemma find_account_adjust_other (us : list (string * user_data))
    (acc acc' u : string) (d : user_data) (f : Q → Q) :
  NoDup (map fst us) → find_account us acc = Some (u, d) → acc' ≠ acc →
  find_account (users_adjust us u f) acc' = find_account us acc'.
Proof.
  induction us as [|[u0 d0] rest IH]; simpl; [discriminate|].
  intros Hnd. apply NoDup_cons in Hnd as [Hnotin Hnd].
  destruct (String.eqb_spec (account_id d0) acc) as [Hacc|Hacc].
  - intros [= <- <-] Hne. rewrite String.eqb_refl. simpl.
    destruct (String.eqb_spec (account_id d0) acc'); [congruence | reflexivity].
  - intros H Hne'. destruct (String.eqb_spec u0 u) as [->|Hne].
    + exfalso. apply Hnotin. apply find_account_elem in H as [Hin _].
      apply list_elem_of_fmap. by exists (u, d).
    + simpl. destruct (String.eqb (account_id d0) acc'); [reflexivity|].
      by apply IH.
Qed.

Lemma elem_users_get (us : list (string * user_data)) (u : string)
    (d : user_data) :
  NoDup (map fst us) → (u, d) ∈ us → users_get us u = Some d.
Proof.
  induction us as [|[u0 d0] rest IH]; intros Hnd Hin;
    [by apply elem_of_nil in Hin|].
  apply NoDup_cons in Hnd as [Hnotin Hnd]. simpl.
  apply elem_of_cons in Hin as [[= <- <-] | Hin].
  - by rewrite String.eqb_refl.
  - destruct (String.eqb_spec u0 u) as [->|]; [|by apply IH].
    exfalso. apply Hnotin. apply list_elem_of_fmap. by exists (u, d).
Qed.

Lemma users_ok_sample : users_ok Scenario.bank1.
Proof. unfold users_ok. apply (bool_decide_unpack _). by vm_compute. Qed.

(** ** The direct path ([ProcessTransaction]) *)

(** A call with a payment id leaves its result under that id. *)
Lemma ProcessTransaction_remembers (s : state) (e : env)
    (r : BankTransactionRequest) :
  Py.truthy (bt_payment_id r) = true →
  let (s', a) := ProcessTransaction s e r in
  processed_transactions s' !! bt_payment_id r
  = Some (bt_success (value a), bt_message (value a)).
Proof.
  intros Hpid. unfold ProcessTransaction, remember. rewrite Hpid.
  destruct (processed_transactions s !! bt_payment_id r) as [[ok msg]|] eqn:Hc;
    [exact Hc|].
  destruct (find_account (users s) (bt_account_id r)) as [[u d]|];
    [|simpl; apply lookup_insert_eq].
  destruct (String.eqb (bt_type r) "debit").
  { destruct (Py.lt (balance d) (bt_amount r)); simpl; apply lookup_insert_eq. }
  destruct (String.eqb (bt_type r) "credit"); simpl; apply lookup_insert_eq.
Qed.

Lemma ProcessTransaction_hit (s : state) (e : env)
    (r : BankTransactionRequest) (ok : bool) (msg : string) :
  Py.truthy (bt_payment_id r) = true →
  processed_transactions s !! bt_payment_id r = Some (ok, msg) →
  ProcessTransaction s e r
  = (s, Grpc.ok {| bt_success := ok; bt_message := msg |}).
Proof. intros Hpid Hc. unfold ProcessTransaction. by rewrite Hpid, Hc. Qed.

(** X1: a second [ProcessTransaction] under a payment id that is not
    empty, whatever else it asks for, is answered with the success flag
    and the message of the first and changes nothing: no second debit or
    credit, no second ledger entry. *)
Theorem ProcessTransaction_replay (s : state) (e1 e2 : env)
    (r1 r2 : BankTransactionRequest) :
  Py.truthy (bt_payment_id r1) = true →
  bt_payment_id r2 = bt_payment_id r1 →
  let (s1, a1) := ProcessTransaction s e1 r1 in
  let (s2, a2) := ProcessTransaction s1 e2 r2 in
  value a2 = value a1 ∧ code a2 = OK ∧ s2 = s1.
Proof.
  intros Hpid Hsame.
  pose proof (ProcessTransaction_remembers s e1 r1 Hpid) as Hrem.
  destruct (ProcessTransaction s e1 r1) as [s1 a1].
  rewrite <- Hsame in Hrem, Hpid.
  rewrite (ProcessTransaction_hit s1 e2 r2 _ _ Hpid Hrem).
  simpl. by destruct (value a1).
Qed.

Lemma ProcessTransaction_replay_witness :
  let (s1, a1) := ProcessTransaction Scenario.bank1 Scenario.env0
                    Scenario2.direct_debit in
  let (s2, a2) := ProcessTransaction s1 Scenario.env0
                    Scenario2.direct_debit in
  value a2 = value a1 ∧ code a2 = OK ∧ s2 = s1.
Proof.
  apply (ProcessTransaction_replay Scenario.bank1 Scenario.env0 Scenario.env0
           Scenario2.direct_debit Scenario2.direct_debit); reflexivity.
Defined.

(** X2: a [ProcessTransaction] that reports failure (insufficient funds,
    unknown account, a type that is neither debit nor credit, a replayed
    failure) has moved no money and written no ledger entry. *)
Theorem ProcessTransaction_failure_is_clean (s : state) (e : env)
    (r : BankTransactionRequest) :
  bt_success (value (snd (ProcessTransaction s e r))) = false →
  users (fst (ProcessTransaction s e r)) = users s
  ∧ transactions (fst (ProcessTransaction s e r)) = transactions s
  ∧ prepared_transactions (fst (ProcessTransaction s e r))
    = prepared_transactions s.
Proof.
  unfold ProcessTransaction, remember.
  destruct (if Py.truthy (bt_payment_id r)
            then processed_transactions s !! bt_payment_id r else None)
    as [[ok msg]|]; [by simpl|].
  destruct (find_account (users s) (bt_account_id r)) as [[u d]|].
  2: { by destruct (Py.truthy (bt_payment_id r)). }
  destruct (String.eqb (bt_type r) "debit").
  { destruct (Py.lt (balance d) (bt_amount r)); simpl; [|discriminate].
    by destruct (Py.truthy (bt_payment_id r)). }
  destruct (String.eqb (bt_type r) "credit"); simpl; [discriminate|].
  by destruct (Py.truthy (bt_payment_id r)).
Qed.

Lemma ProcessTransaction_failure_is_clean_witness :
  users (fst (ProcessTransaction Scenario.bank1 Scenario.env0
                Scenario2.direct_overdraft)) = users Scenario.bank1
  ∧ transactions (fst (ProcessTransaction Scenario.bank1 Scenario.env0
                         Scenario2.direct_overdraft))
    = transactions Scenario.bank1
  ∧ prepared_transactions (fst (ProcessTransaction Scenario.bank1
                                  Scenario.env0 Scenario2.direct_overdraft))
    = prepared_transactions Scenario.bank1.
Proof.
  apply (ProcessTransaction_failure_is_clean Scenario.bank1 Scenario.env0
           Scenario2.direct_overdraft).
  reflexivity.
Defined.

Lemma ledger_record_transaction (s : state) (e : env) (acc ty : string)
    (amt : Q) (counterparty : string) (tx : option string) (acc' : string) :
  ledger (record_transaction s e acc ty amt counterparty tx) acc'
  = if decide (acc = acc')
    then (ledger s acc
          ++ [entry (match tx with
                     | Some t => if Py.truthy t then t else uuid4 e
                     | None => uuid4 e
                     end) ty amt counterparty e])%list
    else ledger s acc'.
Proof.
  unfold ledger, record_transaction. simpl.
  destruct (decide (acc = acc')) as [<-|Hne].
  - by rewrite lookup_insert_eq.
  - by rewrite lookup_insert_ne.
Qed.

(** X3: a [ProcessTransaction] that is not a replay and reports success,
    on an account of a bank whose user names are unique, was a debit or a
    credit; it appended one completed entry under a fresh id to the ledger
    of that account; no other account and no other ledger changed.  When
    the move is exact (the balance, the amount and their difference, or
    sum, are floats, so that nothing is rounded), the balance of the
    account moved by exactly the amount, and a debit did not leave it
    below zero. *)
Theorem ProcessTransaction_moves_money (s : state) (e : env)
    (r : BankTransactionRequest) (u : string) (d : user_data) :
  users_ok s →
  (if Py.truthy (bt_payment_id r)
   then processed_transactions s !! bt_payment_id r else None) = None →
  find_account (users s) (bt_account_id r) = Some (u, d) →
  bt_success (value (snd (ProcessTransaction s e r))) = true →
  let s' := fst (ProcessTransaction s e r) in
  (bt_type r = "debit" ∨ bt_type r = "credit")
  ∧ (exact_move (bt_type r) (bt_amount r) (balance d) = true →
     balance_of s' (bt_account_id r)
     = Some (settled (bt_type r) (bt_amount r) (balance d))
     ∧ (bt_type r = "debit"
        → (0 <= settled (bt_type r) (bt_amount r) (balance d))%Q))
  ∧ ledger s' (bt_account_id r)
    = (ledger s (bt_account_id r)
       ++ [entry (uuid4 e) (bt_type r) (bt_amount r) (bt_counterparty r) e])%list
  ∧ ∀ acc', acc' ≠ bt_account_id r →
      balance_of s' acc' = balance_of s acc' ∧ ledger s' acc' = ledger s acc'.
Proof.
  intros Hok Hmiss Hfind. unfold ProcessTransaction. rewrite Hmiss, Hfind.
  unfold settled.
  destruct (String.eqb_spec (bt_type r) "debit") as [Hty|Hty].
  - destruct (Py.lt (balance d) (bt_amount r)) eqn:Hlt; simpl; [discriminate|].
    intros _. split; [by left|].
    assert (Hs : ∀ s0, users (remember s0 (bt_payment_id r)
                 {| bt_success := true;
                    bt_message := "Debit successful. New balance: "
                                  ++ Py.str_float (balance d - bt_amount r) |})
                 = users s0
               ∧ transactions (remember s0 (bt_payment_id r)
                 {| bt_success := true;
                    bt_message := "Debit successful. New balance: "
                                  ++ Py.str_float (balance d - bt_amount r) |})
                 = transactions s0).
    { intros s0. unfold remember. by destruct (Py.truthy _). }
    unfold balance_of, ledger. rewrite !(proj1 (Hs _)), !(proj2 (Hs _)).
    simpl. rewrite (find_account_adjust _ _ _ _ _ Hok Hfind). simpl.
    rewrite lookup_insert_eq. rewrite Hty.
    split.
    { intros _. split; [reflexivity|]. intros _. apply lt_false in Hlt. lra. }
    split; [reflexivity|].
    intros acc' Hne.
    rewrite (find_account_adjust_other _ _ _ _ _ _ Hok Hfind Hne).
    by rewrite lookup_insert_ne.
  - destruct (String.eqb_spec (bt_type r) "credit") as [Hty'|Hty'];
      simpl; [|discriminate].
    intros _. split; [by right|].
    assert (Hs : ∀ s0, users (remember s0 (bt_payment_id r)
                 {| bt_success := true;
                    bt_message := "Credit successful. New balance: "
                                  ++ Py.str_float (balance d + bt_amount r) |})
                 = users s0
               ∧ transactions (remember s0 (bt_payment_id r)
                 {| bt_success := true;
                    bt_message := "Credit successful. New balance: "
                                  ++ Py.str_float (balance d + bt_amount r) |})
                 = transactions s0).
    { intros s0. unfold remember. by destruct (Py.truthy _). }
    unfold balance_of, ledger. rewrite !(proj1 (Hs _)), !(proj2 (Hs _)).
    simpl. rewrite (find_account_adjust _ _ _ _ _ Hok Hfind). simpl.
    rewrite lookup_insert_eq. rewrite Hty'.
    split; [by intros _; split; [|intros ?]|].
    split; [reflexivity|].
    intros acc' Hne.
    rewrite (find_account_adjust_other _ _ _ _ _ _ Hok Hfind Hne).
    by rewrite lookup_insert_ne.
Qed.

(** A debit of 300 from the 1000 of [ACC001]: the account holds 700. *)
Lemma ProcessTransaction_moves_money_witness :
  let s' := fst (ProcessTransaction Scenario.bank1 Scenario.env0
                   Scenario2.direct_debit) in
  exact_move "debit" 300 1000 = true
  ∧ balance_of s' "ACC001" = Some (settled "debit" 300 1000)
  ∧ (0 <= settled "debit" 300 1000)%Q
  ∧ ledger s' "ACC001"
    = (ledger Scenario.bank1 "ACC001"
       ++ [entry "bank-uuid" "debit" 300 "Bank2/ACC002" Scenario.env0])%list
  ∧ ∀ acc', acc' ≠ "ACC001" →
      balance_of s' acc' = balance_of Scenario.bank1 acc'
      ∧ ledger s' acc' = ledger Scenario.bank1 acc'.
Proof.
  destruct (ProcessTransaction_moves_money Scenario.bank1 Scenario.env0
              Scenario2.direct_debit "user1"
              {| password := "pass1"; account_id := "ACC001";
                 name := "User 1"; balance := 1000 * inject_Z 1 |}
              users_ok_sample eq_refl eq_refl eq_refl)
    as (_ & Hexact & Hledger & Hothers).
  destruct (Hexact eq_refl) as [Hbalance Hfloor].
  split; [reflexivity|]. split; [exact Hbalance|].
  split; [exact (Hfloor eq_refl)|]. split; [exact Hledger | exact Hothers].
Defined.

(** ** Prepare, commit and abort together *)

(** X4: on a bank whose user names are unique, a prepare under an id the
    table does not hold that votes ready, followed by the commit of that
    id, succeeds.  One completed entry is appended to the ledger of the
    account; it carries the transaction id, or a fresh uuid when that id
    is the empty string.  The table of prepared transactions is what it
    was before the prepare, and no other account or ledger changes.  When
    the move is exact (the balance, the amount and the result are floats,
    so that nothing is rounded), the balance of the account is down by
    the amount for a debit, up by it for a credit, and what it was for
    any other type. *)
Theorem prepare_then_commit (s : state) (e1 e2 : env)
    (r : PrepareTransactionRequest) (u : string) (d : user_data) :
  users_ok s →
  prepared_transactions s !! prep_transaction_id r = None →
  find_account (users s) (prep_account_id r) = Some (u, d) →
  ready (snd (PrepareTransaction s e1 r)) = true →
  let s1 := fst (PrepareTransaction s e1 r) in
  let (s2, c) := CommitTransaction s1 e2
                   {| commit_transaction_id := prep_transaction_id r |} in
  commit_success c = true
  ∧ (exact_move (prep_type r) (prep_amount r) (balance d) = true →
     balance_of s2 (prep_account_id r)
     = Some (if String.eqb (prep_type r) "debit"
             then (balance d - prep_amount r)%Q
             else if String.eqb (prep_type r) "credit"
                  then (balance d + prep_amount r)%Q
                  else balance d))
  ∧ ledger s2 (prep_account_id r)
    = (ledger s (prep_account_id r)
       ++ [entry (if Py.truthy (prep_transaction_id r)
                  then prep_transaction_id r else uuid4 e2)
             (prep_type r) (prep_amount r) (prep_counterparty r) e2])%list
  ∧ prepared_transactions s2 = prepared_transactions s
  ∧ processed_transactions s2 = processed_transactions s
  ∧ ∀ acc', acc' ≠ prep_account_id r →
      balance_of s2 acc' = balance_of s acc' ∧ ledger s2 acc' = ledger s acc'.
Proof.
  intros Hok Hfresh Hfind.
  pose proof (find_account_users_get _ _ _ _ Hok Hfind) as Hget.
  unfold PrepareTransaction. rewrite Hfresh, Hfind.
  destruct (String.eqb (prep_type r) "debit"
            && Py.lt (balance d) (prep_amount r)); simpl; [discriminate|].
  intros _. unfold CommitTransaction. simpl. rewrite lookup_insert_eq. simpl.
  unfold balance_of, ledger.
  destruct (String.eqb (prep_type r) "debit").
  - rewrite Hget. simpl.
    rewrite (find_account_adjust _ _ _ _ _ Hok Hfind). simpl.
    rewrite lookup_insert_eq, delete_insert_id by exact Hfresh.
    repeat split; try reflexivity.
    + by rewrite (find_account_adjust_other _ _ _ _ _ _ Hok Hfind).
    + by rewrite lookup_insert_ne.
  - destruct (String.eqb (prep_type r) "credit").
    + rewrite Hget. simpl.
      rewrite (find_account_adjust _ _ _ _ _ Hok Hfind). simpl.
      rewrite lookup_insert_eq, delete_insert_id by exact Hfresh.
      repeat split; try reflexivity.
      * by rewrite (find_account_adjust_other _ _ _ _ _ _ Hok Hfind).
      * by rewrite lookup_insert_ne.
    + simpl. rewrite Hfind. simpl.
      rewrite lookup_insert_eq, delete_insert_id by exact Hfresh.
      repeat split; try reflexivity.
      by rewrite lookup_insert_ne.
Qed.

(** A debit of 300 from the 1000 of [ACC001], prepared under [t-9] and
    committed: the account holds 700, the entry carries [t-9]. *)
Lemma prepare_then_commit_witness :
  let s1 := fst (PrepareTransaction Scenario.bank1 Scenario.env0
                   Scenario2.prepare_debit) in
  let (s2, c) := CommitTransaction s1 Scenario.env0 Scenario2.commit_t9 in
  commit_success c = true
  ∧ exact_move "debit" 300 1000 = true
  ∧ balance_of s2 "ACC001" = Some (1000 - 300)%Q
  ∧ ledger s2 "ACC001"
    = (ledger Scenario.bank1 "ACC001"
       ++ [entry "t-9" "debit" 300 "Bank2/ACC002" Scenario.env0])%list
  ∧ prepared_transactions s2 = prepared_transactions Scenario.bank1
  ∧ processed_transactions s2 = processed_transactions Scenario.bank1
  ∧ ∀ acc', acc' ≠ "ACC001" →
      balance_of s2 acc' = balance_of Scenario.bank1 acc'
      ∧ ledger s2 acc' = ledger Scenario.bank1 acc'.
Proof.
  pose proof (prepare_then_commit Scenario.bank1 Scenario.env0 Scenario.env0
                Scenario2.prepare_debit "user1"
                {| password := "pass1"; account_id := "ACC001";
                   name := "User 1"; balance := 1000 * inject_Z 1 |}
                users_ok_sample eq_refl eq_refl eq_refl) as H.
  cbv zeta in H |- *.
  change Scenario2.commit_t9
    with {| commit_transaction_id :=
              prep_transaction_id Scenario2.prepare_debit |}.
  destruct (CommitTransaction _ Scenario.env0 _) as [s2 c].
  destruct H as (Hc & Hexact & Hledger & Hrest).
  split; [exact Hc|]. split; [reflexivity|].
  split; [exact (Hexact eq_refl)|]. split; [exact Hledger | exact Hrest].
Defined.

Lemma set_prepared_id (s : state) : set_prepared s (prepared_transactions s) = s.
Proof. by destruct s. Qed.

(** X5: a prepare under an id the table does not hold, followed by the
    abort of that id, leaves the bank exactly as it was before the
    prepare, whatever the vote. *)
Theorem prepare_then_abort (s : state) (e : env)
    (r : PrepareTransactionRequest) :
  prepared_transactions s !! prep_transaction_id r = None →
  fst (AbortTransaction (fst (PrepareTransaction s e r))
         {| abort_transaction_id := prep_transaction_id r |}) = s.
Proof.
  intros Hfresh. unfold PrepareTransaction. rewrite Hfresh.
  assert (Hsame : fst (AbortTransaction s
                         {| abort_transaction_id := prep_transaction_id r |})
                  = s).
  { unfold AbortTransaction. simpl. by rewrite Hfresh. }
  destruct (find_account (users s) (prep_account_id r)) as [[u d]|];
    [|exact Hsame].
  destruct (String.eqb (prep_type r) "debit"
            && Py.lt (balance d) (prep_amount r)); [exact Hsame|].
  unfold AbortTransaction. simpl. rewrite lookup_insert_eq. simpl.
  rewrite delete_insert_id by exact Hfresh. by destruct s.
Qed.

Lemma prepare_then_abort_witness :
  fst (AbortTransaction
         (fst (PrepareTransaction Scenario.bank1 Scenario.env0
                 Scenario2.prepare_debit))
         Scenario2.abort_t9) = Scenario.bank1.
Proof.
  apply (prepare_then_abort Scenario.bank1 Scenario.env0
           Scenario2.prepare_debit).
  reflexivity.
Defined.

(** X6: a commit that reports failure changes nothing; a commit that
    reports success uses its table entry up, so that the same commit sent
    again is refused as not prepared and changes nothing; and after an
    abort of an id, the commit of that id is refused in the same way. *)
Theorem transaction_id_is_used_once (s : state) (e e' : env) (id : string) :
  let refused := {| commit_success := false;
                    commit_message := "Transaction not prepared" |} in
  let (s1, c1) := CommitTransaction s e {| commit_transaction_id := id |} in
  let s2 := fst (AbortTransaction s {| abort_transaction_id := id |}) in
  (if commit_success c1
   then CommitTransaction s1 e' {| commit_transaction_id := id |}
        = (s1, refused)
   else s1 = s)
  ∧ CommitTransaction s2 e' {| commit_transaction_id := id |} = (s2, refused).
Proof.
  intros refused.
  destruct (CommitTransaction s e {| commit_transaction_id := id |})
    as [s1 c1] eqn:E1.
  intros s2. split.
  - unfold CommitTransaction in E1. simpl in E1.
    destruct (prepared_transactions s !! id) as [p|] eqn:Hin.
    2: { by injection E1 as <- <-. }
    destruct (p_ready p); simpl in E1.
    2: { by injection E1 as <- <-. }
    destruct (if String.eqb (d_type (p_details p)) "debit" then _ else _);
      simpl in E1.
    2: { by injection E1 as <- <-. }
    injection E1 as <- <-. simpl.
    unfold CommitTransaction. simpl. by rewrite lookup_delete_eq.
  - subst s2. unfold AbortTransaction, CommitTransaction. simpl.
    destruct (prepared_transactions s !! id) eqn:Hin; simpl.
    + by rewrite lookup_delete_eq.
    + by rewrite Hin.
Qed.

(** ** What no operation does *)

Lemma identities_remember (s : state) (pid : string)
    (r : BankTransactionResponse) :
  identities (remember s pid r) = identities s.
Proof. unfold remember. by destruct (Py.truthy pid). Qed.

(** X7: no operation of the bank adds, removes or renames a user, or
    changes an account id or a password: the direct transaction, prepare,
    commit and abort change balances at most. *)
Theorem accounts_are_never_created_or_destroyed (s : state) (e : env) :
  (∀ r, identities (fst (ProcessTransaction s e r)) = identities s)
  ∧ (∀ r, identities (fst (PrepareTransaction s e r)) = identities s)
  ∧ (∀ r, identities (fst (CommitTransaction s e r)) = identities s)
  ∧ (∀ r, identities (fst (AbortTransaction s r)) = identities s).
Proof.
  repeat split; intros r.
  - unfold ProcessTransaction.
    destruct (if Py.truthy (bt_payment_id r) then _ else None) as [[ok msg]|];
      [reflexivity|].
    destruct (find_account (users s) (bt_account_id r)) as [[u d]|];
      [|apply identities_remember].
    destruct (String.eqb (bt_type r) "debit").
    { destruct (Py.lt (balance d) (bt_amount r)); simpl;
        rewrite identities_remember; [reflexivity|].
      apply users_adjust_keys. }
    destruct (String.eqb (bt_type r) "credit"); simpl;
      rewrite identities_remember; [|reflexivity].
    apply users_adjust_keys.
  - unfold PrepareTransaction.
    destruct (prepared_transactions s !! _); [reflexivity|].
    destruct (find_account _ _) as [[u d]|]; [|reflexivity].
    by destruct (_ && _).
  - unfold CommitTransaction.
    destruct (prepared_transactions s !! _) as [p|]; [|reflexivity].
    destruct (p_ready p); [|reflexivity]. simpl.
    destruct (String.eqb (d_type (p_details p)) "debit").
    { destruct (users_get _ _); [|reflexivity]. apply users_adjust_keys. }
    destruct (String.eqb (d_type (p_details p)) "credit"); [|reflexivity].
    destruct (users_get _ _); [|reflexivity]. apply users_adjust_keys.
  - unfold AbortTransaction. by destruct (prepared_transactions s !! _).
Qed.

Lemma ledger_remember (s : state) (pid : string)
    (r : BankTransactionResponse) (acc : string) :
  ledger (remember s pid r) acc = ledger s acc.
Proof. unfold remember. by destruct (Py.truthy pid). Qed.

Lemma ledger_grows (s : state) (e : env) (acc ty : string) (amt : Q)
    (counterparty : string) (tx : option string) (acc' : string) :
  ledger s acc' `prefix_of`
    ledger (record_transaction s e acc ty amt counterparty tx) acc'.
Proof.
  rewrite ledger_record_transaction.
  destruct (decide (acc = acc')) as [<-|]; [by apply prefix_app_r | done].
Qed.

Lemma prefix_app_r_ledger (s : state) (e : env) (acc ty : string) (amt : Q)
    (counterparty : string) (tx : option string) (acc' : string)
    (p : gmap string prepared) :
  ledger s acc' `prefix_of`
    ledger (set_prepared (record_transaction s e acc ty amt counterparty tx) p)
      acc'.
Proof. apply (ledger_grows s e acc ty amt counterparty tx acc'). Qed.

(** X8: the ledger is append-only: after a direct transaction, a prepare,
    a commit or an abort, the ledger of every account starts with the
    entries it had before, in the same order. *)
Theorem ledger_is_append_only (s : state) (e : env) (acc : string) :
  (∀ r, ledger s acc `prefix_of` ledger (fst (ProcessTransaction s e r)) acc)
  ∧ (∀ r, ledger s acc `prefix_of` ledger (fst (PrepareTransaction s e r)) acc)
  ∧ (∀ r, ledger s acc `prefix_of` ledger (fst (CommitTransaction s e r)) acc)
  ∧ (∀ r, ledger s acc `prefix_of` ledger (fst (AbortTransaction s r)) acc).
Proof.
  repeat split; intros r.
  - unfold ProcessTransaction. cbv zeta.
    destruct (if Py.truthy (bt_payment_id r) then _ else None) as [[ok msg]|];
      [done|].
    destruct (find_account (users s) (bt_account_id r)) as [[u d]|];
      [|cbn [fst]; by rewrite ledger_remember].
    destruct (String.eqb (bt_type r) "debit").
    { destruct (Py.lt (balance d) (bt_amount r)); cbn [fst];
        rewrite ledger_remember; [done|].
      apply (ledger_grows (set_users s _)). }
    destruct (String.eqb (bt_type r) "credit"); cbn [fst];
      rewrite ledger_remember; [|done].
    apply (ledger_grows (set_users s _)).
  - unfold PrepareTransaction.
    destruct (prepared_transactions s !! _); [done|].
    destruct (find_account _ _) as [[u d]|]; [|done].
    by destruct (_ && _).
  - unfold CommitTransaction.
    destruct (prepared_transactions s !! _) as [p|]; [|done].
    destruct (p_ready p); [|done]. simpl.
    destruct (if String.eqb (d_type (p_details p)) "debit" then _ else _);
      [|done].
    cbv zeta; cbn [fst]. apply (prefix_app_r_ledger (set_users s _)).
  - unfold AbortTransaction. by destruct (prepared_transactions s !! _).
Qed.

(** ** The history of an account ([GetTransactionHistory]) *)

Lemma insert_newest_first_perm (x : ledger_entry) (l : list ledger_entry) :
  insert_newest_first x l ≡ₚ x :: l.
Proof.
  induction l as [|y rest IH]; simpl; [done|].
  destruct (String.leb (le_timestamp y) (le_timestamp x)); [done|].
  rewrite IH. apply Permutation_swap.
Qed.

Lemma sorted_newest_first_perm (l : list ledger_entry) :
  sorted_newest_first l ≡ₚ l.
Proof.
  induction l as [|x rest IH]; simpl; [done|].
  by rewrite insert_newest_first_perm, IH.
Qed.

Lemma insert_newest_first_sorted (x : ledger_entry) (l : list ledger_entry) :
  Sorted.StronglySorted not_older l →
  Sorted.StronglySorted not_older (insert_newest_first x l).
Proof.
  induction 1 as [|y rest Hrest IH Hy]; simpl.
  - repeat constructor.
  - destruct (String.leb (le_timestamp y) (le_timestamp x)) eqn:Hle.
    + constructor; [by constructor|].
      constructor; [unfold not_older, String.le; by rewrite Hle|].
      eapply Forall_impl; [exact Hy|].
      intros z Hz. unfold not_older in *.
      etrans; [exact Hz|]. unfold String.le. by rewrite Hle.
    + constructor; [exact IH|].
      rewrite insert_newest_first_perm. constructor; [|exact Hy].
      unfold not_older.
      destruct (total String.le (le_timestamp x) (le_timestamp y)) as [H|H];
        [exact H|].
      unfold String.le in H. rewrite Hle in H. done.
Qed.

Lemma sorted_newest_first_sorted (l : list ledger_entry) :
  Sorted.StronglySorted not_older (sorted_newest_first l).
Proof.
  induction l as [|x rest IH]; simpl; [constructor|].
  by apply insert_newest_first_sorted.
Qed.

Lemma slice_to_take (limit : Z) {A} (l : list A) :
  ∃ n, slice_to limit l = take n l
       ∧ ((0 <= limit)%Z → n = Z.to_nat limit).
Proof.
  unfold slice_to. destruct (0 <=? limit)%Z eqn:H.
  - eexists. split; [reflexivity | done].
  - eexists. split; [reflexivity|]. intros. lia.
Qed.

(** X9: [GetTransactionHistory] of the bank.  For an account the bank
    does not have it answers [NOT_FOUND] with no entries.  For an account
    it has, the entries it returns are entries of that account's ledger,
    each as often as the ledger has it at most, newest first by timestamp;
    with a limit that is not negative there are as many as the limit
    allows: the smaller of the limit and the length of the ledger. *)
Theorem history_is_recent_first (s : state) (r : BankHistoryRequest) :
  let a := GetTransactionHistory s r in
  let h := bh_transactions (value a) in
  match find_account (users s) (bh_account_id r) with
  | None => code a = NOT_FOUND ∧ bh_success (value a) = false ∧ h = []
  | Some _ =>
      code a = OK ∧ bh_success (value a) = true
      ∧ Sorted.StronglySorted not_older h
      ∧ (∃ rest, (h ++ rest)%list ≡ₚ ledger s (bh_account_id r))
      ∧ ((0 <= bh_limit r)%Z →
         length h = Nat.min (Z.to_nat (bh_limit r))
                      (length (ledger s (bh_account_id r))))
  end.
Proof.
  unfold GetTransactionHistory, ledger.
  destruct (find_account (users s) (bh_account_id r)); simpl; [|done].
  destruct (transactions s !! bh_account_id r) as [l|]; simpl.
  2: { repeat split; [constructor | by exists [] | by intros; lia ]. }
  destruct (slice_to_take (bh_limit r) (sorted_newest_first l))
    as (n & -> & Hn).
  repeat split.
  - apply (sorting.StronglySorted_app_1_l _ _ (drop n (sorted_newest_first l))).
    rewrite take_drop. apply sorted_newest_first_sorted.
  - exists (drop n (sorted_newest_first l)).
    rewrite take_drop. apply sorted_newest_first_perm.
  - intros Hlim. rewrite (Hn Hlim), length_take.
    by rewrite (Permutation_length (sorted_newest_first_perm l)).
Qed.

(** ** Credentials ([VerifyCredentials]) *)

(** X10: [VerifyCredentials] accepts only a user of the bank with that
    user's password, and then names an account that [GetBalance] knows;
    whenever it refuses, the account id it returns is empty; and on a bank
    whose user names are unique it accepts every user who presents the
    right password. *)
Theorem VerifyCredentials_is_exact (s : state)
    (r : CredentialVerificationRequest) :
  users_ok s →
  let v := VerifyCredentials s r in
  (if valid v
   then ∃ d, (cv_username r, d) ∈ users s
             ∧ password d = cv_password r
             ∧ cv_account_id v = account_id d
             ∧ bb_success
                 (value (GetBalance s {| bb_account_id := cv_account_id v |}))
               = true
   else cv_account_id v = "")
  ∧ ∀ d, (cv_username r, d) ∈ users s → password d = cv_password r →
         valid v = true.
Proof.
  intros Hok. unfold VerifyCredentials. split.
  - destruct (users_get (users s) (cv_username r)) as [d|] eqn:Hget;
      [|reflexivity].
    destruct (String.eqb_spec (password d) (cv_password r)) as [Hpw|Hpw];
      [|reflexivity].
    simpl. exists d. apply users_get_elem in Hget.
    repeat split; try done.
    unfold GetBalance. simpl.
    destruct (elem_find_account _ _ _ Hget) as [[u' d'] ->]. reflexivity.
  - intros d Hin Hpw.
    rewrite (elem_users_get _ _ _ Hok Hin). by apply String.eqb_eq in Hpw as ->.
Qed.

Lemma VerifyCredentials_is_exact_witness :
  let r := {| cv_username := "user1"; cv_password := "pass1" |} in
  let v := VerifyCredentials Scenario.bank1 r in
  (if valid v
   then ∃ d, (cv_username r, d) ∈ users Scenario.bank1
             ∧ password d = cv_password r
             ∧ cv_account_id v = account_id d
             ∧ bb_success
                 (value (GetBalance Scenario.bank1
                           {| bb_account_id := cv_account_id v |}))
               = true
   else cv_account_id v = "")
  ∧ ∀ d, (cv_username r, d) ∈ users Scenario.bank1 →
         password d = cv_password r → valid v = true.
Proof.
  apply (VerifyCredentials_is_exact Scenario.bank1
           {| cv_username := "user1"; cv_password := "pass1" |}).
  exact users_ok_sample.
Defined.

End BankExtra.

(** * More properties of the gateway *)

Module GatewayExtra.
Import Proto Grpc BankQueries Gateway GatewayQueries.

Lemma lt_spec (x y : Q) : Py.lt x y = true ↔ (x < y)%Q.
Proof.
  unfold Py.lt. destruct (Qlt_le_dec x y) as [H|H]; split; try done.
  intros H'. exfalso. lra.
Qed.

Lemma swept_tokens (s : state) (now : Q) (t : string) :
  active_tokens (swept s now) !! t
  = match active_tokens s !! t with
    | Some info => if Py.lt now (expires info) then Some info else None
    | None => None
    end.
Proof.
  unfold swept. simpl.
  destruct (active_tokens s !! t) as [info|] eqn:Ht.
  - destruct (Py.lt now (expires info)) eqn:Hlt.
    + apply map_lookup_filter_Some. done.
    + apply map_lookup_filter_None. right. intros info' Ht'. simpl.
      rewrite Ht in Ht'. injection Ht' as <-. by rewrite Hlt.
  - apply map_lookup_filter_None. left. done.
Qed.

(** X11: the sweep of expired tokens cannot be observed through the
    interceptor at any later reading of the clock: for every method and
    metadata, the interceptor decides on the swept table as it would have
    on the table before the sweep.  The sweep leaves the idempotency cache
    alone. *)
Theorem sweep_agrees_with_the_interceptor (s : state) (now later : Q)
    (method : string) (invocation_metadata : list (string * string)) :
  (now < later)%Q →
  at_time later
    (intercept_service (active_tokens (swept s now)) method
       invocation_metadata)
  = at_time later
      (intercept_service (active_tokens s) method invocation_metadata)
  ∧ PROCESSED_KEYS (swept s now) = PROCESSED_KEYS s.
Proof.
  intros Hlater. split; [|reflexivity].
  unfold intercept_service.
  destruct (String.eqb method _); [reflexivity|].
  destruct (existsb _ _); [|reflexivity].
  destruct (Py.dict_get invocation_metadata "token") as [token|];
    [|reflexivity].
  rewrite swept_tokens.
  destruct (active_tokens s !! token) as [info|]; [|reflexivity].
  destruct (Py.lt now (expires info)) eqn:Hlive; [reflexivity|].
  simpl. destruct (Py.lt (expires info) later) eqn:Hexp; [reflexivity|].
  exfalso.
  assert (¬ (now < expires info)%Q)
    by (intros H; apply lt_spec in H; congruence).
  assert (¬ (expires info < later)%Q)
    by (intros H'; apply lt_spec in H'; congruence).
  lra.
Qed.

Lemma sweep_agrees_with_the_interceptor_witness :
  at_time 5000
    (intercept_service (active_tokens (swept Scenario.gateway0 4000))
       "/payment.PaymentGateway/ProcessPayment" [("token", "tok-2")])
  = at_time 5000
      (intercept_service (active_tokens Scenario.gateway0)
         "/payment.PaymentGateway/ProcessPayment" [("token", "tok-2")])
  ∧ PROCESSED_KEYS (swept Scenario.gateway0 4000)
    = PROCESSED_KEYS Scenario.gateway0.
Proof.
  apply (sweep_agrees_with_the_interceptor Scenario.gateway0 4000 5000).
  reflexivity.
Defined.

(** X12: once a sweep has run, [ProcessPayment] refuses a request whose
    body token had expired by then: it answers [UNAUTHENTICATED] without
    any operation and without touching the state. *)
Theorem swept_token_cannot_pay (s : state) (now : Q)
    (request : PaymentRequest) (info : token_info) :
  active_tokens s !! Proto.token request = Some info →
  (expires info <= now)%Q →
  ProcessPayment (swept s now) request
  = Gateway.Ret
      (swept s now,
       Returned (Served
         (response false "" "failed" "Authentication failed: Invalid token")
         UNAUTHENTICATED "Invalid authentication token")).
Proof.
  intros Ht Hexp. unfold ProcessPayment.
  rewrite swept_tokens, Ht.
  destruct (Py.lt now (expires info)) eqn:Hlt; [|reflexivity].
  apply lt_spec in Hlt. exfalso. lra.
Qed.

Lemma swept_token_cannot_pay_witness :
  ProcessPayment (swept Scenario.gateway0 4000)
    (Scenario.payment "tok-2" "ACC001" "Bank1" 10 "p-1")
  = Gateway.Ret
      (swept Scenario.gateway0 4000,
       Returned (Served
         (response false "" "failed" "Authentication failed: Invalid token")
         UNAUTHENTICATED "Invalid authentication token")).
Proof.
  apply (swept_token_cannot_pay Scenario.gateway0 4000
           (Scenario.payment "tok-2" "ACC001" "Bank1" 10 "p-1")
           Scenario.token_user2_expired);
    [reflexivity | unfold Qle; simpl; lia].
Defined.

(** ** [Authenticate] *)

Ltac unfold_queries :=
  unfold mbind, mret, GatewayQueries.prog_bind, GatewayQueries.prog_ret,
    Gateway.prog_bind, Gateway.prog_ret, Gateway.uuid4, Gateway.time,
    Gateway.perform, GatewayQueries.perform, Gateway.call_stub in *.

Section authenticate.
Variable stub_is_none : string → bool.
Variables (s : state) (request : AuthRequest).

(** X13: [Authenticate] asks no bank but the one the request names, and
    that one only when its stub exists; it succeeds only after that bank
    has answered that the credentials are valid, and then the only change
    to the state is the new token, bound to the request's user and bank
    and to the account the bank named, expiring 3600 seconds after the
    clock reading.  In every other case the state is unchanged and the
    token returned is empty. *)
Theorem Authenticate_mints_one_token :
  always (fun tr '(s', out) =>
    match out with
    | Returned r =>
        if auth_success (value r) then
          code r = OK
          ∧ ∃ v u now,
              tr = [existT (verification request) (Reply v);
                    existT (Base Uuid4) u; existT (Base Time) now]
              ∧ valid v = true
              ∧ auth_token (value r) = auth_username request ++ "-" ++ u
              ∧ s' = minted s request v u now
        else
          s' = s ∧ auth_token (value r) = ""
          ∧ (tr = [] ∨ ∃ x, tr = [existT (verification request) x])
          ∧ (in_bank_stubs (auth_bank_name request) = false
             ∨ stub_is_none (auth_bank_name request) = true →
             tr = [] ∧ code r = INVALID_ARGUMENT)
    | Crashed _ => s' = s ∧ ∃ x, tr = [existT (verification request) x]
    end)
    (Authenticate stub_is_none s request) [].
Proof.
  unfold Authenticate. unfold_queries.
  destruct (in_bank_stubs (auth_bank_name request)) eqn:Hin; simpl.
  2: { repeat split; auto. }
  destruct (stub_is_none (auth_bank_name request)) eqn:Hnone; simpl.
  { repeat split; auto. }
  intros [v|c d|what]; simpl.
  - destruct (valid v) eqn:Hv; simpl.
    + intros u t. split; [reflexivity|]. by exists v, u, t.
    + split_and!; eauto. intros [?|?]; discriminate.
  - split_and!; eauto. intros [?|?]; discriminate.
  - split; eauto.
Qed.

(** X14: a token that [Authenticate] has just minted passes the
    interceptor, for each of the three methods that need a token, at every
    clock reading up to 3600 seconds after the reading [Authenticate] took,
    and at no later one; [ProcessPayment] finds it in the table. *)
Theorem minted_token_is_valid_for_an_hour :
  always (fun tr '(s', out) =>
    match out with
    | Returned r =>
        auth_success (value r) = true →
        (∃ info, active_tokens s' !! auth_token (value r) = Some info
                 ∧ username info = auth_username request
                 ∧ bank info = auth_bank_name request)
        ∧ ∀ now method invocation_metadata later,
            now ∈ readings tr →
            method ∈ auth_required_methods →
            Py.dict_get invocation_metadata "token"
            = Some (auth_token (value r)) →
            at_time later
              (intercept_service (active_tokens s') method
                 invocation_metadata)
            = Some (if Py.lt (now + 3600) later
                    then Unauthenticated else Continue)
    | Crashed _ => True
    end)
    (Authenticate stub_is_none s request) [].
Proof.
  unfold Authenticate. unfold_queries.
  destruct (negb _ || _); simpl; [discriminate|].
  intros [v|c d|what]; simpl; [|discriminate|done].
  destruct (valid v); simpl; [|discriminate].
  intros u t _. split.
  { eexists. rewrite lookup_insert_eq. by repeat split. }
  intros now' method md later Hnow Hm Hmd. cbn in Hnow.
  assert (now' = t) as ->.
  { apply elem_of_cons in Hnow as [Hnow|Hnow]; [done|].
    by apply elem_of_nil in Hnow. }
  unfold intercept_service.
  assert (String.eqb method "/payment.PaymentGateway/Authenticate" = false
          ∧ existsb (String.eqb method) auth_required_methods = true)
    as [-> ->].
  { unfold auth_required_methods in *.
    repeat (apply elem_of_cons in Hm as [->|Hm]; [by split|]).
    by apply elem_of_nil in Hm. }
  rewrite Hmd. simpl. rewrite lookup_insert_eq. simpl. by destruct (Py.lt _ _).
Qed.

End authenticate.

(** ** A session: [Authenticate], then [CheckBalance] *)

#[local] Arguments in_bank_stubs : simpl never.
#[local] Arguments Py.lt : simpl never.
#[local] Arguments Py.str_float : simpl never.

Lemma ask_delivered {A} (w : World.world) (b : string) (bs : Bank.state)
    (method : Bank.state → served A) :
  World.no_stub w = [] → World.net w = [] → World.banks w !! b = Some bs →
  ask w b method = (w, of_remote (deliver (method bs))).
Proof.
  intros Hs Hn Hb. unfold ask. rewrite Hs, Hn, Hb. simpl.
  destruct w; simpl in *; by subst.
Qed.

Lemma call_bank_GetBalance_delivered (w : World.world) (b : string)
    (bs : Bank.state) (r : BankBalanceRequest) :
  World.no_stub w = [] → World.net w = [] → World.banks w !! b = Some bs →
  World.call_bank w b (Gateway.GetBalance r)
  = (w, of_remote (deliver (Bank.GetBalance bs r))).
Proof.
  intros Hs Hn Hb. unfold World.call_bank. rewrite Hs, Hn, Hb. simpl.
  rewrite (insert_id _ _ _ Hb). destruct w; simpl in *; by subst.
Qed.

(** X15: a user who authenticates at a reachable bank with the right
    password gets a token, and [CheckBalance] called with that token within
    the hour answers with the balance the bank holds for that user's
    account.  Neither call changes a bank. *)
Theorem session_reports_the_balance (w : World.world) (g : state)
    (bs : Bank.state) (b u : string) (d : Bank.user_data) (t1 t2 : Q)
    (rest : list Q) :
  in_bank_stubs b = true →
  World.no_stub w = [] → World.net w = [] →
  World.banks w !! b = Some bs →
  users_ok bs → (u, d) ∈ Bank.users bs →
  World.clock w = t1 :: t2 :: rest → (t2 <= t1 + 3600)%Q →
  let '((g', out), _, w') :=
    run handle
      (Authenticate (stub_is_none_in w) g
         {| auth_username := u; auth_password := Bank.password d;
            auth_bank_name := b |}) w in
  ∃ tok bal,
    out = Returned (ok {| auth_success := true; auth_token := tok;
                          auth_message := "Authentication successful" |})
    ∧ Bank.balance_of bs (Bank.account_id d) = Some bal
    ∧ World.banks w' = World.banks w
    ∧ let '(answer, _, w'') :=
        run handle
          (serve_CheckBalance g' [("token", tok)] {| bal_account_id := "" |})
          w' in
      answer = Answered {| bal_success := true; bal_balance := bal;
                           bal_message := "Balance retrieved successfully" |}
      ∧ World.banks w'' = World.banks w.
Proof.
  intros Hin Hs Hn Hb Hok Hd Hclock Hlate.
  unfold Authenticate, stub_is_none_in. simpl. rewrite Hin, Hs. simpl.
  unfold_queries. simpl.
  rewrite (ask_delivered w b bs _ Hs Hn Hb). simpl.
  unfold BankQueries.VerifyCredentials. simpl.
  rewrite (BankExtra.elem_users_get _ _ _ Hok Hd), String.eqb_refl. simpl.
  rewrite Hclock. simpl.
  destruct (BankExtra.elem_find_account _ _ _ Hd) as [[u' d'] Hfind].
  destruct (World.next "uuid" (World.uuids w)) as [uu urest]. simpl.
  eexists _, (Bank.balance d'). split; [reflexivity|].
  split; [unfold Bank.balance_of; by rewrite Hfind|].
  split; [reflexivity|].
  assert (Hlive : Py.lt (t1 + 3600) t2 = false).
  { destruct (Py.lt (t1 + 3600) t2) eqn:H; [|done].
    apply lt_spec in H. exfalso. lra. }
  unfold serve_CheckBalance, guarded, intercept_service, CheckBalance,
    user_info_of.
  simpl. rewrite lookup_insert_eq. unfold_queries. simpl.
  rewrite Hin. simpl.
  destruct rest as [|t3 rest]; simpl; rewrite Hlive; simpl.
  all: erewrite call_bank_GetBalance_delivered by (simpl; eassumption).
  all: unfold Bank.GetBalance; simpl; rewrite Hfind; simpl; done.
Qed.

Lemma session_reports_the_balance_witness :
  let '((g', out), _, w') :=
    run handle
      (Authenticate (stub_is_none_in Scenario2.world_session)
         Scenario.gateway0
         {| auth_username := "user1";
            auth_password := Bank.password Scenario2.user1;
            auth_bank_name := "Bank1" |}) Scenario2.world_session in
  ∃ tok bal,
    out = Returned (ok {| auth_success := true; auth_token := tok;
                          auth_message := "Authentication successful" |})
    ∧ Bank.balance_of Scenario.bank1 (Bank.account_id Scenario2.user1)
      = Some bal
    ∧ World.banks w' = World.banks Scenario2.world_session
    ∧ let '(answer, _, w'') :=
        run handle
          (serve_CheckBalance g' [("token", tok)] {| bal_account_id := "" |})
          w' in
      answer = Answered {| bal_success := true; bal_balance := bal;
                           bal_message := "Balance retrieved successfully" |}
      ∧ World.banks w'' = World.banks Scenario2.world_session.
Proof.
  apply (session_reports_the_balance Scenario2.world_session
           Scenario.gateway0 Scenario.bank1 "Bank1" "user1" Scenario2.user1
           1000 2000 []);
    try reflexivity.
  - exact BankExtra.users_ok_sample.
  - apply list_elem_of_here.
  - unfold Qle; simpl; lia.
Defined.

(** ** [CheckBalance] and [GetTransactionHistory] *)

(** X16: [CheckBalance] calls a bank at most once, and then it asks the
    bank of the token for the balance of the account of the token, whatever
    account the request names.  A request that names another account is
    answered [PERMISSION_DENIED] without any call.  A balance is reported
    as success only when the bank replied so, and it is the bank's
    figure. *)
Theorem CheckBalance_asks_about_the_token_account (s : state)
    (invocation_metadata : list (string * string))
    (request : BalanceRequest) :
  Gateway.always (fun tr out =>
    match user_info_of s invocation_metadata with
    | inl what => tr = [] ∧ out = Crashed what
    | inr info =>
        let asks :=
          Stub (bank info)
            (Gateway.GetBalance {| bb_account_id := account info |}) in
        (tr = [] ∨ ∃ x, tr = [existT asks x])
        ∧ (Py.truthy (bal_account_id request) = true →
           bal_account_id request ≠ account info →
           tr = []
           ∧ ∃ r, out = Returned r ∧ code r = PERMISSION_DENIED
                  ∧ bal_success (value r) = false)
        ∧ ∀ r, out = Returned r → bal_success (value r) = true →
               ∃ reply, tr = [existT asks (Reply reply)]
                        ∧ bb_success reply = true
                        ∧ bal_balance (value r) = bb_balance reply
                        ∧ code r = OK
    end)
    (CheckBalance s invocation_metadata request) [].
Proof.
  unfold CheckBalance.
  destruct (user_info_of s invocation_metadata) as [what|info]; [done|].
  destruct (Py.truthy (bal_account_id request)) eqn:Hreq; simpl.
  - destruct (String.eqb_spec (bal_account_id request) (account info))
      as [Heq|Hne]; simpl.
    2: { split; [by left|]. split.
         - intros _ _. split; [done|]. eexists. by split_and!.
         - by intros r [= <-]. }
    unfold_queries. destruct (in_bank_stubs (bank info)); simpl.
    + intros [reply|c d|what]; simpl;
        (split; [right; by eexists|]); (split; [try done|]).
      * intros r [= <-] Hr. by exists reply.
      * by intros r [= <-].
      * done.
    + split; [by left|]. split; [try done|done].
  - unfold_queries. destruct (in_bank_stubs (bank info)); simpl.
    + intros [reply|c d|what]; simpl;
        (split; [right; by eexists|]); (split; [try done|]).
      * intros r [= <-] Hr. by exists reply.
      * by intros r [= <-].
      * done.
    + split; [by left|]. split; [try done|done].
Qed.

(** X17: the gateway's [GetTransactionHistory] calls a bank at most
    once, and then it asks the bank of the token for the history of the
    account of the token with a limit that is positive: the request's limit,
    or ten when that is zero or negative.  A request that names any other
    account, the empty one included, is answered [PERMISSION_DENIED]
    without a call. *)
Theorem GetTransactionHistory_asks_a_positive_limit (s : state)
    (invocation_metadata : list (string * string))
    (request : HistoryRequest) :
  always (fun tr out =>
    match user_info_of s invocation_metadata with
    | inl what => tr = [] ∧ out = Crashed what
    | inr info =>
        (tr = []
         ∨ ∃ limit x,
             tr = [existT (StubGetTransactionHistory (bank info)
                             {| bh_account_id := account info;
                                bh_limit := limit |}) x]
             ∧ (0 < limit)%Z
             ∧ limit = (if (0 <? hist_limit request)%Z
                        then hist_limit request else 10%Z)
             ∧ hist_account_id request = account info)
        ∧ (hist_account_id request ≠ account info →
           tr = []
           ∧ ∃ r, out = Returned r ∧ code r = PERMISSION_DENIED
                  ∧ hist_success (value r) = false
                  ∧ hist_transactions (value r) = [])
    end)
    (GetTransactionHistory s invocation_metadata request) [].
Proof.
  unfold GetTransactionHistory.
  destruct (user_info_of s invocation_metadata) as [what|info]; [done|].
  destruct (String.eqb_spec (hist_account_id request) (account info))
    as [Heq|Hne]; simpl.
  2: { split; [by left|]. intros _. split; [done|]. eexists.
       by split_and!. }
  unfold_queries. destruct (in_bank_stubs (bank info)); simpl.
  - intros x.
    assert (∃ limit x',
      ([existT (StubGetTransactionHistory (bank info)
                 {| bh_account_id := account info;
                    bh_limit := if (0 <? hist_limit request)%Z
                                then hist_limit request else 10%Z |}) x]
       : list event)
      = [existT (StubGetTransactionHistory (bank info)
                   {| bh_account_id := account info;
                      bh_limit := limit |}) x']
      ∧ (0 < limit)%Z
      ∧ limit = (if (0 <? hist_limit request)%Z
                 then hist_limit request else 10%Z)
      ∧ hist_account_id request = account info) as Hcall.
    { eexists _, x. split_and!; try done.
      destruct (Z.ltb_spec 0 (hist_limit request)); lia. }
    destruct x as [reply|c d|what]; simpl; (split; [by right | done]).
  - split; [by left | done].
Qed.

End GatewayExtra.

(** * More properties of the payment path *)

Module PaymentExtra.
Import Proto Grpc Gateway GatewayProps.

#[local] Arguments in_bank_stubs : simpl never.
#[local] Arguments Py.lt : simpl never.
#[local] Arguments Py.max0 : simpl never.
#[local] Arguments Py.truthy : simpl never.
#[local] Arguments Py.str_float : simpl never.
#[local] Arguments String.append : simpl never.

(** X18: a payment that the coordinator reports as successful is the
    self-transfer, for which no bank is called, or has run the whole
    protocol: the stub calls of the run are exactly the sender's prepare,
    the receiver's prepare, the sender's commit and the receiver's commit,
    in this order, under the two transaction ids derived from the global
    id the response carries; both banks voted ready and both acknowledged
    the commit.  No abort was sent. *)
Theorem completed_payment_ran_the_protocol (pid sb sa rb ra : string)
    (amt : Q) :
  always
    (fun tr resp =>
       success resp = true →
       status resp = "completed"
       ∧ (List.filter is_stub tr = [] ∧ sb = rb ∧ sa = ra
          ∨ ∃ t1 t2 t3 t4 p1 p2 c1 c2,
              let g := transaction_id resp in
              List.filter is_stub tr
              = [ existT (Stub sb (PrepareTransaction
                            (sender_prepare_request pid sa rb ra amt g) t1))
                    (Reply p1);
                  existT (Stub rb (PrepareTransaction
                            (receiver_prepare_request pid sb sa ra amt g) t2))
                    (Reply p2);
                  existT (Stub sb (CommitTransaction
                            {| commit_transaction_id := sender_tx_id pid g |}
                            t3))
                    (Reply c1);
                  existT (Stub rb (CommitTransaction
                            {| commit_transaction_id :=
                                 receiver_tx_id pid g |} t4))
                    (Reply c2) ]
              ∧ ready p1 = true ∧ ready p2 = true
              ∧ commit_success c1 = true ∧ commit_success c2 = true))
    (_process_payment_2pc pid sb sa rb ra amt) [].
Proof.
  explore.
  all: intros Hs; try discriminate Hs.
  all: split; [reflexivity|].
  all: try solve
    [ left; split; [reflexivity|];
      match goal with H : _ && _ = true |- _ =>
        apply andb_prop in H as [?%String.eqb_eq ?%String.eqb_eq] end;
      done ].
  all: right; eexists _, _, _, _, _, _, _, _; split; [reflexivity|]; done.
Qed.

(** X19: [ProcessPayment] sends a [PrepareTransaction],
    [CommitTransaction] or [AbortTransaction] to a bank only in a run that
    began with a balance check: the token of the body is in the table, the
    request debits [self] or the account of the token, its payment id is not
    in the cache, the receiver's bank is one the gateway knows, and the
    first operation of the run was [GetBalance] for the account of the
    token at the bank of the token, answered with success and a balance
    that covers the amount. *)
Theorem banks_change_only_after_the_checks (s : state)
    (request : PaymentRequest) :
  always
    (fun tr _ =>
       existsb is_mutating tr = true →
       ∃ info reply rest,
         active_tokens s !! token request = Some info
         ∧ (sender_account request = "self"
            ∨ sender_account request = account info)
         ∧ cached s (payment_id request) = None
         ∧ in_bank_stubs (receiver_bank request) = true
         ∧ tr = existT (Stub (bank info)
                          (GetBalance {| bb_account_id := account info |}))
                  (Reply reply) :: rest
         ∧ bb_success reply = true
         ∧ (amount request <= bb_balance reply)%Q)
    (ProcessPayment s request) [].
Proof.
  unfold ProcessPayment.
  destruct (active_tokens s !! token request) as [info|] eqn:Htok;
    [|simpl; discriminate].
  destruct (negb (String.eqb (sender_account request) "self")
            && negb (String.eqb (sender_account request) (account info)))
    eqn:Hacc; [simpl; discriminate|].
  assert (Hown : sender_account request = "self"
                 ∨ sender_account request = account info).
  { apply andb_false_iff in Hacc as [H|H]; apply negb_false_iff in H.
    - left. by apply String.eqb_eq.
    - right. by apply String.eqb_eq. }
  fold (cached s (payment_id request)).
  destruct (cached s (payment_id request)) as [c|] eqn:Hc.
  { rewrite nothing_is_retriable, orb_true_r. simpl. discriminate. }
  explore.
  all: intros Hm; try discriminate Hm.
  all: eexists info, _, _; split_and!; try done; try reflexivity.
  all: match goal with
       | H : Py.lt ?b ?a = false |- (?a <= ?b)%Q =>
           unfold Py.lt in H; destruct (Qlt_le_dec b a); [discriminate|done]
       end.
Qed.

(** ** Replays *)

Lemma always_performs {A} (P : list GatewayQueries.event → A → Prop)
    (p : GatewayQueries.prog A) acc tr a :
  GatewayQueries.always P p acc → GatewayQueries.performs p tr a → P (acc ++ tr)%list a.
Proof.
  intros Hal Hex. revert acc Hal.
  induction Hex as [a | o k x tr a Hex IH]; intros acc Hal; simpl in *.
  - by rewrite app_nil_r.
  - specialize (IH (acc ++ [existT o x])%list (Hal x)).
    by rewrite <- app_assoc in IH.
Qed.

Lemma ProcessPayment_keeps_the_cache (s : state) (request : PaymentRequest) :
  always
    (fun _ '(s', _) => PROCESSED_KEYS s ⊆ PROCESSED_KEYS s')
    (ProcessPayment s request) [].
Proof.
  unfold ProcessPayment. cbv zeta.
  destruct (active_tokens s !! token request) as [info|];
    [|simpl; auto].
  destruct (negb _ && negb _); [simpl; auto|].
  destruct (if Py.truthy (payment_id request)
            then PROCESSED_KEYS s !! payment_id request else None)
    as [c0|] eqn:Hc.
  { rewrite nothing_is_retriable, orb_true_r. simpl. auto. }
  explore.
  all: unfold cache.
  all: destruct (Py.truthy (payment_id request)); simpl; try reflexivity.
  all: by apply insert_subseteq.
Qed.

Lemma Authenticate_keeps_the_cache (stub_is_none : string → bool)
    (s : state) (request : GatewayQueries.AuthRequest) :
  GatewayQueries.always
    (fun _ '(s', _) => PROCESSED_KEYS s' = PROCESSED_KEYS s)
    (GatewayQueries.Authenticate stub_is_none s request) [].
Proof.
  unfold GatewayQueries.Authenticate. GatewayExtra.unfold_queries.
  destruct (negb _ || _); simpl; [done|].
  intros [v|c d|what]; simpl; [|done|done].
  destruct (BankQueries.valid v); simpl; [|done]. by intros u t.
Qed.

Lemma step_keeps_the_cache (s s' : state) (k : string) (c : PaymentResponse) :
  GatewayQueries.step s s' →
  PROCESSED_KEYS s !! k = Some c → PROCESSED_KEYS s' !! k = Some c.
Proof.
  intros [s0 now | s0 request tr s1 out Hex | none s0 request tr s1 out Hex] Hk.
  - exact Hk.
  - pose proof (always_exec _ _ [] tr (s1, out)
                  (ProcessPayment_keeps_the_cache s0 request) Hex) as H.
    simpl in H. by apply (lookup_weaken _ _ _ _ Hk).
  - pose proof (always_performs _ _ [] tr (s1, out)
                  (Authenticate_keeps_the_cache none s0 request) Hex) as H.
    simpl in H. by rewrite H.
Qed.

Lemma reaches_keeps_the_cache (s s' : state) (k : string)
    (c : PaymentResponse) :
  GatewayQueries.reaches s s' →
  PROCESSED_KEYS s !! k = Some c → PROCESSED_KEYS s' !! k = Some c.
Proof.
  induction 1 as [|s0 s1 s2 Hstep _ IH]; [done|].
  intros Hk. by apply IH, (step_keeps_the_cache s0 s1).
Qed.

Lemma attempt_caches (self : state)
    (request : PaymentRequest) (sb sa : string) :
  Py.truthy (payment_id request) = true →
  always
    (fun _ out =>
       match snd out with
       | Returned a =>
           PROCESSED_KEYS (fst out) !! payment_id request = Some (value a)
       | Crashed _ => fst out = self
       end)
    (attempt self request sb sa) [].
Proof.
  intros Hpid. explore.
  all: unfold cache; rewrite ?Hpid; simpl; try reflexivity.
  all: try apply lookup_insert_eq.
Qed.

(** X20: the idempotency cache outlives the token table's changes.  Once
    [ProcessPayment] has returned a response to a request that carries a
    payment id, from an account the token may debit, then for as long as
    the gateway process lives, whatever sweeps, [Authenticate] and
    [ProcessPayment] calls come in between, a request with that payment id
    whose body token is in the table at that time, from an account that
    token may debit, whatever receiver and amount it names, is answered
    from the cache: the message of the first answer, with status [OK]
    even when the first answer carried an error status, no operation, and
    no change of state.  A first call that crashed has changed nothing. *)
Theorem payment_replay_is_answered_from_the_cache (s s1 : state)
    (r1 : PaymentRequest) (info : token_info) (tr : list event)
    (out1 : handled PaymentResponse) :
  Py.truthy (payment_id r1) = true →
  active_tokens s !! token r1 = Some info →
  sender_account r1 = "self" ∨ sender_account r1 = account info →
  exec (ProcessPayment s r1) tr (s1, out1) →
  match out1 with
  | Returned a1 =>
      ∀ (s2 : state) (r2 : PaymentRequest) (info2 : token_info),
        GatewayQueries.reaches s1 s2 →
        payment_id r2 = payment_id r1 →
        active_tokens s2 !! token r2 = Some info2 →
        sender_account r2 = "self" ∨ sender_account r2 = account info2 →
        ProcessPayment s2 r2 = Ret (s2, Returned (ok (value a1)))
  | Crashed _ => s1 = s
  end.
Proof.
  intros Hpid Htok Hown Hex.
  assert (Hreplay : ∀ c s2 r2 info2,
            PROCESSED_KEYS s2 !! payment_id r1 = Some c →
            payment_id r2 = payment_id r1 →
            active_tokens s2 !! token r2 = Some info2 →
            sender_account r2 = "self" ∨ sender_account r2 = account info2 →
            ProcessPayment s2 r2 = Ret (s2, Returned (ok c))).
  { intros c s2 r2 info2 Hcached Hp Htok2 Hown2.
    unfold ProcessPayment. cbv zeta. rewrite Htok2, Hp, Hpid, Hcached.
    replace (negb (String.eqb (sender_account r2) "self")
             && negb (String.eqb (sender_account r2) (account info2)))
      with false.
    2: { destruct Hown2 as [->| ->]; rewrite ?String.eqb_refl; simpl;
           [done | by rewrite andb_false_r]. }
    by rewrite nothing_is_retriable, orb_true_r. }
  assert (Hfirst : match out1 with
                   | Returned a1 =>
                       PROCESSED_KEYS s1 !! payment_id r1 = Some (value a1)
                   | Crashed _ => s1 = s
                   end).
  { revert Hex. unfold ProcessPayment. cbv zeta. rewrite Htok, Hpid.
    replace (negb (String.eqb (sender_account r1) "self")
             && negb (String.eqb (sender_account r1) (account info)))
      with false.
    2: { destruct Hown as [->| ->]; rewrite ?String.eqb_refl; simpl;
           [done | by rewrite andb_false_r]. }
    destruct (PROCESSED_KEYS s !! payment_id r1) as [c|] eqn:Hc.
    - rewrite nothing_is_retriable, orb_true_r. simpl.
      intros Hex. inversion Hex; subst. exact Hc.
    - intros Hex.
      exact (always_exec _ _ [] tr (s1, out1)
               (attempt_caches s r1 _ _ Hpid) Hex). }
  destruct out1 as [a1|what]; [|exact Hfirst].
  intros s2 r2 info2 Hreach Hp Htok2 Hown2.
  apply (Hreplay (value a1) s2 r2 info2); try done.
  by apply (reaches_keeps_the_cache s1 s2).
Qed.

(** user1 pays 100 under the payment id [p-4]; a sweep at 1500 keeps the
    token, which expires at 2000; user1 then asks for 999 to [ACC003]
    under the same payment id. *)
Lemma payment_replay_is_answered_from_the_cache_witness :
  let '((s1, out1), _, _) :=
    run World.handle (ProcessPayment Scenario.gateway0 Scenario.pay_100)
      World.sample_world in
  let s2 := GatewayQueries.swept s1 1500 in
  ∃ a1, out1 = Returned a1
        ∧ ProcessPayment s2 Scenario2.replay_p4
          = Ret (s2, Returned (ok (value a1))).
Proof.
  destruct (run World.handle _ World.sample_world)
    as [[[s1 out1] tr] w'] eqn:E.
  pose proof (run_exec _ _ _ _ _ _ E) as Hex.
  pose proof (payment_replay_is_answered_from_the_cache Scenario.gateway0
                s1 Scenario.pay_100 Scenario.token_user1 tr out1
                eq_refl eq_refl (or_introl eq_refl) Hex) as H.
  vm_compute in E. injection E as <- <- <- <-.
  eexists. split; [reflexivity|].
  apply (H _ _ Scenario.token_user1).
  - eapply rtc_l; [apply GatewayQueries.step_sweep | apply rtc_refl].
  - reflexivity.
  - by vm_compute.
  - by left.
Defined.

End PaymentExtra.

(** * Settlement: a completed payment and the balances *)

Module SettlementBank.
Import Settlement.
Import Proto Grpc Bank BankQueries BankExtra.

Lemma prepare_fresh_ready (s : state) (e : env)
    (r : PrepareTransactionRequest) :
  prepared_transactions s !! prep_transaction_id r = None →
  ready (snd (PrepareTransaction s e r)) = true →
  ∃ u d, find_account (users s) (prep_account_id r) = Some (u, d)
         ∧ (prep_type r = "debit" → (prep_amount r <= balance d)%Q)
         ∧ fst (PrepareTransaction s e r)
           = set_prepared s
               (<[prep_transaction_id r := ready_entry r u e]>
                  (prepared_transactions s)).
Proof.
  intros Hfresh. unfold PrepareTransaction. rewrite Hfresh.
  destruct (find_account (users s) (prep_account_id r)) as [[u d]|];
    [|discriminate].
  destruct (String.eqb (prep_type r) "debit"
            && Py.lt (balance d) (prep_amount r)) eqn:Hc; [discriminate|].
  intros _. exists u, d. split; [done|]. split; [|done].
  intros Hty. rewrite Hty in Hc. simpl in Hc. by apply lt_false.
Qed.

Lemma commit_ready (s : state) (e : env) (id : string) (p : prepared) :
  prepared_transactions s !! id = Some p → p_ready p = true →
  commit_success
    (snd (CommitTransaction s e {| commit_transaction_id := id |})) = true →
  let s' := fst (CommitTransaction s e {| commit_transaction_id := id |}) in
  let dt := p_details p in
  users s'
  = (if String.eqb (d_type dt) "debit"
     then users_adjust (users s) (d_username dt) (fun b => b - d_amount dt)%Q
     else if String.eqb (d_type dt) "credit"
     then users_adjust (users s) (d_username dt) (fun b => b + d_amount dt)%Q
     else users s)
  ∧ prepared_transactions s' = delete id (prepared_transactions s).
Proof.
  intros Hp Hready. unfold CommitTransaction. simpl. rewrite Hp, Hready. simpl.
  destruct (String.eqb (d_type (p_details p)) "debit").
  - destruct (users_get _ _); [done | discriminate].
  - destruct (String.eqb (d_type (p_details p)) "credit"); [|done].
    destruct (users_get _ _); [done | discriminate].
Qed.

Lemma users_adjust_fst (us : list (string * user_data)) (u : string)
    (f : Q → Q) :
  map fst (users_adjust us u f) = map fst us.
Proof.
  pose proof (users_adjust_keys us u f) as H.
  apply (f_equal (map (fun x : string * string * string * string =>
                         fst (fst (fst x))))) in H.
  rewrite !map_map in H. exact H.
Qed.

Lemma balance_of_adjust (s s' : state) (acc u : string) (d : user_data)
    (f : Q → Q) :
  users_ok s → find_account (users s) acc = Some (u, d) →
  users s' = users_adjust (users s) u f →
  users_ok s'
  ∧ balance_of s' acc = Some (f (balance d))
  ∧ ∀ acc', acc' ≠ acc →
      find_account (users s') acc' = find_account (users s) acc'.
Proof.
  intros Hok Hfind Hs'. unfold users_ok, balance_of. rewrite Hs'.
  split; [by rewrite users_adjust_fst|]. split.
  - by rewrite (find_account_adjust _ _ _ _ _ Hok Hfind).
  - intros acc' Hne.
    by rewrite (find_account_adjust_other _ _ _ _ _ _ Hok Hfind).
Qed.

Section settlement.
Variables (e : env) (pid sb sa rb ra : string) (amt : Q) (g : string).

(** The four steps of a payment that completes, on the banks of the
    model, where [-=] and [+=] are the exact difference and sum. *)
Lemma settlement (bs bs' : gmap string state) (s0 t0 s2 t2 : state) :
  ¬ (sb = rb ∧ sa = ra) →
  Gateway.sender_tx_id pid g ≠ Gateway.receiver_tx_id pid g →
  (∀ s, bs !! sb = Some s →
        users_ok s
        ∧ prepared_transactions s !! Gateway.sender_tx_id pid g = None) →
  (∀ s, bs !! rb = Some s →
        users_ok s
        ∧ prepared_transactions s !! Gateway.receiver_tx_id pid g = None) →
  bs !! sb = Some s0 →
  ready (snd (PrepareTransaction s0 e
                (Gateway.sender_prepare_request pid sa rb ra amt g)))
  = true →
  let B1 :=
    <[sb := fst (PrepareTransaction s0 e
                   (Gateway.sender_prepare_request pid sa rb ra amt g))]>
      bs in
  B1 !! rb = Some t0 →
  ready (snd (PrepareTransaction t0 e
                (Gateway.receiver_prepare_request pid sb sa ra amt g)))
  = true →
  let B2 :=
    <[rb := fst (PrepareTransaction t0 e
                   (Gateway.receiver_prepare_request pid sb sa ra amt g))]>
      B1 in
  B2 !! sb = Some s2 →
  commit_success
    (snd (CommitTransaction s2 e
            {| commit_transaction_id := Gateway.sender_tx_id pid g |}))
  = true →
  let B3 :=
    <[sb := fst (CommitTransaction s2 e
                   {| commit_transaction_id :=
                        Gateway.sender_tx_id pid g |})]> B2 in
  B3 !! rb = Some t2 →
  commit_success
    (snd (CommitTransaction t2 e
            {| commit_transaction_id := Gateway.receiver_tx_id pid g |}))
  = true →
  bs' = <[rb := fst (CommitTransaction t2 e
                       {| commit_transaction_id :=
                            Gateway.receiver_tx_id pid g |})]> B3 →
  ∃ from to : Q,
    balance_in bs sb sa = Some from ∧ balance_in bs rb ra = Some to
    ∧ (amt <= from)%Q
    ∧ balance_in bs' sb sa = Some (from - amt)%Q
    ∧ balance_in bs' rb ra = Some (to + amt)%Q
    ∧ ∀ b a, (b, a) ≠ (sb, sa) → (b, a) ≠ (rb, ra) →
             balance_in bs' b a = balance_in bs b a.
Proof.
  set (req_s := Gateway.sender_prepare_request pid sa rb ra amt g).
  set (req_r := Gateway.receiver_prepare_request pid sb sa ra amt g).
  set (sid := Gateway.sender_tx_id pid g).
  set (rid := Gateway.receiver_tx_id pid g).
  intros Hnotself Hids Hs Hr H0 Hp1 B1 Ht0 Hp2 B2 Hs2 Hc1 B3 Ht2 Hc2 ->.
  destruct (Hs s0 H0) as [Hok0 Hfresh_s].
  destruct (prepare_fresh_ready s0 e req_s Hfresh_s Hp1)
    as (us & ds & Hfind_s & Hamt & Hs1).
  destruct (decide (sb = rb)) as [Hsame|Hdiff].
  - (* both accounts at one bank *)
    assert (Hacc : ra ≠ sa) by (intros ->; by apply Hnotself).
    destruct (Hr s0) as [_ Hfresh_r]; [by rewrite <- Hsame|].
    subst B1 B2 B3. rewrite <- Hsame in *.
    rewrite lookup_insert_eq in Ht0. injection Ht0 as <-.
    rewrite lookup_insert_eq in Hs2. injection Hs2 as <-.
    rewrite lookup_insert_eq in Ht2. injection Ht2 as <-.
    revert Hp2 Hc1 Hc2. rewrite Hs1.
    set (s1 := set_prepared s0 _). intros Hp2.
    assert (Hfresh_r1 : prepared_transactions s1 !! prep_transaction_id req_r
                        = None).
    { subst s1. simpl. by rewrite lookup_insert_ne. }
    destruct (prepare_fresh_ready s1 e req_r Hfresh_r1 Hp2)
      as (ur & dr & Hfind_r & _ & Ht1).
    rewrite Ht1. set (t1 := set_prepared s1 _). intros Hc1.
    assert (Hps : prepared_transactions t1 !! sid
                  = Some (ready_entry req_s us e)).
    { subst t1 s1. simpl. rewrite lookup_insert_ne by done.
      by rewrite lookup_insert_eq. }
    destruct (commit_ready t1 e sid _ Hps eq_refl Hc1) as [Hu3 Hp3].
    set (s3 := fst (CommitTransaction t1 e _)) in *. intros Hc2.
    assert (Hpr : prepared_transactions s3 !! rid
                  = Some (ready_entry req_r ur e)).
    { rewrite Hp3. subst t1 s1. simpl. rewrite lookup_delete_ne by done.
      by rewrite lookup_insert_eq. }
    destruct (commit_ready s3 e rid _ Hpr eq_refl Hc2) as [Hu4 _].
    set (t3 := fst (CommitTransaction s3 e _)) in *.
    simpl in Hu3, Hu4, Hfind_r, Hfind_s.
    destruct (balance_of_adjust s0 s3 sa us ds _ Hok0 Hfind_s Hu3)
      as (Hok3 & Hbal3 & Hoth3).
    assert (Hfind_r3 : find_account (users s3) ra = Some (ur, dr))
      by (rewrite Hoth3 by done; exact Hfind_r).
    destruct (balance_of_adjust s3 t3 ra ur dr _ Hok3 Hfind_r3 Hu4)
      as (Hok4 & Hbal4 & Hoth4).
    exists (balance ds), (balance dr).
    unfold balance_in. rewrite H0, !lookup_insert_eq.
    unfold balance_of at 1 2. rewrite Hfind_s, Hfind_r.
    split_and!; try done.
    + by apply Hamt.
    + unfold balance_of. rewrite Hoth4 by done.
      fold (balance_of s3 sa). exact Hbal3.
    + intros b a Hs' Hr'. destruct (decide (b = sb)) as [->|Hb].
      * rewrite lookup_insert_eq, H0. unfold balance_of.
        rewrite Hoth4, Hoth3; [done | congruence | congruence].
      * by rewrite !lookup_insert_ne.
  - (* two banks *)
    subst B1 B2 B3.
    rewrite lookup_insert_ne in Ht0 by done.
    destruct (Hr t0 Ht0) as [Hokr Hfresh_r].
    destruct (prepare_fresh_ready t0 e req_r Hfresh_r Hp2)
      as (ur & dr & Hfind_r & _ & Ht1).
    rewrite lookup_insert_ne, lookup_insert_eq in Hs2 by done.
    injection Hs2 as <-.
    rewrite lookup_insert_ne, lookup_insert_eq in Ht2 by done.
    injection Ht2 as <-.
    revert Hc1 Hc2. rewrite Hs1, Ht1.
    set (s1 := set_prepared s0 _). set (t1 := set_prepared t0 _).
    intros Hc1 Hc2.
    assert (Hps : prepared_transactions s1 !! sid
                  = Some (ready_entry req_s us e))
      by (subst s1; simpl; by rewrite lookup_insert_eq).
    assert (Hpr : prepared_transactions t1 !! rid
                  = Some (ready_entry req_r ur e))
      by (subst t1; simpl; by rewrite lookup_insert_eq).
    destruct (commit_ready s1 e sid _ Hps eq_refl Hc1) as [Hu3 _].
    destruct (commit_ready t1 e rid _ Hpr eq_refl Hc2) as [Hu4 _].
    set (s3 := fst (CommitTransaction s1 e _)) in *.
    set (t3 := fst (CommitTransaction t1 e _)) in *.
    simpl in Hu3, Hu4, Hfind_r, Hfind_s.
    destruct (balance_of_adjust s0 s3 sa us ds _ Hok0 Hfind_s Hu3)
      as (Hok3 & Hbal3 & Hoth3).
    destruct (balance_of_adjust t0 t3 ra ur dr _ Hokr Hfind_r Hu4)
      as (Hok4 & Hbal4 & Hoth4).
    exists (balance ds), (balance dr).
    unfold balance_in. rewrite H0, Ht0.
    rewrite lookup_insert_eq, lookup_insert_ne, lookup_insert_eq by done.
    unfold balance_of at 1 2. rewrite Hfind_s, Hfind_r.
    split_and!; try done.
    + by apply Hamt.
    + intros b a Hs' Hr'. destruct (decide (b = rb)) as [->|Hb].
      * rewrite lookup_insert_eq, Ht0. unfold balance_of.
        rewrite Hoth4; [done | congruence].
      * rewrite lookup_insert_ne by done.
        destruct (decide (b = sb)) as [->|Hb'].
        -- rewrite lookup_insert_eq, H0. unfold balance_of.
           rewrite Hoth3; [done | congruence].
        -- by rewrite !lookup_insert_ne.
Qed.

End settlement.

End SettlementBank.

Module SettlementExtra.
Import Proto Grpc Gateway GatewayProps Settlement.

Lemma call_bank_reply (w w1 : World.world) (b : string) (c : call)
    (v : reply c) :
  World.call_bank w b c = (w1, Reply v) →
  ∃ s, World.banks w !! b = Some s
       ∧ v = value (snd (World.serve s (World.bank_env w) c))
       ∧ World.banks w1 = <[b := fst (World.serve s (World.bank_env w) c)]>
                            (World.banks w)
       ∧ World.bank_env w1 = World.bank_env w.
Proof.
  unfold World.call_bank. destruct (World.next_fate _) as [f rest].
  destruct (existsb _ _); [discriminate|].
  destruct f; try discriminate;
    destruct (World.banks w !! b) as [s|]; try discriminate;
    destruct (World.serve s (World.bank_env w) c) as [s' r] eqn:Hserve;
    try discriminate.
  unfold deliver. destruct (is_ok (code r)); simpl; [|discriminate].
  intros [= <- <-]. exists s. rewrite Hserve. by split_and!.
Qed.

Lemma call_bank_env (w : World.world) (b : string) (c : call) :
  World.bank_env (fst (World.call_bank w b c)) = World.bank_env w.
Proof.
  unfold World.call_bank. destruct (World.next_fate _) as [f rest].
  destruct (existsb _ _); [done|].
  destruct f; simpl; try done;
    destruct (World.banks w !! b); simpl; try done;
    destruct (World.serve _ _ _) as [s' r]; simpl; try done.
Qed.

Lemma run_served_by {A} (p : prog A) (w : World.world) :
  served_by (World.bank_env w) (World.banks w)
    (snd (fst (run World.handle p w))) (World.banks (snd (run World.handle p w))).
Proof.
  revert w. induction p as [a | o k IH]; intros w; simpl; [done|].
  destruct (World.handle o w) as [w1 x] eqn:E1.
  specialize (IH x w1).
  destruct (run World.handle (k x) w1) as [[a tr] w2]. simpl in *.
  destruct o as [| |b c]; simpl in E1.
  - destruct (World.next _ _). by injection E1 as <- _.
  - destruct (World.next _ _). by injection E1 as <- _.
  - destruct x as [v|? ?|?]; try done.
    destruct (call_bank_reply _ _ _ _ _ E1) as (s & Hs & Hv & Hbanks & Henv).
    exists s. split; [done|]. split; [done|].
    rewrite <- Hbanks. by rewrite <- Henv.
Qed.

Lemma tx_ids_differ (pid g : string) :
  sender_tx_id pid g ≠ receiver_tx_id pid g.
Proof.
  unfold sender_tx_id, receiver_tx_id. intros H.
  apply (f_equal String.length) in H.
  rewrite !length_append in H. simpl in H. lia.
Qed.

Lemma serve_PrepareTransaction (s : Bank.state) (e : Bank.env)
    (r : PrepareTransactionRequest) (t : Q) :
  World.serve s e (PrepareTransaction r t)
  = (fst (Bank.PrepareTransaction s e r),
     ok (snd (Bank.PrepareTransaction s e r))).
Proof. simpl. by destruct (Bank.PrepareTransaction s e r). Qed.

Lemma serve_CommitTransaction (s : Bank.state) (e : Bank.env)
    (r : CommitTransactionRequest) (t : Q) :
  World.serve s e (CommitTransaction r t)
  = (fst (Bank.CommitTransaction s e r),
     ok (snd (Bank.CommitTransaction s e r))).
Proof. simpl. by destruct (Bank.CommitTransaction s e r). Qed.

#[local] Arguments World.serve : simpl never.

(** Every path of the coordinator that ends in success, against banks
    that served its calls; the balances are those of the model, where
    [-=] and [+=] are the exact difference and sum. *)
Lemma completed_paths_settle (pid sb sa rb ra : string) (amt : Q) :
  always
    (fun tr resp =>
       success resp = true → ¬ (sb = rb ∧ sa = ra) →
       ∀ e bs bs',
         served_by e bs tr bs' →
         (∀ s, bs !! sb = Some s →
               BankQueries.users_ok s
               ∧ Bank.prepared_transactions s
                 !! sender_tx_id pid (transaction_id resp) = None) →
         (∀ s, bs !! rb = Some s →
               BankQueries.users_ok s
               ∧ Bank.prepared_transactions s
                 !! receiver_tx_id pid (transaction_id resp) = None) →
         ∃ from to : Q,
           balance_in bs sb sa = Some from ∧ balance_in bs rb ra = Some to
           ∧ (amt <= from)%Q
           ∧ balance_in bs' sb sa = Some (from - amt)%Q
           ∧ balance_in bs' rb ra = Some (to + amt)%Q
           ∧ ∀ b a, (b, a) ≠ (sb, sa) → (b, a) ≠ (rb, ra) →
                    balance_in bs' b a = balance_in bs b a)
    (_process_payment_2pc pid sb sa rb ra amt) [].
Proof.
  explore.
  all: intros Hok; try discriminate Hok.
  all: intros Hnotself.
  all: try solve
    [ exfalso; apply Hnotself;
      match goal with H : _ && _ = true |- _ =>
        apply andb_prop in H as [?%String.eqb_eq ?%String.eqb_eq] end;
      done ].
  intros e bs bs' Hserved Hs Hr. simpl in Hserved.
  destruct Hserved as (s0 & H0 & Hv1 & t0 & Ht0 & Hv2 & s2 & Hs2 & Hv3
                       & t2 & Ht2 & Hv4 & Hbs').
  rewrite !serve_PrepareTransaction, !serve_CommitTransaction in *.
  simpl in *.
  eapply (SettlementBank.settlement e pid sb sa rb ra amt _ bs bs'
            s0 t0 s2 t2); try eassumption.
  - apply tx_ids_differ.
  - by rewrite <- Hv1.
  - by rewrite <- Hv2.
  - by rewrite <- Hv3.
  - by rewrite <- Hv4.
Qed.

(** X21: a payment between two different accounts that the coordinator
    reports as successful has run both commits: with banks whose user
    names are unique and which hold no prepared transaction under the two
    ids of this attempt, the sender's account covered the amount, and no
    balance other than the sender's and the receiver's has changed at any
    bank.  When the debit is exact (the sender's balance, the amount and
    their difference are floats, so that nothing is rounded), the
    sender's account is down by exactly the amount; when the credit is
    exact, the receiver's account is up by exactly the amount. *)
Theorem completed_payment_moves_the_amount (w w' : World.world)
    (pid sb sa rb ra : string) (amt : Q) (resp : PaymentResponse)
    (tr : list event) :
  run World.handle (_process_payment_2pc pid sb sa rb ra amt) w
  = (resp, tr, w') →
  success resp = true →
  ¬ (sb = rb ∧ sa = ra) →
  (∀ s, World.banks w !! sb = Some s →
        BankQueries.users_ok s
        ∧ Bank.prepared_transactions s
          !! sender_tx_id pid (transaction_id resp) = None) →
  (∀ s, World.banks w !! rb = Some s →
        BankQueries.users_ok s
        ∧ Bank.prepared_transactions s
          !! receiver_tx_id pid (transaction_id resp) = None) →
  ∃ from to : Q,
    World.balance_at w sb sa = Some from
    ∧ World.balance_at w rb ra = Some to
    ∧ (amt <= from)%Q
    ∧ (BankQueries.exact_move "debit" amt from = true →
       World.balance_at w' sb sa = Some (from - amt)%Q)
    ∧ (BankQueries.exact_move "credit" amt to = true →
       World.balance_at w' rb ra = Some (to + amt)%Q)
    ∧ ∀ b a, (b, a) ≠ (sb, sa) → (b, a) ≠ (rb, ra) →
             World.balance_at w' b a = World.balance_at w b a.
Proof.
  intros Hrun Hok Hnotself Hs Hr.
  pose proof (always_run _ World.handle _ w
                (completed_paths_settle pid sb sa rb ra amt)) as Hpaths.
  pose proof (run_served_by (_process_payment_2pc pid sb sa rb ra amt) w)
    as Hserved.
  rewrite Hrun in Hpaths, Hserved. simpl in Hpaths, Hserved.
  destruct (Hpaths Hok Hnotself _ _ _ Hserved Hs Hr)
    as (from & to & Hfrom & Hto & Hcover & Hdown & Hup & Hothers).
  exists from, to. by split_and!.
Qed.

(** The payment of 150 from [ACC001] at [Bank1], which holds 1000, to
    [ACC002] at [Bank2], which holds 2000: they hold 850 and 2150. *)
Lemma completed_payment_moves_the_amount_witness :
  BankQueries.exact_move "debit" 150 1000 = true
  ∧ BankQueries.exact_move "credit" 150 2000 = true
  ∧ World.balance_at World.sample_world "Bank1" "ACC001" = Some 1000%Q
  ∧ World.balance_at World.sample_world "Bank2" "ACC002" = Some 2000%Q
  ∧ World.balance_at
      (snd (run World.handle Scenario.attempt_150 World.sample_world))
      "Bank1" "ACC001" = Some (1000 - 150)%Q
  ∧ World.balance_at
      (snd (run World.handle Scenario.attempt_150 World.sample_world))
      "Bank2" "ACC002" = Some (2000 + 150)%Q
  ∧ ∀ b a, (b, a) ≠ ("Bank1", "ACC001") → (b, a) ≠ ("Bank2", "ACC002") →
           World.balance_at
             (snd (run World.handle Scenario.attempt_150
                     World.sample_world)) b a
           = World.balance_at World.sample_world b a.
Proof.
  destruct (completed_payment_moves_the_amount World.sample_world
              (snd (run World.handle Scenario.attempt_150
                      World.sample_world))
              "p-1" "Bank1" "ACC001" "Bank2" "ACC002" 150
              (fst (fst (run World.handle Scenario.attempt_150
                           World.sample_world)))
              (snd (fst (run World.handle Scenario.attempt_150
                           World.sample_world))))
    as (from & to & Hfrom & Hto & _ & Hdown & Hup & Hothers).
  - unfold Scenario.attempt_150. by destruct (run _ _ _) as [[? ?] ?].
  - vm_compute. reflexivity.
  - intros [H _]. discriminate H.
  - intros s Hs. vm_compute in Hs. injection Hs as <-.
    split; [apply (bool_decide_unpack _); by vm_compute | reflexivity].
  - intros s Hs. vm_compute in Hs. injection Hs as <-.
    split; [apply (bool_decide_unpack _); by vm_compute | reflexivity].
  - vm_compute in Hfrom, Hto.
    injection Hfrom as <-. injection Hto as <-.
    split; [reflexivity|]. split; [reflexivity|].
    split; [reflexivity|]. split; [reflexivity|].
    split; [exact (Hdown eq_refl)|]. split; [exact (Hup eq_refl)|].
    exact Hothers.
Defined.

End SettlementExtra.

(** * More properties of the client *)

Module ClientExtra.
Import Proto Grpc Client ClientQueries ClientProps.

(** A payment id as [uuid4] makes it is plain; one with a path separator
    is not. *)
Example plain_samples :
  plain "3f2b8c1e-6a4d-4e0b-9c57-0d1f2a3b4c5d" = true
  ∧ plain "p-3" = true
  ∧ plain "../x" = false
  ∧ plain "a/b" = false.
Proof. by vm_compute. Qed.

(** X22: [get_pending_transactions] lists exactly the payments whose
    record file holds a readable record, each under its payment id.  For
    a payment id that is a plain file name (no path separator, no NUL, at
    most 250 bytes): a record written by [_add_to_pending_transactions] is
    listed, under the id it was written for and in place of any earlier
    record of that id; after [_remove_from_pending_transactions] it is
    not; neither touches the records of other ids.  Whenever the list is
    not empty, [has_pending_transactions] says so. *)
Theorem pending_queue_round_trip (s : state) (k : string) (t : transaction) :
  plain k = true →
  let s1 := _add_to_pending_transactions s k t in
  let s2 := _remove_from_pending_transactions s1 k in
  (∀ k' t', (k', t') ∈ get_pending_transactions s1
            ↔ (k' = k ∧ t' = t)
              ∨ (k' ≠ k ∧ (k', t') ∈ get_pending_transactions s))
  ∧ (∀ k' t', (k', t') ∈ get_pending_transactions s2
              ↔ k' ≠ k ∧ (k', t') ∈ get_pending_transactions s)
  ∧ has_pending_transactions s1 = true
  ∧ (get_pending_transactions s ≠ [] → has_pending_transactions s = true).
Proof.
  intros _ s1 s2. split_and!.
  - intros k' t'. rewrite !get_pending_transactions_spec. subst s1. simpl.
    destruct (decide (k' = k)) as [->|Hne].
    + rewrite lookup_insert_eq. split.
      * intros [= ->]. by left.
      * intros [[_ ->]|[? _]]; done.
    + rewrite lookup_insert_ne by (intros H; by apply file_name_of_inj in H).
      split; [by right | by intros [[? _]|[_ ?]]].
  - intros k' t'. rewrite !get_pending_transactions_spec. subst s1 s2. simpl.
    destruct (decide (k' = k)) as [->|Hne].
    + rewrite lookup_delete_eq. split; [done | by intros [? _]].
    + rewrite lookup_delete_ne by (intros H; by apply file_name_of_inj in H).
      rewrite lookup_insert_ne by (intros H; by apply file_name_of_inj in H).
      split; [done | by intros [_ ?]].
  - unfold has_pending_transactions. apply existsb_exists.
    exists (file_name_of k). split; [|apply drop_last_file_name_of].
    apply in_map_iff. exists (file_name_of k, Json t). split; [done|].
    apply list_elem_of_In, elem_of_map_to_list. subst s1. simpl.
    apply lookup_insert_eq.
  - intros Hne. destruct (get_pending_transactions s) as [|[k' t'] rest] eqn:E;
      [done|].
    assert (Hin : (k', t') ∈ get_pending_transactions s)
      by (rewrite E; left).
    apply get_pending_transactions_spec in Hin.
    unfold has_pending_transactions. apply existsb_exists.
    exists (file_name_of k'). split; [|apply drop_last_file_name_of].
    apply in_map_iff. exists (file_name_of k', Json t'). split; [done|].
    by apply list_elem_of_In, elem_of_map_to_list.
Qed.

(** The record of the payment [p-7], 25 to [ACC003] at [Bank2], written
    to an empty queue. *)
Lemma pending_queue_round_trip_witness :
  let t := {| t_receiver_account := "ACC003"; t_receiver_bank := "Bank2";
              t_amount := 25; t_timestamp := 1000 |} in
  let s1 := _add_to_pending_transactions Scenario.client0 "p-7" t in
  let s2 := _remove_from_pending_transactions s1 "p-7" in
  plain "p-7" = true
  ∧ get_pending_transactions s1 = [("p-7", t)]
  ∧ get_pending_transactions s2 = []
  ∧ (∀ k' t', (k', t') ∈ get_pending_transactions s1
              ↔ (k' = "p-7" ∧ t' = t)
                ∨ (k' ≠ "p-7"
                   ∧ (k', t') ∈ get_pending_transactions Scenario.client0))
  ∧ (∀ k' t', (k', t') ∈ get_pending_transactions s2
              ↔ k' ≠ "p-7"
                ∧ (k', t') ∈ get_pending_transactions Scenario.client0)
  ∧ has_pending_transactions s1 = true
  ∧ (get_pending_transactions Scenario.client0 ≠ []
     → has_pending_transactions Scenario.client0 = true).
Proof.
  intros t s1 s2.
  split; [reflexivity|]. split; [by vm_compute|]. split; [by vm_compute|].
  apply (pending_queue_round_trip Scenario.client0 "p-7" t). reflexivity.
Defined.

(** ** What a retry sends *)

Section retry.
Variable answer : PaymentRequest → remote PaymentResponse.

Lemma send_recording (self : state) (g : calls) (k ra rb : string) (amt : Q) :
  let request := {| Proto.token := token_string self;
                    sender_account := "self"; receiver_account := ra;
                    receiver_bank := rb; amount := amt; payment_id := k |} in
  fst (_send_payment calls (recording answer) self g k ra rb amt)
  = (g ++ [([("token", token_string self)], request)])%list
  ∧ fst (snd (_send_payment calls (recording answer) self g k ra rb amt))
    = succeeded (answer request).
Proof.
  unfold _send_payment, recording. simpl.
  destruct (answer _) as [resp|c d0]; simpl; [|done].
  by destruct (success resp).
Qed.

Lemma retry_one_recording (self : state) (l : retry_loop calls)
    (entry : string * file) :
  token (r_self calls l) = token self →
  let l' := retry_one calls (recording answer) l entry in
  token (r_self calls l') = token self
  ∧ r_gateway calls l'
    = (r_gateway calls l
       ++ map (call_of self) (option_list (listed entry)))%list
  ∧ r_success calls l'
    = r_success calls l
      && forallb (answered_ok answer self) (option_list (listed entry))
  ∧ pending_dir (r_self calls l')
    = settled_dir answer self (pending_dir (r_self calls l))
        (option_list (listed entry)).
Proof.
  intros Htok. destruct entry as [f c]. unfold retry_one, listed.
  destruct (endswith f ".json"); simpl.
  2: { by rewrite app_nil_r, andb_true_r. }
  destruct c as [t|]; simpl.
  2: { by rewrite app_nil_r, andb_true_r. }
  pose proof (send_recording (r_self calls l) (r_gateway calls l)
                (drop_last 5 f)
                (t_receiver_account t) (t_receiver_bank t) (t_amount t))
    as [Hg Hok].
  destruct (_send_payment calls (recording answer) _ _ _ _ _ _)
    as [g' [ok msg]].
  simpl in Hg, Hok. subst g' ok.
  unfold call_of, answered_ok, request_of, token_string. simpl. rewrite <- Htok.
  destruct (succeeded _); simpl.
  - by rewrite andb_true_r.
  - by rewrite andb_false_r.
Qed.

Lemma retry_loop_recording (self : state) (entries : list (string * file))
    (l : retry_loop calls) :
  token (r_self calls l) = token self →
  let l' := fold_left (retry_one calls (recording answer)) entries l in
  token (r_self calls l') = token self
  ∧ r_gateway calls l'
    = (r_gateway calls l ++ map (call_of self) (omap listed entries))%list
  ∧ r_success calls l'
    = r_success calls l
      && forallb (answered_ok answer self) (omap listed entries)
  ∧ pending_dir (r_self calls l')
    = settled_dir answer self (pending_dir (r_self calls l))
        (omap listed entries).
Proof.
  revert l. induction entries as [|entry rest IH]; intros l Htok; simpl.
  - by rewrite app_nil_r, andb_true_r.
  - destruct (retry_one_recording self l entry Htok)
      as (Htok1 & Hg1 & Hs1 & Hd1).
    destruct (IH _ Htok1) as (Htok2 & Hg & Hs & Hd).
    split; [exact Htok2|].
    rewrite Hg, Hs, Hd, Hg1, Hs1, Hd1.
    destruct (listed entry) as [kt|]; simpl.
    + rewrite <- app_assoc, andb_true_r, andb_assoc. done.
    + by rewrite app_nil_r, andb_true_r.
Qed.

Lemma settle_lookup (self : state) (recs : list (string * transaction))
    (dir : gmap string file) (name : string) :
  settled_dir answer self dir recs !! name
  = if existsb (fun kt => answered_ok answer self kt
                          && String.eqb (file_name_of (fst kt)) name) recs
    then None else dir !! name.
Proof.
  revert dir. induction recs as [|kt rest IH]; intros dir; simpl; [done|].
  unfold settled_dir in *. simpl. rewrite IH.
  destruct (existsb _ rest); [by rewrite orb_true_r|]. rewrite orb_false_r.
  destruct (answered_ok answer self kt); simpl; [|done].
  destruct (String.eqb_spec (file_name_of (fst kt)) name) as [<-|Hne].
  - apply lookup_delete_eq.
  - by apply lookup_delete_ne.
Qed.

(** X23: a retry by a client that is connected and holds a token sends
    one request for each record that [get_pending_transactions] lists, in
    that order and nothing else: the request carries the payment id of the
    record, its receiver, bank and amount, the sender [self] and the
    client's token, in the body and in the metadata.  The retry reports
    success exactly when every one of these requests was answered with
    success, and the records still listed afterwards are exactly those
    whose request was not. *)
Theorem retry_resends_every_record (self : state) :
  is_connected self = true →
  no_token self = false →
  let '(s', sent, _, (ok, _)) :=
    retry_pending_transactions calls (recording answer) self [] in
  sent = map (call_of self) (get_pending_transactions self)
  ∧ ok = forallb (answered_ok answer self) (get_pending_transactions self)
  ∧ ∀ k t, (k, t) ∈ get_pending_transactions s'
           ↔ (k, t) ∈ get_pending_transactions self
             ∧ answered_ok answer self (k, t) = false.
Proof.
  intros Hconn Htok. unfold retry_pending_transactions.
  rewrite Hconn, Htok. simpl.
  destruct (retry_loop_recording self (map_to_list (pending_dir self))
              {| r_self := self; r_gateway := []; r_log := [];
                 r_success := true; r_retried_count := 0;
                 r_success_count := 0 |} eq_refl) as (_ & Hg & Hs & Hd).
  simpl in Hg, Hs, Hd. split; [exact Hg|]. split; [exact Hs|].
  intros k t. rewrite !get_pending_transactions_spec.
  match goal with
  | |- ?X !! _ = _ ↔ _ =>
      replace X with (settled_dir answer self (pending_dir self)
                        (get_pending_transactions self))
        by (symmetry; exact Hd)
  end.
  rewrite settle_lookup.
  destruct (existsb _ _) eqn:Hex.
  - split; [discriminate|]. intros [Hin Hno]. exfalso.
    apply existsb_exists in Hex as ([k' t'] & Hin' & Hc).
    apply andb_prop in Hc as [Hok' Hname]. simpl in Hname.
    apply String.eqb_eq, file_name_of_inj in Hname as ->.
    apply list_elem_of_In, get_pending_transactions_spec in Hin'.
    rewrite Hin in Hin'. injection Hin' as ->. congruence.
  - split; [|by intros [? _]]. intros Hin. split; [done|].
    destruct (answered_ok answer self (k, t)) eqn:Hok; [|done]. exfalso.
    assert (existsb (fun kt => answered_ok answer self kt
                       && String.eqb (file_name_of (fst kt))
                            (file_name_of k))
              (get_pending_transactions self) = true) as Hyes; [|congruence].
    apply existsb_exists. exists (k, t). split.
    + by apply list_elem_of_In, get_pending_transactions_spec.
    + simpl. by rewrite Hok, String.eqb_refl.
Qed.

End retry.

Lemma retry_resends_every_record_witness :
  let '(s', sent, _, (ok, _)) :=
    retry_pending_transactions calls (recording Scenario2.unavailable)
      Scenario2.client_pending [] in
  sent = map (call_of Scenario2.client_pending)
           (get_pending_transactions Scenario2.client_pending)
  ∧ ok = forallb (answered_ok Scenario2.unavailable Scenario2.client_pending)
           (get_pending_transactions Scenario2.client_pending)
  ∧ ∀ k t, (k, t) ∈ get_pending_transactions s'
           ↔ (k, t) ∈ get_pending_transactions Scenario2.client_pending
             ∧ answered_ok Scenario2.unavailable Scenario2.client_pending
                 (k, t) = false.
Proof.
  apply (retry_resends_every_record Scenario2.unavailable
           Scenario2.client_pending); reflexivity.
Defined.

End ClientExtra.

(** * The served payment, end to end *)

Module ServedExtra.
Import Proto Grpc Gateway GatewayProps Settlement SettlementExtra.

#[local] Arguments World.serve : simpl never.
#[local] Arguments in_bank_stubs : simpl never.
#[local] Arguments Py.lt : simpl never.
#[local] Arguments Py.max0 : simpl never.
#[local] Arguments Py.truthy : simpl never.
#[local] Arguments Py.str_float : simpl never.
#[local] Arguments String.append : simpl never.

(** The same for [ProcessPayment] behind the interceptor; the balances
    are those of the model, where [-=] and [+=] are exact. *)
Lemma served_paths_settle (s : state)
    (invocation_metadata : list (string * string))
    (request : PaymentRequest) (info : token_info) :
  active_tokens s !! token request = Some info →
  cached s (payment_id request) = None →
  ¬ (bank info = receiver_bank request
     ∧ account info = receiver_account request) →
  always
    (fun tr out =>
       ∀ resp, snd out = Answered resp → success resp = true →
       ∀ e bs bs',
         served_by e bs tr bs' →
         (∀ b, bs !! bank info = Some b →
               BankQueries.users_ok b
               ∧ Bank.prepared_transactions b
                 !! sender_tx_id (payment_id request) (transaction_id resp)
                 = None) →
         (∀ b, bs !! receiver_bank request = Some b →
               BankQueries.users_ok b
               ∧ Bank.prepared_transactions b
                 !! receiver_tx_id (payment_id request) (transaction_id resp)
                 = None) →
         ∃ from to : Q,
           balance_in bs (bank info) (account info) = Some from
           ∧ balance_in bs (receiver_bank request)
               (receiver_account request) = Some to
           ∧ (amount request <= from)%Q
           ∧ balance_in bs' (bank info) (account info)
             = Some (from - amount request)%Q
           ∧ balance_in bs' (receiver_bank request)
               (receiver_account request)
             = Some (to + amount request)%Q
           ∧ ∀ b a, (b, a) ≠ (bank info, account info) →
                    (b, a) ≠ (receiver_bank request,
                              receiver_account request) →
                    balance_in bs' b a = balance_in bs b a)
    (serve_ProcessPayment s invocation_metadata request) [].
Proof.
  intros Htok Hmiss Hnotself. unfold cached in Hmiss.
  unfold serve_ProcessPayment, intercept_service, ProcessPayment.
  cbv zeta. rewrite Htok, Hmiss. simpl.
  destruct (negb (String.eqb (sender_account request) "self")
            && negb (String.eqb (sender_account request) (account info)));
    (destruct (Py.dict_get invocation_metadata "token") as [tok0|];
     [destruct (active_tokens s !! tok0) as [info0|]|]).
  all: repeat first
    [ progress explore
    | match goal with
      | |- always _ (prog_bind _ _ _ (prog_bind _ _ _
                                        (if ?c then _ else _))) _ =>
          destruct c eqn:?
      | |- always _ ((if ?c then _ else _) ≫= _) _ => destruct c eqn:?
      end ].
  all: intros resp Hresp Hok.
  all: try (simpl in Hresp; discriminate Hresp).
  all: try (simpl in Hresp; injection Hresp as <-; discriminate Hok).
  all: try (unfold deliver in Hresp; simpl in Hresp;
            destruct (is_ok _);
            [injection Hresp as <-; discriminate Hok | discriminate Hresp]).
  all: try solve
    [ exfalso; apply Hnotself;
      match goal with H : _ && _ = true |- _ =>
        apply andb_prop in H as [?%String.eqb_eq ?%String.eqb_eq] end;
      done ].
  simpl in Hresp. injection Hresp as <-.
  intros e bs bs' Hserved Hs Hr. simpl in Hs, Hr.
  destruct Hserved as (s0 & H0 & _ & Hserved).
  rewrite (insert_id _ _ _ H0) in Hserved.
  destruct Hserved as (s1 & H1 & Hv1 & t0 & Ht0 & Hv2 & s2 & Hs2 & Hv3
                       & t2 & Ht2 & Hv4 & Hbs').
  rewrite !serve_PrepareTransaction, !serve_CommitTransaction in *.
  simpl in *.
  eapply (SettlementBank.settlement e (payment_id request) (bank info)
            (account info) (receiver_bank request)
            (receiver_account request) (amount request) _ bs bs'
            s1 t0 s2 t2); try eassumption.
  - apply tx_ids_differ.
  - rewrite <- Hv1. by apply negb_false_iff.
  - rewrite <- Hv2. by apply negb_false_iff.
  - rewrite <- Hv3. by apply negb_false_iff.
  - rewrite <- Hv4. by apply negb_false_iff.
Qed.

(** X24: the gateway as a client reaches it.  When [ProcessPayment],
    behind the interceptor, answers with success a request whose payment id
    is not in the cache and whose receiver is not the sender's own account,
    both commits have run: with banks whose user names are unique and
    which hold no prepared transaction under the two ids of this attempt,
    the account of the body token covered the amount, and no balance other
    than its own and the receiver's has changed at any bank.  When the
    debit is exact (the balance, the amount and their difference are
    floats, so that nothing is rounded), the account of the body token is
    down by exactly the amount; when the credit is exact, the receiver's
    account is up by exactly the amount. *)
Theorem answered_payment_moved_the_amount (g g' : state)
    (w w' : World.world) (invocation_metadata : list (string * string))
    (request : PaymentRequest) (resp : PaymentResponse)
    (info : token_info) :
  World.stub_ProcessPayment (g, w) invocation_metadata request
  = ((g', w'), Answered resp) →
  success resp = true →
  active_tokens g !! token request = Some info →
  cached g (payment_id request) = None →
  ¬ (bank info = receiver_bank request
     ∧ account info = receiver_account request) →
  (∀ b, World.banks w !! bank info = Some b →
        BankQueries.users_ok b
        ∧ Bank.prepared_transactions b
          !! sender_tx_id (payment_id request) (transaction_id resp)
          = None) →
  (∀ b, World.banks w !! receiver_bank request = Some b →
        BankQueries.users_ok b
        ∧ Bank.prepared_transactions b
          !! receiver_tx_id (payment_id request) (transaction_id resp)
          = None) →
  ∃ from to : Q,
    World.balance_at w (bank info) (account info) = Some from
    ∧ World.balance_at w (receiver_bank request) (receiver_account request)
      = Some to
    ∧ (amount request <= from)%Q
    ∧ (BankQueries.exact_move "debit" (amount request) from = true →
       World.balance_at w' (bank info) (account info)
       = Some (from - amount request)%Q)
    ∧ (BankQueries.exact_move "credit" (amount request) to = true →
       World.balance_at w' (receiver_bank request) (receiver_account request)
       = Some (to + amount request)%Q)
    ∧ ∀ b a, (b, a) ≠ (bank info, account info) →
             (b, a) ≠ (receiver_bank request, receiver_account request) →
             World.balance_at w' b a = World.balance_at w b a.
Proof.
  intros Hstub Hok Htok Hmiss Hnotself Hs Hr.
  pose proof (always_run _ World.handle _ w
                (served_paths_settle g invocation_metadata request info
                   Htok Hmiss Hnotself)) as Hpaths.
  pose proof (run_served_by
                (serve_ProcessPayment g invocation_metadata request) w)
    as Hserved.
  unfold World.stub_ProcessPayment in Hstub. simpl in Hstub.
  destruct (run World.handle _ w) as [[[g1 r] tr] w1].
  simpl in Hpaths, Hserved. injection Hstub as <- <- ->.
  destruct (Hpaths resp eq_refl Hok _ _ _ Hserved Hs Hr)
    as (from & to & Hfrom & Hto & Hcover & Hdown & Hup & Hothers).
  exists from, to. by split_and!.
Qed.

(** user1 pays 150 to [ACC002] at [Bank2] through the gateway. *)
Lemma answered_payment_moved_the_amount_witness :
  let w' :=
    snd (fst (World.stub_ProcessPayment
                (Scenario.gateway0, World.sample_world)
                (Scenario.metadata "tok-1") Scenario.pay_150)) in
  BankQueries.exact_move "debit" 150 1000 = true
  ∧ BankQueries.exact_move "credit" 150 2000 = true
  ∧ World.balance_at World.sample_world "Bank1" "ACC001" = Some 1000%Q
  ∧ World.balance_at World.sample_world "Bank2" "ACC002" = Some 2000%Q
  ∧ World.balance_at w' "Bank1" "ACC001" = Some (1000 - 150)%Q
  ∧ World.balance_at w' "Bank2" "ACC002" = Some (2000 + 150)%Q
  ∧ ∀ b a, (b, a) ≠ ("Bank1", "ACC001") → (b, a) ≠ ("Bank2", "ACC002") →
           World.balance_at w' b a = World.balance_at World.sample_world b a.
Proof.
  intros w'.
  destruct (answered_payment_moved_the_amount Scenario.gateway0
              (fst (fst (World.stub_ProcessPayment
                           (Scenario.gateway0, World.sample_world)
                           (Scenario.metadata "tok-1") Scenario.pay_150)))
              World.sample_world w' (Scenario.metadata "tok-1")
              Scenario.pay_150
              (response true "g" "completed" "Payment processed successfully")
              Scenario.token_user1)
    as (from & to & Hfrom & Hto & _ & Hdown & Hup & Hothers).
  - vm_compute. reflexivity.
  - reflexivity.
  - reflexivity.
  - reflexivity.
  - intros [H _]. discriminate H.
  - intros b Hb. vm_compute in Hb. injection Hb as <-.
    split; [apply (bool_decide_unpack _); by vm_compute | reflexivity].
  - intros b Hb. vm_compute in Hb. injection Hb as <-.
    split; [apply (bool_decide_unpack _); by vm_compute | reflexivity].
  - vm_compute in Hfrom, Hto.
    injection Hfrom as <-. injection Hto as <-.
    split; [reflexivity|]. split; [reflexivity|].
    split; [reflexivity|]. split; [reflexivity|].
    split; [exact (Hdown eq_refl)|]. split; [exact (Hup eq_refl)|].
    exact Hothers.
Defined.



End ServedExtra.

(** * The gateway's read-only methods and the banks *)

Module QueriesExtra.
Import Proto Grpc BankQueries Gateway GatewayQueries GatewayExtra.

#[local] Arguments in_bank_stubs : simpl never.
#[local] Arguments Py.lt : simpl never.
#[local] Arguments Py.str_float : simpl never.

(** A reply to a read-only call is the answer of a bank of the world, and
    the call changes no bank. *)
Lemma ask_banks {A} (w : World.world) (b : string)
    (method : Bank.state → served A) :
  World.banks (fst (ask w b method)) = World.banks w
  ∧ World.no_stub (fst (ask w b method)) = World.no_stub w
  ∧ ∀ v, snd (ask w b method) = Reply v →
         ∃ bs, World.banks w !! b = Some bs ∧ code (method bs) = OK
               ∧ v = value (method bs).
Proof.
  unfold ask. destruct (World.next_fate _) as [f rest].
  destruct (existsb _ _); [by split_and!|].
  destruct f; simpl; try (by split_and!);
    destruct (World.banks w !! b) as [bs|]; simpl; try (by split_and!).
  split_and!; try done. intros v. unfold deliver.
  destruct (is_ok (code (method bs))) eqn:Hc; simpl; [|discriminate].
  intros [= <-]. exists bs. split_and!; try done.
  by destruct (code (method bs)).
Qed.

(** X26: the gateway mints tokens only for users of the bank.  Whatever
    the network does, when [Authenticate] answers with success, the bank
    the request names is a bank of the world and has a user of that name
    with that password, and the new token is bound to that user's account.
    [Authenticate] changes no bank. *)
Theorem tokens_are_minted_for_bank_users (w : World.world) (g : state)
    (request : AuthRequest) :
  let '((g', out), _, w') :=
    run handle (Authenticate (stub_is_none_in w) g request) w in
  World.banks w' = World.banks w
  ∧ ∀ r, out = Returned r → auth_success (value r) = true →
         ∃ bs d info,
           World.banks w !! auth_bank_name request = Some bs
           ∧ (auth_username request, d) ∈ Bank.users bs
           ∧ Bank.password d = auth_password request
           ∧ active_tokens g' !! auth_token (value r) = Some info
           ∧ username info = auth_username request
           ∧ bank info = auth_bank_name request
           ∧ account info = Bank.account_id d.
Proof.
  unfold Authenticate.
  destruct (negb _ || _); simpl; [split; [done|]; by intros r [= <-]|].
  unfold_queries. simpl.
  pose proof (ask_banks w (auth_bank_name request)
                (fun s => ok (BankQueries.VerifyCredentials s
                                {| cv_username := auth_username request;
                                   cv_password := auth_password request |})))
    as (Hbanks & _ & Hreply).
  destruct (ask w _ _) as [w1 [v|c d|what]]; simpl in *.
  - destruct (Hreply v eq_refl) as (bs & Hbs & _ & ->).
    unfold BankQueries.VerifyCredentials. simpl.
    destruct (Bank.users_get (Bank.users bs) (auth_username request))
      as [d|] eqn:Hget; simpl.
    2: { split; [done|]. by intros r [= <-]. }
    destruct (String.eqb_spec (Bank.password d) (auth_password request))
      as [Hpw|Hpw]; simpl.
    2: { split; [done|]. by intros r [= <-]. }
    destruct (World.next "uuid" (World.uuids w1)) as [u urest].
    destruct (World.next 0%Q _) as [t trest]. simpl.
    split; [done|]. intros r [= <-] _. simpl.
    exists bs, d. eexists.
    split; [done|]. split; [by apply BankExtra.users_get_elem|].
    split; [done|]. split; [apply lookup_insert_eq|]. done.
  - split; [done|]. by intros r [= <-].
  - split; [done|]. discriminate.
Qed.

Lemma history_of_a_known_account (s : Bank.state) (r : BankHistoryRequest) :
  code (BankQueries.GetTransactionHistory s r) = OK →
  let h := bh_transactions (value (BankQueries.GetTransactionHistory s r)) in
  Sorted.StronglySorted not_older h
  ∧ h ⊆+ ledger s (bh_account_id r)
  ∧ ((0 <= bh_limit r)%Z → (length h ≤ Z.to_nat (bh_limit r))%nat).
Proof.
  unfold BankQueries.GetTransactionHistory, ledger.
  destruct (Bank.find_account _ _); simpl; [|discriminate].
  intros _.
  destruct (Bank.transactions s !! bh_account_id r) as [l|]; simpl.
  2: { split_and!; [constructor | done | intros; lia]. }
  destruct (BankExtra.slice_to_take (bh_limit r)
              (sorted_newest_first l)) as (n & -> & Hn).
  split_and!.
  - apply (sorting.StronglySorted_app_1_l _ _
             (drop n (sorted_newest_first l))).
    rewrite take_drop. apply BankExtra.sorted_newest_first_sorted.
  - etrans; [apply sublist_submseteq, sublist_take|].
    apply Permutation_submseteq, BankExtra.sorted_newest_first_perm.
  - intros Hlim. rewrite (Hn Hlim), length_take. lia.
Qed.

(** X27: the history a client gets through the gateway.  Whatever the
    network does, when [GetTransactionHistory] behind the interceptor
    answers with success, the request named the account of the token, and
    the entries returned are entries of that account's ledger at the bank
    of the token, none more often than the ledger has it, newest first, and
    no more of them than the request's limit, or ten when that is zero or
    negative.  The call changes no bank. *)
Theorem served_history_is_recent_and_bounded (w : World.world) (g : state)
    (invocation_metadata : list (string * string))
    (request : HistoryRequest) :
  let '(r, _, w') :=
    run handle (serve_GetTransactionHistory g invocation_metadata request)
      w in
  World.banks w' = World.banks w
  ∧ ∀ resp, r = Answered resp → hist_success resp = true →
      ∃ info bs,
        user_info_of g invocation_metadata = inr info
        ∧ hist_account_id request = account info
        ∧ World.banks w !! bank info = Some bs
        ∧ Sorted.StronglySorted not_older (hist_transactions resp)
        ∧ hist_transactions resp ⊆+ ledger bs (account info)
        ∧ (Z.of_nat (length (hist_transactions resp))
           <= (if (0 <? hist_limit request)%Z
               then hist_limit request else 10))%Z.
Proof.
  unfold serve_GetTransactionHistory, guarded, intercept_service,
    GetTransactionHistory, user_info_of.
  simpl.
  destruct (Py.dict_get invocation_metadata "token") as [tok|]; simpl;
    [|split; [done|discriminate]].
  destruct (active_tokens g !! tok) as [info|]; simpl;
    [|split; [done|discriminate]].
  unfold_queries. simpl.
  destruct (World.next 0%Q (World.clock w)) as [t trest]. simpl.
  destruct (Py.lt (expires info) t); simpl; [split; [done|discriminate]|].
  destruct (String.eqb_spec (hist_account_id request) (account info))
    as [Hacc|Hacc]; simpl.
  2: { split; [done|]. unfold deliver. simpl. discriminate. }
  destruct (in_bank_stubs (bank info)); simpl.
  2: { split; [done|discriminate]. }
  set (w0 := World.Build_world _ _ _ _ _ _).
  set (breq := Build_BankHistoryRequest _ _).
  pose proof (ask_banks w0 (bank info)
                (fun s => BankQueries.GetTransactionHistory s breq))
    as (Hbanks & _ & Hreply).
  destruct (ask w0 _ _) as [w1 [v|c d|what]]; simpl in *.
  - split; [done|]. intros resp [= <-] Hok. simpl in *.
    destruct (Hreply v eq_refl) as (bs & Hbs & Hcode & ->).
    destruct (history_of_a_known_account bs breq Hcode)
      as (Hsorted & Hsub & Hlen).
    exists info, bs. split_and!; try done.
    subst breq. simpl in Hlen.
    destruct (Z.ltb_spec 0 (hist_limit request)); lia.
  - split; [done|]. unfold deliver. simpl.
    intros resp. destruct (is_ok c); [|discriminate].
    intros [= <-]. discriminate.
  - split; [done|discriminate].
Qed.

End QueriesExtra.

(** * The gateway's state *)

Module CacheExtra.
Import Proto Grpc Gateway GatewayProps.

#[local] Arguments in_bank_stubs : simpl never.
#[local] Arguments Py.lt : simpl never.
#[local] Arguments Py.max0 : simpl never.
#[local] Arguments Py.truthy : simpl never.
#[local] Arguments Py.str_float : simpl never.
#[local] Arguments String.append : simpl never.

(** X28: what [ProcessPayment] does to the gateway's state.  It never
    touches the token table.  It leaves the cache as it is, or adds one
    entry: the response it returns, under the payment id of the request,
    and only when that id is not empty and had no entry.  So an entry of
    the cache is never overwritten or removed, and a request without a
    payment id leaves no trace. *)
Theorem cache_entries_are_written_once (s : state)
    (request : PaymentRequest) :
  always
    (fun _ '(s', out) =>
       active_tokens s' = active_tokens s
       ∧ (s' = s
          ∨ Py.truthy (payment_id request) = true
            ∧ PROCESSED_KEYS s !! payment_id request = None
            ∧ ∃ a, out = Returned a
                   ∧ PROCESSED_KEYS s'
                     = <[payment_id request := value a]>
                         (PROCESSED_KEYS s)))
    (ProcessPayment s request) [].
Proof.
  unfold ProcessPayment. cbv zeta.
  destruct (active_tokens s !! token request) as [info|];
    [|simpl; auto].
  destruct (negb _ && negb _); [simpl; auto|].
  destruct (Py.truthy (payment_id request)) eqn:Hpid.
  - destruct (PROCESSED_KEYS s !! payment_id request) as [c|] eqn:Hc.
    { rewrite nothing_is_retriable, orb_true_r. simpl. auto. }
    explore.
    all: unfold cache; rewrite ?Hpid; simpl.
    all: split; [reflexivity|].
    all: try (left; reflexivity).
    all: right; split; [reflexivity|]; split; [reflexivity|].
    all: eexists; split; reflexivity.
  - explore.
    all: unfold cache; rewrite ?Hpid; simpl; auto.
Qed.

End CacheExtra.

(** * Atomicity on failure *)

Module AtomicityExtra.
Import Proto Grpc Gateway GatewayProps Settlement SettlementExtra.

Lemma call_bank_without_loss (w : World.world) (b : string) (c : call) :
  Forall (fun f => reply_lost f = false) (World.net w) →
  let w1 := fst (World.call_bank w b c) in
  Forall (fun f => reply_lost f = false) (World.net w1)
  ∧ World.bank_env w1 = World.bank_env w
  ∧ match snd (World.call_bank w b c) with
    | Reply v =>
        ∃ s, World.banks w !! b = Some s
             ∧ v = value (snd (World.serve s (World.bank_env w) c))
             ∧ World.banks w1
               = <[b := fst (World.serve s (World.bank_env w) c)]>
                   (World.banks w)
    | _ => World.banks w1 = World.banks w
    end.
Proof.
  intros Hnet. unfold World.call_bank.
  assert (Hrest : Forall (fun f => reply_lost f = false)
                    (snd (World.next_fate (World.net w)))
                  ∧ reply_lost (fst (World.next_fate (World.net w))) = false).
  { destruct (World.net w) as [|f rest]; simpl; [by split|].
    by apply Forall_cons in Hnet as [? ?]. }
  destruct (World.next_fate _) as [f rest]. simpl in Hrest.
  destruct Hrest as [Hrest Hf].
  destruct (existsb _ _); [by split_and!|].
  destruct f; simpl; try discriminate Hf; [|by split_and!].
  destruct (World.banks w !! b) as [s|] eqn:Hb; simpl; [|by split_and!].
  destruct (World.serve s (World.bank_env w) c) as [s' r] eqn:Hserve.
  simpl. split; [done|]. split; [done|].
  unfold deliver. destruct (is_ok (code r)) eqn:Hc; simpl.
  - exists s. by rewrite Hserve.
  - destruct c; simpl in Hserve.
    + injection Hserve as <- _. simpl. by rewrite insert_id.
    + exfalso. destruct (Bank.PrepareTransaction _ _ _).
      by injection Hserve as _ <-.
    + exfalso. destruct (Bank.CommitTransaction _ _ _).
      by injection Hserve as _ <-.
    + exfalso. destruct (Bank.AbortTransaction _ _).
      by injection Hserve as _ <-.
Qed.

Lemma run_served_without_loss {A} (p : prog A) (w : World.world) :
  Forall (fun f => reply_lost f = false) (World.net w) →
  served_without_loss (World.bank_env w) (World.banks w)
    (snd (fst (run World.handle p w)))
    (World.banks (snd (run World.handle p w))).
Proof.
  revert w. induction p as [a | o k IH]; intros w Hnet; simpl; [done|].
  destruct (World.handle o w) as [w1 x] eqn:E1.
  specialize (IH x w1).
  destruct (run World.handle (k x) w1) as [[a tr] w2]. simpl in *.
  destruct o as [| |b c]; simpl in E1.
  - destruct (World.next _ _). injection E1 as <- _. by apply IH.
  - destruct (World.next _ _). injection E1 as <- _. by apply IH.
  - destruct (call_bank_without_loss w b c Hnet) as (Hnet1 & Henv & Hx).
    rewrite E1 in Hnet1, Henv, Hx. simpl in *.
    specialize (IH Hnet1). rewrite Henv in IH.
    destruct x as [v|? ?|?].
    + destruct Hx as (s & Hs & Hv & Hbanks). exists s.
      by rewrite <- Hbanks.
    + by rewrite <- Hx.
    + by rewrite <- Hx.
Qed.

#[local] Arguments World.serve : simpl never.

Lemma commit_failure_keeps (s : Bank.state) (e : Bank.env)
    (r : CommitTransactionRequest) :
  commit_success (snd (Bank.CommitTransaction s e r)) = false →
  fst (Bank.CommitTransaction s e r) = s.
Proof.
  unfold Bank.CommitTransaction.
  destruct (Bank.prepared_transactions s !! _) as [p|]; [|done].
  destruct (negb (Bank.p_ready p)); [done|].
  destruct (String.eqb _ "debit").
  { destruct (Bank.users_get _ _); [discriminate | done]. }
  destruct (String.eqb _ "credit"); [|discriminate].
  destruct (Bank.users_get _ _); [discriminate | done].
Qed.

Lemma quiet_step (e : Bank.env) (bs : gmap string Bank.state) (b : string)
    (s : Bank.state) (c : call) (v : reply c) :
  bs !! b = Some s →
  v = value (snd (World.serve s e c)) →
  quiet c v →
  ∀ b' a, balance_in (<[b := fst (World.serve s e c)]> bs) b' a
          = balance_in bs b' a.
Proof.
  intros Hs -> Hq b' a. unfold balance_in.
  destruct (decide (b' = b)) as [->|Hne];
    [|by rewrite lookup_insert_ne].
  rewrite lookup_insert_eq, Hs.
  destruct c as [r|r t|r t|r t].
  - reflexivity.
  - rewrite serve_PrepareTransaction. simpl. unfold Bank.balance_of.
    by destruct (BankProps.PrepareTransaction_frame s e r) as (-> & _).
  - rewrite serve_CommitTransaction in *. simpl in *.
    by rewrite commit_failure_keeps.
  - unfold World.serve.
    pose proof (BankProps.AbortTransaction_keeps_balances s r a) as H.
    by destruct (Bank.AbortTransaction s r).
Qed.


#[local] Arguments in_bank_stubs : simpl never.
#[local] Arguments Py.lt : simpl never.
#[local] Arguments Py.max0 : simpl never.
#[local] Arguments Py.truthy : simpl never.
#[local] Arguments Py.str_float : simpl never.
#[local] Arguments String.append : simpl never.

(** Undoes the quiet steps of a run, last step first. *)
Ltac quiet_steps :=
  repeat match goal with
         | Hlk : ?m !! ?b = Some ?s,
           Hv : _ = value (snd (World.serve ?s ?e ?c))
           |- balance_in (<[?b := fst (World.serve ?s ?e ?c)]> ?m) _ _ = _ =>
             etrans;
             [ apply (quiet_step e m b s c _ Hlk Hv); simpl;
               first [ done | by apply negb_true_iff ] |]
         end.

Lemma failed_paths_keep_balances (pid sb sa rb ra : string) (amt : Q) :
  always
    (fun tr resp =>
       status resp = "failed" → stubs_fixed tr →
       ∀ e bs bs',
         served_without_loss e bs tr bs' →
         ∀ b a, balance_in bs' b a = balance_in bs b a)
    (_process_payment_2pc pid sb sa rb ra amt) [].
Proof.
  explore.
  all: intros Hst; try discriminate Hst.
  all: intros Hfix e bs bs' Hserved b a; simpl in Hserved.
  all: repeat match goal with
              | H : ∃ s, _ !! _ = Some s ∧ _ |- _ =>
                  let s := fresh "s" in
                  let Hlk := fresh "Hlk" in
                  let Hv := fresh "Hv" in
                  destruct H as (s & Hlk & Hv & H)
              end.
  all: try (subst bs'; quiet_steps; reflexivity).
  all: stub_flipped.
Qed.

(** X29: over a network that loses no reply, a payment that the
    coordinator reports as [failed] has moved no money: every balance at
    every bank is what it was before, whatever else the network, the clock
    and the banks did. *)
Theorem failed_payment_moves_nothing (w w' : World.world)
    (pid sb sa rb ra : string) (amt : Q) (resp : PaymentResponse)
    (tr : list event) :
  run World.handle (_process_payment_2pc pid sb sa rb ra amt) w
  = (resp, tr, w') →
  status resp = "failed" →
  Forall (fun f => reply_lost f = false) (World.net w) →
  ∀ b a, World.balance_at w' b a = World.balance_at w b a.
Proof.
  intros Hrun Hst Hnet.
  pose proof (always_run _ World.handle _ w
                (failed_paths_keep_balances pid sb sa rb ra amt)) as Hpaths.
  pose proof (run_served_without_loss
                (_process_payment_2pc pid sb sa rb ra amt) w Hnet)
    as Hserved.
  pose proof (world_runs_have_fixed_stubs
                (_process_payment_2pc pid sb sa rb ra amt) w) as Hfix.
  rewrite Hrun in Hpaths, Hserved, Hfix. simpl in Hpaths, Hserved, Hfix.
  exact (Hpaths Hst Hfix _ _ _ Hserved).
Qed.

Lemma failed_payment_moves_nothing_witness :
  World.balance_at
    (snd (run World.handle Scenario.attempt_150
            (World.with_net World.sample_world
               Scenario.sender_prepare_times_out)))
    "Bank1" "ACC001"
  = World.balance_at
      (World.with_net World.sample_world Scenario.sender_prepare_times_out)
      "Bank1" "ACC001".
Proof.
  apply (failed_payment_moves_nothing
           (World.with_net World.sample_world
              Scenario.sender_prepare_times_out) _
           "p-1" "Bank1" "ACC001" "Bank2" "ACC002" 150
           (fst (fst (run World.handle Scenario.attempt_150
                        (World.with_net World.sample_world
                           Scenario.sender_prepare_times_out))))
           (snd (fst (run World.handle Scenario.attempt_150
                        (World.with_net World.sample_world
                           Scenario.sender_prepare_times_out))))).
  - unfold Scenario.attempt_150. by destruct (run _ _ _) as [[? ?] ?].
  - vm_compute. reflexivity.
  - repeat constructor.
Defined.

End AtomicityExtra.

(** * The client's session *)

Module SessionExtra.
Import Proto Grpc Client ClientQueries ClientProps ClientExtra GatewayQueries
  ClientSession.

Section journal.
Variable answer : PaymentRequest → remote PaymentResponse.

Lemma retry_one_journal (self : state) (l : retry_loop journal)
    (entry : string * file) :
  token (r_self _ l) = token self →
  let l' := retry_one _ (journal_ProcessPayment answer) l entry in
  token (r_self _ l') = token self
  ∧ r_gateway _ l'
    = (r_gateway _ l
       ++ map asked_to_pay
            (map (call_of self) (option_list (listed entry))))%list.
Proof.
  intros Htok. destruct entry as [f c]. unfold retry_one, listed.
  destruct (endswith f ".json"); simpl.
  2: { by rewrite app_nil_r. }
  destruct c as [t|]; simpl.
  2: { by rewrite app_nil_r. }
  unfold _send_payment, journal_ProcessPayment, call_of, request_of,
    asked_to_pay, token_string. simpl. rewrite <- Htok.
  destruct (answer _) as [resp|c d0]; simpl; [|done].
  by destruct (success resp).
Qed.

Lemma retry_loop_journal (self : state) (entries : list (string * file))
    (l : retry_loop journal) :
  token (r_self _ l) = token self →
  let l' := fold_left (retry_one _ (journal_ProcessPayment answer)) entries l in
  token (r_self _ l') = token self
  ∧ r_gateway _ l'
    = (r_gateway _ l
       ++ map asked_to_pay
            (map (call_of self) (omap listed entries)))%list.
Proof.
  revert l. induction entries as [|entry rest IH]; intros l Htok; simpl.
  - by rewrite app_nil_r.
  - destruct (retry_one_journal self l entry Htok) as (Htok1 & Hg1).
    destruct (IH _ Htok1) as (Htok2 & Hg).
    split; [exact Htok2|]. rewrite Hg, Hg1.
    destruct (listed entry) as [kt|]; simpl.
    + by rewrite <- app_assoc.
    + by rewrite app_nil_r.
Qed.

(** X30: the client's [authenticate], against a gateway that keeps a
    journal of what it is asked.  A client that is connected sends one
    [Authenticate] request, with the user, password and bank it was given.
    When the answer is not a success, the client is left as it was and
    sends nothing else.  When it is, the client holds the token of the
    answer and reports success whatever follows; with a token that is not
    empty it has then re-sent, with that token and in the order of the
    listing, one payment request for each pending record, and nothing
    else; with an empty token it has sent nothing else. *)
Theorem authenticate_retries_with_the_new_token
    (auth : AuthRequest → remote AuthResponse)
    (self : state) (username password bank_name : string) :
  is_connected self = true →
  let request := {| auth_username := username; auth_password := password;
                    auth_bank_name := bank_name |} in
  let '(s', j, _, (ok, _)) :=
    authenticate journal (journal_Authenticate auth)
      (journal_ProcessPayment answer) self [] username password bank_name in
  match auth request with
  | Answered response =>
      if auth_success response then
        let s1 := set_token self (Some (auth_token response)) in
        ok = true
        ∧ token s' = Some (auth_token response)
        ∧ j = AskedToAuthenticate request
              :: (if Py.truthy (auth_token response)
                  then map asked_to_pay
                         (map (call_of s1) (get_pending_transactions self))
                  else [])
      else ok = false ∧ s' = self ∧ j = [AskedToAuthenticate request]
  | Failed _ _ => ok = false ∧ s' = self ∧ j = [AskedToAuthenticate request]
  end.
Proof.
  intros Hconn. unfold authenticate, journal_Authenticate. rewrite Hconn.
  simpl.
  destruct (auth _) as [response|c d]; [|done].
  destruct (auth_success response); [|done].
  unfold retry_pending_transactions. simpl. rewrite Hconn. simpl.
  unfold no_token. simpl.
  destruct (Py.truthy (auth_token response)); simpl; [|done].
  destruct (retry_loop_journal
              (set_token self (Some (auth_token response)))
              (map_to_list (pending_dir self))
              {| r_self := set_token self (Some (auth_token response));
                 r_gateway := [AskedToAuthenticate
                                 {| auth_username := username;
                                    auth_password := password;
                                    auth_bank_name := bank_name |}];
                 r_log := [];
                 r_success := true; r_retried_count := 0;
                 r_success_count := 0 |} eq_refl) as (Htok & Hg).
  simpl in Hg, Htok. split; [done|]. split; [exact Htok | exact Hg].
Qed.

End journal.

(** The client with the payment [p-7] pending authenticates as user1 at a
    gateway that grants the token [user1-g]. *)
Lemma authenticate_retries_with_the_new_token_witness :
  let '(s', j, _, (ok, _)) :=
    authenticate journal (journal_Authenticate Scenario2.grants)
      (journal_ProcessPayment Scenario2.unavailable)
      Scenario2.client_pending [] "user1" "pass1" "Bank1" in
  ok = true
  ∧ token s' = Some "user1-g"
  ∧ j = [ AskedToAuthenticate
            {| auth_username := "user1"; auth_password := "pass1";
               auth_bank_name := "Bank1" |};
          AskedToPay [("token", "user1-g")]
            (Scenario.payment "user1-g" "ACC003" "Bank2" 25 "p-7") ].
Proof.
  pose proof (authenticate_retries_with_the_new_token Scenario2.unavailable
                Scenario2.grants Scenario2.client_pending
                "user1" "pass1" "Bank1" eq_refl) as H.
  cbv zeta in H.
  destruct (authenticate _ _ _ _ _ _ _ _) as [[[s' j] log] [ok msg]].
  simpl in H. destruct H as (Hok & Htok & Hj).
  split; [exact Hok|]. split; [exact Htok|].
  rewrite Hj. by vm_compute.
Defined.

End SessionExtra.
